(** * Lunsara: account, session, password-reset and cart logic

    A shallow embedding of [auth.js] (class [AuthManager]) and of the cart
    scripts, with the properties of the specification proved about it.

    Modelling conventions, fixed once here:
    - a JavaScript string is a Rocq [string]; a character stands for a code
      unit below 256, on which [toLowerCase], [trim] and the regular
      expression classes [\s], [\d] are the ECMAScript ones;
    - a time stamp is a [Z], the millisecond count it denotes; an ISO time
      stamp ([toISOString]) is that count too, which
      [new Date(..).getTime()] gives back;
    - a number of a cart (a price, a quantity, a total) is an integer that
      is a double, written as the [Z] it denotes; a sum is rounded as
      IEEE 754 rounds it, and a total may overflow to an infinity.
      Fractions are outside the embedding;
    - [Date.now()] is an argument of an operation: a method of [auth]
      takes one clock value, [addToCart] of the per-identity script one for
      each of the three times it asks [auth.isLoggedIn()]; the random suffix
      of a reset token is an argument too;
    - [localStorage] is a finite map from keys to items. An item is the
      value whose JSON text is stored, of one of the shapes that the scripts
      store (a directory, a session, a token record, a cart), or raw text:
      text that a script stores as it is (a flag, an email), and under a key
      that is parsed, text that is no JSON. [JSON.parse] at a place that
      expects a shape gives the stored value of that shape and throws on
      every other item. JSON text of another shape, and raw text that is
      JSON (such as [null]), with which a script goes on, are outside the
      embedding: a property that tells how a call ends after parsing a key
      tells it for a value of the expected shape under that key, or for no
      value. [setItem] succeeds (the quota is not exhausted);
    - an object literal with optional members is a record with [option]
      fields; [{...a, ...b}] is the field-wise override [b] over [a];
      objects are values: the in-place change of a shared object
      ([addUserAddress] and [addUserOrder] on the directory entry they
      found) is written as an update of that entry, and an address object
      handed to [addUserAddress] is taken to be no object that a profile
      already holds;
    - a method is a function from the world to an outcome and a world; an
      exception keeps the world reached when it was thrown, which is the
      world its [catch] handler runs in;
    - the page is part of the world: the navigation and badge elements, a
      map from selectors to elements, absent when the page has none; the
      cart script it has loaded, whose [updateCartBadge] is the global
      function that [auth.js] calls; and the state of the global constant
      [auth]. [alert] and [dispatchEvent] are recorded in a trace. *)

From Stdlib Require Import ZArith Ascii String List Bool Lia DecimalString.
From stdpp Require Import base option list gmap strings.

Import ListNotations.
Local Open Scope string_scope.
Local Open Scope list_scope.
Local Open Scope Z_scope.

(** ** Regular expressions, by derivatives *)

Module Regex.

Inductive regex : Type :=
| Void
| Eps
| Class (p : ascii -> bool)
| Seq (r1 r2 : regex)
| Alt (r1 r2 : regex)
| Star (r : regex).

(** [r+] and [r{n}] *)
Definition Plus (r : regex) : regex := Seq r (Star r).

Fixpoint Repeat (n : nat) (r : regex) : regex :=
  match n with
  | O => Eps
  | S n => Seq r (Repeat n r)
  end.

Fixpoint nullable (r : regex) : bool :=
  match r with
  | Void => false
  | Eps => true
  | Class _ => false
  | Seq r1 r2 => nullable r1 && nullable r2
  | Alt r1 r2 => nullable r1 || nullable r2
  | Star _ => true
  end.

Fixpoint deriv (c : ascii) (r : regex) : regex :=
  match r with
  | Void => Void
  | Eps => Void
  | Class p => if p c then Eps else Void
  | Seq r1 r2 =>
      if nullable r1 then Alt (Seq (deriv c r1) r2) (deriv c r2)
      else Seq (deriv c r1) r2
  | Alt r1 r2 => Alt (deriv c r1) (deriv c r2)
  | Star r1 => Seq (deriv c r1) (Star r1)
  end.

Fixpoint matches (r : regex) (s : list ascii) : bool :=
  match s with
  | [] => nullable r
  | c :: s => matches (deriv c r) s
  end.

(** [/^r$/.test(s)] *)
Definition test (r : regex) (s : string) : bool :=
  matches r (list_ascii_of_string s).

(** The language of a regular expression, to which [matches] is compared. *)
Inductive lang : regex -> list ascii -> Prop :=
| lang_eps : lang Eps []
| lang_class p c : p c = true -> lang (Class p) [c]
| lang_seq r1 r2 s1 s2 :
    lang r1 s1 -> lang r2 s2 -> lang (Seq r1 r2) (s1 ++ s2)
| lang_alt_l r1 r2 s : lang r1 s -> lang (Alt r1 r2) s
| lang_alt_r r1 r2 s : lang r2 s -> lang (Alt r1 r2) s
| lang_star_nil r : lang (Star r) []
| lang_star_app r s1 s2 :
    lang r s1 -> lang (Star r) s2 -> lang (Star r) (s1 ++ s2).

End Regex.

(** ** JavaScript strings *)

Module Js.

Definition code (c : ascii) : N := N_of_ascii c.

(** [\s], which is also what [trim] strips: TAB, LF, VT, FF, CR, SP, NBSP *)
Definition is_space (c : ascii) : bool :=
  ((9 <=? code c) && (code c <=? 13) || (code c =? 32) || (code c =? 160))%N.

(** [\d] *)
Definition is_digit (c : ascii) : bool :=
  ((48 <=? code c) && (code c <=? 57))%N.

(** [A-Z], and the capital letters of Latin-1 ([U+00C0]..[U+00DE] but the
    multiplication sign [U+00D7]), are 32 below their small letter. *)
Definition is_upper (c : ascii) : bool :=
  ((65 <=? code c) && (code c <=? 90)
   || (192 <=? code c) && (code c <=? 222) && negb (code c =? 215))%N.

Definition lower_char (c : ascii) : ascii :=
  if is_upper c then ascii_of_N (code c + 32) else c.

Fixpoint toLowerCase (s : string) : string :=
  match s with
  | EmptyString => EmptyString
  | String c s => String (lower_char c) (toLowerCase s)
  end.

Fixpoint trimStart (s : list ascii) : list ascii :=
  match s with
  | [] => []
  | c :: s' => if is_space c then trimStart s' else s
  end.

Definition trim (s : string) : string :=
  string_of_list_ascii
    (rev (trimStart (rev (trimStart (list_ascii_of_string s))))).

Definition length (s : string) : nat := String.length s.

(** [s.replace(/[class]/g, '')] *)
Definition remove_all (class : ascii -> bool) (s : string) : string :=
  string_of_list_ascii
    (List.filter (fun c => negb (class c)) (list_ascii_of_string s)).

(** [n.toString()] of an integer *)
Definition toString (n : Z) : string := NilZero.string_of_int (Z.to_int n).

(** *** Numbers that are integers

    A double has a significand of 53 bits: the integers up to [2 ^ 53] in
    magnitude are doubles, and a larger integer is one when it is a multiple
    of the power of two that its 53 leading bits leave, and is below
    [2 ^ 1024]. *)
Definition is_double (z : Z) : bool :=
  let a := Z.abs z in
  (a <=? 2 ^ 53)
  || ((a mod 2 ^ (Z.log2 a - 52) =? 0) && (a <? 2 ^ 1024)).

(** The integer with a significand of 53 bits that is nearest to [z], the
    one with the even significand when two are as near. *)
Definition round_double (z : Z) : Z :=
  let a := Z.abs z in
  if a <=? 2 ^ 53 then z
  else
    let e := Z.log2 a - 52 in
    let q := a / 2 ^ e in
    let r := a mod 2 ^ e in
    let half := 2 ^ (e - 1) in
    let q' := if (half <? r) || ((r =? half) && Z.odd q) then q + 1 else q in
    Z.sgn z * (q' * 2 ^ e).

(** [a + b] of two doubles whose sum does not overflow: [quantity += 1] *)
Definition add (a b : Z) : Z := round_double (a + b).

(** A number that may have overflowed: the total of a cart. *)
Inductive number : Type :=
| Num (z : Z)
| Infinity
| NegInfinity.

(** The double that an integer rounds to. *)
Definition double (z : Z) : number :=
  let r := round_double z in
  if 2 ^ 1024 <=? r then Infinity
  else if r <=? - 2 ^ 1024 then NegInfinity
  else Num r.

(** [sum + q] for a double [q] *)
Definition plus (sum : number) (q : Z) : number :=
  match sum with
  | Num z => double (z + q)
  | _ => sum
  end.

(** [x > 0] *)
Definition positive (x : number) : bool :=
  match x with
  | Num z => 0 <? z
  | Infinity => true
  | NegInfinity => false
  end.

(** [String(x)]. Up to [2 ^ 53] the digits are those of the integer. Above,
    they are the fewest significant digits that denote a decimal which
    rounds to [x], of the decimals with that many digits the nearest to [x];
    zeros fill them up to 21 digits, and a longer number is written with an
    exponent. *)
Definition digits (a : Z) : Z := Z.of_nat (String.length (toString a)).

(** The decimal that [k] significant digits give for the double [a], if
    there is one. *)
Definition candidate (a : Z) (k : Z) : option Z :=
  let p := 10 ^ (digits a - k) in
  let lo := a / p * p in
  let hi := lo + p in
  let denotes v := round_double v =? a in
  match denotes lo, denotes hi with
  | true, true =>
      if a - lo <? hi - a then Some lo
      else if hi - a <? a - lo then Some hi
      else if Z.even (a / p) then Some lo else Some hi
  | true, false => Some lo
  | false, true => Some hi
  | false, false => None
  end.

Fixpoint shortest (fuel : nat) (a : Z) (k : Z) : Z :=
  match fuel with
  | O => a
  | S fuel =>
      match candidate a k with
      | Some v => v
      | None => shortest fuel a (k + 1)
      end
  end.

Fixpoint strip_zeros (s : list ascii) : list ascii :=
  match s with
  | "0"%char :: s' => strip_zeros s'
  | _ => s
  end.

Definition positive_toString (a : Z) : string :=
  if a <=? 2 ^ 53 then toString a
  else
    let v := shortest (Z.to_nat (digits a)) a 1 in
    let d := toString v in
    let n := Z.of_nat (String.length d) in
    if n <=? 21 then d
    else
      match list_ascii_of_string d with
      | [] => d
      | c :: rest =>
          let fraction := rev (strip_zeros (rev rest)) in
          String c
            (match fraction with
             | [] => ""
             | _ => String "."%char (string_of_list_ascii fraction)
             end)
          +:+ "e+" +:+ toString (n - 1)
      end.

Definition number_toString (x : number) : string :=
  match x with
  | Num z =>
      if z <? 0 then "-" +:+ positive_toString (- z) else positive_toString z
  | Infinity => "Infinity"
  | NegInfinity => "-Infinity"
  end.

End Js.

(** ** The data model *)

Module Address.
Record t : Type := mk {
  id : option string;
  createdAt : option Z;
  fields : list (string * string);
}.
End Address.

Definition Order : Type := list (string * string).

Module Profile.
Record t : Type := mk {
  addresses : option (list Address.t);
  orders : option (list Order);
  preferences : list (string * string);
}.
End Profile.

(** An identity of the directory ([this.users]). *)
Module User.
Record t : Type := mk {
  id : string;
  name : string;
  email : string;
  phone : string;
  password : string;
  createdAt : Z;
  profile : Profile.t;
}.
End User.

(** The [updates] argument of [updateUserProfile]: any part of an identity. *)
Module Updates.
Record t : Type := mk {
  id : option string;
  name : option string;
  email : option string;
  phone : option string;
  password : option string;
  createdAt : option Z;
  profile : option Profile.t;
}.

Definition none : t := mk None None None None None None None.

(** [{ password: p }] *)
Definition of_password (p : string) : t :=
  mk None None None None (Some p) None None.

(** a whole identity passed as [updates] *)
Definition of_user (u : User.t) : t :=
  mk (Some (User.id u)) (Some (User.name u)) (Some (User.email u))
     (Some (User.phone u)) (Some (User.password u))
     (Some (User.createdAt u)) (Some (User.profile u)).
End Updates.

(** [this.currentUser]: the four members [login] writes, and the members
    that [updateUserProfile] may spread into it. *)
Module Session.
Record t : Type := mk {
  id : string;
  name : string;
  email : string;
  loginTime : Z;
  phone : option string;
  password : option string;
  createdAt : option Z;
  profile : option Profile.t;
}.
End Session.

(** The argument of [register]; a member that is absent is [None]. *)
Module UserData.
Record t : Type := mk {
  name : option string;
  email : option string;
  phone : option string;
  password : option string;
  confirmPassword : option string;
}.
End UserData.

Module ResetData.
Record t : Type := mk {
  email : string;
  token : string;
  expires : Z;
  userId : string;
}.
End ResetData.

(** A line of a stored cart. *)
Module CartLine.
Record t : Type := mk {
  name : string;
  price : Z;
  image : string;
  quantity : Z;
}.
End CartLine.

(** What [localStorage] holds under a key: text as it was stored, or the
    value of which the JSON text was stored. *)
Inductive Item : Type :=
| Raw (text : string)
| JUsers (us : list User.t)
| JSession (s : Session.t)
| JReset (r : ResetData.t)
| JCart (c : list CartLine.t).

Module Element.
Record t : Type := mk {
  innerText : string;
  display : string;
}.
Definition set_display (d : string) (e : t) : t := mk (innerText e) d.
Definition set_innerText (x : string) (e : t) : t := mk x (display e).
End Element.

(** Calls that leave the scripts: recorded, oldest first. *)
Inductive Effect : Type :=
| DispatchAuthStateChanged (isLoggedIn : bool) (user : option Session.t)
| Alert (text : string).

(** The cart scripts of the repository. Each declares the global functions
    [updateCartBadge] and [addToCart]: [cart.js], the per-identity script,
    and the script that counts lines. *)
Inductive CartScript : Type :=
| CartJsScript
| UserCartScript
| SimpleCartScript.

(** The global constant [auth] of [auth.js]: not declared on a page without
    [auth.js]; declared and not yet initialised while
    [const auth = new AuthManager()] is evaluated; then initialised. *)
Inductive Binding : Type :=
| Undeclared
| Uninitialized
| Initialized.

Record World : Type := mkWorld {
  (** the members of the [AuthManager] instance *)
  currentUser : option Session.t;
  users : list User.t;
  localStorage : gmap string Item;
  dom : gmap string Element.t;
  trace : list Effect;
  (** the cart script that the page has loaded, if any: its functions are
      the global [updateCartBadge] and [addToCart] *)
  cart_script : option CartScript;
  auth : Binding;
}.

Definition set_currentUser (c : option Session.t) (w : World) : World :=
  mkWorld c (users w) (localStorage w) (dom w) (trace w)
          (cart_script w) (auth w).
Definition set_users (us : list User.t) (w : World) : World :=
  mkWorld (currentUser w) us (localStorage w) (dom w) (trace w)
          (cart_script w) (auth w).
Definition set_localStorage (m : gmap string Item) (w : World) : World :=
  mkWorld (currentUser w) (users w) m (dom w) (trace w)
          (cart_script w) (auth w).
Definition set_dom (d : gmap string Element.t) (w : World) : World :=
  mkWorld (currentUser w) (users w) (localStorage w) d (trace w)
          (cart_script w) (auth w).
Definition set_trace (t : list Effect) (w : World) : World :=
  mkWorld (currentUser w) (users w) (localStorage w) (dom w) t
          (cart_script w) (auth w).
Definition set_cart_script (s : option CartScript) (w : World) : World :=
  mkWorld (currentUser w) (users w) (localStorage w) (dom w) (trace w)
          s (auth w).
Definition set_auth (b : Binding) (w : World) : World :=
  mkWorld (currentUser w) (users w) (localStorage w) (dom w) (trace w)
          (cart_script w) b.

(** ** Methods: state, and exceptions that keep the state reached *)

Inductive Outcome (A : Type) : Type :=
| Normal (a : A)
| Thrown (e : string).
Arguments Normal {A} a.
Arguments Thrown {A} e.

Definition M (A : Type) : Type := World -> Outcome A * World.

Global Instance M_ret : MRet M := fun A a w => (Normal a, w).
Global Instance M_bind : MBind M := fun A B f m w =>
  match m w with
  | (Normal a, w') => f a w'
  | (Thrown e, w') => (Thrown e, w')
  end.

Definition throw {A} (e : string) : M A := fun w => (Thrown e, w).
Definition try_catch {A} (m : M A) (handler : string -> M A) : M A := fun w =>
  match m w with
  | (Normal a, w') => (Normal a, w')
  | (Thrown e, w') => handler e w'
  end.
Definition gets {A} (f : World -> A) : M A := fun w => (Normal (f w), w).
Definition modify (f : World -> World) : M unit := fun w => (Normal tt, f w).

Definition getItem (k : string) : M (option Item) :=
  gets (fun w => localStorage w !! k).
Definition setItem (k : string) (v : Item) : M unit :=
  modify (fun w => set_localStorage (<[k := v]> (localStorage w)) w).
Definition removeItem (k : string) : M unit :=
  modify (fun w => set_localStorage (delete k (localStorage w)) w).
Definition emit (e : Effect) : M unit :=
  modify (fun w => set_trace (trace w ++ [e]) w).

(** [JSON.parse(localStorage.getItem(k))] read at an expected shape:
    [null] for an absent key, the stored value when it has that shape, and a
    thrown [SyntaxError] otherwise. *)
Definition JSON_parse {A} (shape : Item -> option A) (k : string)
  : M (option A) :=
  i ← getItem k;
  match i with
  | None => mret None
  | Some it =>
      match shape it with
      | Some a => mret (Some a)
      | None => throw "SyntaxError"
      end
  end.

(** [localStorage.getItem(k) === text]: the JSON text of a value of one of
    the shapes above is an object or an array, never a bare word. *)
Definition is_text (text : string) (i : option Item) : bool :=
  match i with
  | Some (Raw s) => bool_decide (s = text)
  | _ => false
  end.

Definition as_reset (i : Item) : option ResetData.t :=
  match i with JReset r => Some r | _ => None end.
(** A stored cart: its numbers are doubles. *)
Definition is_line (item : CartLine.t) : bool :=
  Js.is_double (CartLine.price item) && Js.is_double (CartLine.quantity item).
Definition as_cart (i : Item) : option (list CartLine.t) :=
  match i with
  | JCart c => if forallb is_line c then Some c else None
  | _ => None
  end.

(** [l.find(p)] and [l.findIndex(p)] ([None] for [undefined] and [-1]) *)
Definition find {A} (P : A -> Prop) `{forall x, Decision (P x)} (l : list A)
  : option A := snd <$> list_find P l.
Definition findIndex {A} (P : A -> Prop) `{forall x, Decision (P x)}
  (l : list A) : option nat := fst <$> list_find P l.

(** Result objects [{ success, message, ... }] and [{ valid, ... }] *)
Record Result (A : Type) : Type := mkResult {
  success : bool;
  message : string;
  payload : option A;
}.
Arguments mkResult {A} _ _ _.
Arguments success {A} _.
Arguments message {A} _.
Arguments payload {A} _.

Definition ok {A} (msg : string) (a : option A) : Result A :=
  mkResult true msg a.
Definition failure {A} (msg : string) : Result A := mkResult false msg None.

Record Validation : Type := mkValidation {
  valid : bool;
  vmessage : option string;
  vemail : option string;
}.

(** ** The cart scripts *)

Definition set_quantity (q : Z) (item : CartLine.t) : CartLine.t :=
  CartLine.mk (CartLine.name item) (CartLine.price item)
              (CartLine.image item) q.

(** The array update in the body of [addToCart], the same text in both
    quantity-aware scripts: [findIndex], then [quantity += 1] or [push]. *)
Definition add_or_increment (name : string) (price : Z) (image : string)
  (cart : list CartLine.t) : list CartLine.t :=
  match findIndex (fun item => CartLine.name item = name) cart with
  | Some existingProductIndex =>
      alter (fun item => set_quantity (Js.add (CartLine.quantity item) 1) item)
            existingProductIndex cart
  | None => cart ++ [CartLine.mk name price image 1]
  end.

(** [cart.reduce((sum, item) => sum + item.quantity, 0)] *)
Definition totalItems (cart : list CartLine.t) : Js.number :=
  fold_left (fun sum item => Js.plus sum (CartLine.quantity item)) cart
            (Js.Num 0).

(** The badge element, when the page has one. *)
Definition show_badge (total : Js.number) : M unit :=
  modify (fun w =>
    set_dom (alter (fun e =>
                      Element.set_display
                        (if Js.positive total then "flex" else "none")
                        (Element.set_innerText (Js.number_toString total) e))
                   "#cart-count" (dom w)) w).

Definition added_alert (name : string) : Effect :=
  Alert ("'" +:+ name +:+ "' has been added to your cart!").

(** [src/cart.js]: one cart under the key [cart]. *)
Module CartJs.

Definition updateCartBadge : M unit :=
  cart ← JSON_parse as_cart "cart";
  show_badge (totalItems (default [] cart)).

Definition addToCart (name : string) (price : Z) (image : string) : M unit :=
  cart ← JSON_parse as_cart "cart";
  setItem "cart" (JCart (add_or_increment name price image (default [] cart)));;
  updateCartBadge;;
  emit (added_alert name).

End CartJs.

(** The script that counts lines: its badge shows [cart.length] and leaves
    the visibility of the element alone. Its [addToCart] appends lines that
    have no quantity, which are no lines of a stored cart here. *)
Module SimpleCart.

Definition updateCartBadge : M unit :=
  cart ← JSON_parse as_cart "cart";
  modify (fun w =>
    set_dom (alter (Element.set_innerText
                      (Js.toString (Z.of_nat (length (default [] cart)))))
                   "#cart-count" (dom w)) w).

Definition buyNow : M unit := emit (Alert "Proceeding to checkout!").

End SimpleCart.

(** The per-identity script: one cart per identity, under [cart_<id>]. It
    asks [auth.isLoggedIn()], and [auth.js] calls its [updateCartBadge]:
    the script is first written with [auth.isLoggedIn] as an argument. *)
Module UserCartWith.

Section Auth.

Variable isLoggedIn : Z -> M bool.

(** [typeof auth !== 'undefined' && auth.isLoggedIn()]. On a constant that
    is declared and not yet initialised, [typeof] throws. *)
Definition auth_isLoggedIn (now : Z) : M bool :=
  binding ← gets auth;
  match binding with
  | Undeclared => mret false
  | Uninitialized => throw "ReferenceError"
  | Initialized => isLoggedIn now
  end.

(** [`cart_${auth.getCurrentUser().id}`] *)
Definition userCartKey : M string :=
  currentUser ← gets currentUser;
  match currentUser with
  | Some session => mret ("cart_" +:+ Session.id session)
  | None => throw "TypeError"
  end.

Definition getUserCart (now : Z) : M (list CartLine.t) :=
  logged ← auth_isLoggedIn now;
  if logged : bool
  then
    key ← userCartKey;
    cart ← JSON_parse as_cart key;
    mret (default [] cart)
  else
    cart ← JSON_parse as_cart "cart";
    mret (default [] cart).

Definition saveUserCart (cart : list CartLine.t) (now : Z) : M unit :=
  logged ← auth_isLoggedIn now;
  if logged : bool
  then
    key ← userCartKey;
    setItem key (JCart cart)
  else setItem "cart" (JCart cart).

Definition updateCartBadge (now : Z) : M unit :=
  cart ← getUserCart now;
  show_badge (totalItems cart).

(** The clock is read when the cart is fetched, when it is saved and when
    the badge is refreshed. *)
Definition addToCart (name : string) (price : Z) (image : string)
  (now1 now2 now3 : Z) : M unit :=
  cart ← getUserCart now1;
  saveUserCart (add_or_increment name price image cart) now2;;
  updateCartBadge now3;;
  emit (added_alert name).

Definition loadUserCart (now : Z) : M (list CartLine.t) := getUserCart now.

End Auth.

End UserCartWith.

(** ** [auth.js]: class [AuthManager] *)

Module AuthManager.

Import Regex.

Definition is_char (a : ascii) (c : ascii) : bool := bool_decide (c = a).

(** [[^\s@]] *)
Definition not_space_at (c : ascii) : bool :=
  negb (Js.is_space c) && negb (is_char "@" c).

(** [[6-9]] *)
Definition six_to_nine (c : ascii) : bool :=
  ((54 <=? Js.code c) && (Js.code c <=? 57))%N.

(** [/^[^\s@]+@[^\s@]+\.[^\s@]+$/] *)
Definition emailRegex : regex :=
  Seq (Plus (Class not_space_at))
    (Seq (Class (is_char "@"))
       (Seq (Plus (Class not_space_at))
          (Seq (Class (is_char "."))
             (Plus (Class not_space_at))))).

(** [/^[6-9]\d{9}$/] *)
Definition phoneRegex : regex :=
  Seq (Class six_to_nine) (Repeat 9 (Class Js.is_digit)).

Definition isValidEmail (email : string) : bool := test emailRegex email.

(** [phoneRegex.test(phone.replace(/\D/g, ''))] *)
Definition isValidPhone (phone : string) : bool :=
  test phoneRegex (Js.remove_all (fun c => negb (Js.is_digit c)) phone).

(** [!x] for a member that is a string or absent *)
Definition falsy (o : option string) : bool :=
  match o with
  | None => true
  | Some s => bool_decide (s = "")
  end.

(** the string of a member that is read after its [!x] test failed *)
Definition member (o : option string) : string :=
  match o with
  | Some s => s
  | None => ""
  end.

Definition invalid (msg : string) : Validation :=
  mkValidation false (Some msg) None.

Definition validateRegistrationData (userData : UserData.t) : Validation :=
  if falsy (UserData.name userData)
     || (Js.length (Js.trim (member (UserData.name userData))) <? 2)%nat
  then invalid "Name must be at least 2 characters long"
  else if falsy (UserData.email userData)
          || negb (isValidEmail (member (UserData.email userData)))
  then invalid "Please enter a valid email address"
  else if falsy (UserData.phone userData)
          || negb (isValidPhone (member (UserData.phone userData)))
  then invalid "Please enter a valid phone number"
  else if falsy (UserData.password userData)
          || (Js.length (member (UserData.password userData)) <? 6)%nat
  then invalid "Password must be at least 6 characters long"
  else if negb (bool_decide (UserData.password userData
                             = UserData.confirmPassword userData))
  then invalid "Passwords do not match"
  else mkValidation true None None.

(** The [console.error] of a handler writes to the console only and is
    left out, here and below. *)
Definition saveUsers : M unit :=
  try_catch
    (us ← gets users;
     setItem "users" (JUsers us))
    (fun _ => mret tt).

Definition login (email password : string) (now : Z)
  : M (Result Session.t) :=
  us ← gets users;
  match find (fun u => Js.toLowerCase (User.email u) = Js.toLowerCase email
                       /\ User.password u = password) us with
  | Some user =>
      let session :=
        Session.mk (User.id user) (User.name user) (User.email user) now
                   None None None None in
      modify (set_currentUser (Some session));;
      setItem "currentUser" (JSession session);;
      remember ← getItem "rememberMe";
      (if is_text "true" remember
       then setItem "rememberedUser" (Raw email)
       else mret tt);;
      mret (ok "Login successful" (Some session))
  | None => mret (failure "Invalid email or password")
  end.

Definition register (userData : UserData.t) (now : Z) : M (Result User.t) :=
  let validation := validateRegistrationData userData in
  if negb (valid validation)
  then mret (failure (default "" (vmessage validation)))
  else
    us ← gets users;
    match find (fun user => Js.toLowerCase (User.email user)
                            = Js.toLowerCase (member (UserData.email userData)))
               us with
    | Some _ => mret (failure "An account with this email already exists")
    | None =>
        let newUser :=
          User.mk (Js.toString now)
                  (Js.trim (member (UserData.name userData)))
                  (Js.trim (Js.toLowerCase (member (UserData.email userData))))
                  (Js.trim (member (UserData.phone userData)))
                  (member (UserData.password userData))
                  now
                  (Profile.mk (Some []) (Some []) []) in
        modify (fun w => set_users (users w ++ [newUser]) w);;
        saveUsers;;
        login (User.email newUser) (member (UserData.password userData)) now;;
        mret (ok "Account created successfully" (Some newUser))
    end.

Definition maxSessionAge : Z := 24 * 60 * 60 * 1000.

Definition updateNavigation (isLoggedIn : bool) : M unit :=
  let show (login logout menu : string) (d : gmap string Element.t) :=
    alter (Element.set_display menu) ".user-menu"
      (alter (Element.set_display logout) ".auth-logout"
         (alter (Element.set_display login) ".auth-login" d)) in
  modify (fun w =>
    set_dom (if isLoggedIn then show "none" "flex" "flex" (dom w)
             else show "flex" "none" "none" (dom w)) w).

(** [isLoggedIn], [validateSession], [logout] and [updateUI] call each other
    in a cycle, which the page's [updateCartBadge] may join. Each is first
    written with the [isLoggedIn] that [updateUI] and the cart script call
    as an argument; the cycle is closed below. *)

(** [if (typeof updateCartBadge === 'function') updateCartBadge()] *)
Definition page_updateCartBadge (isLoggedIn : Z -> M bool) (now : Z)
  : M unit :=
  script ← gets cart_script;
  match script with
  | None => mret tt
  | Some CartJsScript => CartJs.updateCartBadge
  | Some UserCartScript => UserCartWith.updateCartBadge isLoggedIn now
  | Some SimpleCartScript => SimpleCart.updateCartBadge
  end.

(** [now] is the clock of [this.isLoggedIn()], [now'] the one of the cart
    script. *)
Definition updateUI_with (isLoggedIn : Z -> M bool) (now now' : Z) : M unit :=
  b ← isLoggedIn now;
  updateNavigation b;;
  page_updateCartBadge isLoggedIn now';;
  cu ← gets currentUser;
  emit (DispatchAuthStateChanged b cu).

(** Once the session is cleared, [updateUI] reads no clock. *)
Definition logout_with (isLoggedIn : Z -> M bool) (now : Z) : M unit :=
  modify (set_currentUser None);;
  removeItem "currentUser";;
  removeItem "rememberMe";;
  updateUI_with isLoggedIn now now.

Definition validateSession_with (isLoggedIn : Z -> M bool) (now : Z)
  : M bool :=
  cu ← gets currentUser;
  match cu with
  | Some session =>
      let sessionAge := now - Session.loginTime session in
      if sessionAge >? maxSessionAge
      then logout_with isLoggedIn now;; mret false
      else mret true
  | None => mret false
  end.

(** [this.currentUser !== null && this.validateSession()] *)
Definition isLoggedIn_with (isLoggedIn : Z -> M bool) (now : Z) : M bool :=
  cu ← gets currentUser;
  match cu with
  | None => mret false
  | Some _ => validateSession_with isLoggedIn now
  end.

(** The cycle unrolled [depth] times; a deeper call throws. Two rounds are
    enough, since the inner call runs after [logout] has cleared the
    session: [isLoggedIn_unfold] gives the equation of the source. *)
Fixpoint isLoggedIn_depth (depth : nat) (now : Z) : M bool :=
  match depth with
  | O => throw "RangeError"
  | S d => isLoggedIn_with (isLoggedIn_depth d) now
  end.

Definition isLoggedIn : Z -> M bool := isLoggedIn_depth 2.
Definition validateSession : Z -> M bool := validateSession_with isLoggedIn.
Definition logout : Z -> M unit := logout_with isLoggedIn.
Definition updateUI : Z -> Z -> M unit := updateUI_with isLoggedIn.

Definition getCurrentUser : M (option Session.t) := gets currentUser.

Definition getUserProfile (userId : string) : M (option User.t) :=
  us ← gets users;
  mret (find (fun user => User.id user = userId) us).

(** [{ ...user, ...updates }] *)
Definition spread_user (u : User.t) (updates : Updates.t) : User.t :=
  User.mk (default (User.id u) (Updates.id updates))
          (default (User.name u) (Updates.name updates))
          (default (User.email u) (Updates.email updates))
          (default (User.phone u) (Updates.phone updates))
          (default (User.password u) (Updates.password updates))
          (default (User.createdAt u) (Updates.createdAt updates))
          (default (User.profile u) (Updates.profile updates)).

(** [{ ...this.currentUser, ...updates }] *)
Definition spread_session (s : Session.t) (updates : Updates.t) : Session.t :=
  let over {A} (new old : option A) : option A :=
    match new with Some a => Some a | None => old end in
  Session.mk (default (Session.id s) (Updates.id updates))
             (default (Session.name s) (Updates.name updates))
             (default (Session.email s) (Updates.email updates))
             (Session.loginTime s)
             (over (Updates.phone updates) (Session.phone s))
             (over (Updates.password updates) (Session.password s))
             (over (Updates.createdAt updates) (Session.createdAt s))
             (over (Updates.profile updates) (Session.profile s)).

Definition updateUserProfile (userId : string) (updates : Updates.t)
  : M (Result unit) :=
  us ← gets users;
  match findIndex (fun user => User.id user = userId) us with
  | None => mret (failure "User not found")
  | Some userIndex =>
      modify (fun w =>
        set_users (alter (fun u => spread_user u updates) userIndex (users w))
                  w);;
      saveUsers;;
      cu ← gets currentUser;
      match cu with
      | Some session =>
          if bool_decide (Session.id session = userId)
          then
            let session' := spread_session session updates in
            modify (set_currentUser (Some session'));;
            setItem "currentUser" (JSession session')
          else mret tt
      | None => mret tt
      end;;
      mret (ok "Profile updated successfully" None)
  end.

(** [addUserAddress] changes the identity it found in place: that is the
    entry of [this.users] itself, written here as an update of that entry,
    before the entry is passed on as [updates]. *)
Definition addUserAddress (userId : string) (address : Address.t) (now : Z)
  : M (Result Address.t) :=
  us ← gets users;
  match list_find (fun user => User.id user = userId) us with
  | None => mret (failure "User not found")
  | Some (i, user) =>
      let profile := User.profile user in
      let address' :=
        Address.mk (Some (Js.toString now)) (Some now)
                   (Address.fields address) in
      let addresses := default [] (Profile.addresses profile) ++ [address'] in
      let user' :=
        User.mk (User.id user) (User.name user) (User.email user)
                (User.phone user) (User.password user) (User.createdAt user)
                (Profile.mk (Some addresses) (Profile.orders profile)
                            (Profile.preferences profile)) in
      modify (fun w => set_users (alter (fun _ => user') i (users w)) w);;
      updateUserProfile userId (Updates.of_user user');;
      mret (ok "Address added successfully" (Some address'))
  end.

Definition changePassword (userId oldPassword newPassword : string)
  : M (Result unit) :=
  user ← getUserProfile userId;
  match user with
  | None => mret (failure "User not found")
  | Some user =>
      if negb (bool_decide (User.password user = oldPassword))
      then mret (failure "Current password is incorrect")
      else if (Js.length newPassword <? 6)%nat
      then mret (failure "Password must be at least 6 characters long")
      else
        updateUserProfile userId (Updates.of_password newPassword);;
        mret (ok "Password changed successfully" None)
  end.

(** [suffix] is [Math.random().toString(36).substr(2, 9)]. *)
Definition requestPasswordReset (email : string) (now : Z) (suffix : string)
  : M (Result string) :=
  us ← gets users;
  match find (fun u => Js.toLowerCase (User.email u) = Js.toLowerCase email)
             us with
  | None => mret (failure "No account found with this email address")
  | Some user =>
      let resetToken := Js.toString now +:+ suffix in
      let resetData :=
        ResetData.mk email resetToken (now + 15 * 60 * 1000) (User.id user) in
      setItem "passwordResetToken" (JReset resetData);;
      mret (ok "Password reset instructions have been sent to your email"
               (Some resetToken))
  end.

Definition resetPassword (token newPassword : string) (now : Z)
  : M (Result unit) :=
  try_catch
    (resetData ← JSON_parse as_reset "passwordResetToken";
     match resetData with
     | None => mret (failure "Invalid or expired reset token")
     | Some resetData =>
         if negb (bool_decide (ResetData.token resetData = token))
         then mret (failure "Invalid reset token")
         else if now >? ResetData.expires resetData
         then removeItem "passwordResetToken";;
              mret (failure "Reset token has expired")
         else if (Js.length newPassword <? 6)%nat
         then mret (failure "Password must be at least 6 characters long")
         else
           updateResult ← updateUserProfile (ResetData.userId resetData)
                            (Updates.of_password newPassword);
           if success updateResult
           then removeItem "passwordResetToken";;
                mret (ok "Password reset successfully" None)
           else mret (failure "Error resetting password")
     end)
    (fun _ => mret (failure "Invalid reset token")).

Definition validateResetToken (token : string) (now : Z) : M Validation :=
  try_catch
    (resetData ← JSON_parse as_reset "passwordResetToken";
     match resetData with
     | None => mret (invalid "Invalid or expired reset token")
     | Some resetData =>
         if negb (bool_decide (ResetData.token resetData = token))
         then mret (invalid "Invalid reset token")
         else if now >? ResetData.expires resetData
         then removeItem "passwordResetToken";;
              mret (invalid "Reset token has expired")
         else mret (mkValidation true None
                                 (Some (ResetData.email resetData)))
     end)
    (fun _ => mret (invalid "Invalid reset token")).

(** *** The rest of the class: start-up, event handlers, lookups *)

Definition as_users (i : Item) : option (list User.t) :=
  match i with JUsers us => Some us | _ => None end.
Definition as_session (i : Item) : option Session.t :=
  match i with JSession s => Some s | _ => None end.

(** [JSON.parse(localStorage.getItem('users') || '[]')]: an absent key and
    the empty text both stand for the empty directory. *)
Definition loadUsers : M unit :=
  try_catch
    (stored ← getItem "users";
     match stored with
     | None => modify (set_users [])
     | Some (Raw EmptyString) => modify (set_users [])
     | Some it =>
         match as_users it with
         | Some us => modify (set_users us)
         | None => throw "SyntaxError"
         end
     end)
    (fun _ => modify (set_users [])).

Definition loadCurrentUser (now : Z) : M unit :=
  try_catch
    (userData ← getItem "currentUser";
     match userData with
     | None => mret tt
     | Some (Raw EmptyString) => mret tt
     | Some it =>
         match as_session it with
         | Some session =>
             modify (set_currentUser (Some session));;
             validateSession now;;
             mret tt
         | None => throw "SyntaxError"
         end
     end)
    (fun _ => logout now).

(** [storage] events: another tab has changed [localStorage]. [key] is
    [e.key] and [newValue] is [e.newValue], [None] for [null]. *)
Definition onStorage (key newValue : option string) (now : Z) : M unit :=
  if bool_decide (key = Some "currentUser") && falsy newValue
  then logout now
  else mret tt.

(** [visibilitychange] events *)
Definition onVisibilityChange (visibilityState : string) (now : Z) : M unit :=
  if bool_decide (visibilityState = "visible")
  then validateSession now;; mret tt
  else mret tt.

(** [setupEventListeners] registers the two handlers above and changes no
    state. *)
Definition setupEventListeners : M unit := mret tt.

Definition init (now : Z) : M unit :=
  loadUsers;;
  loadCurrentUser now;;
  setupEventListeners.

(** [new AuthManager()], on the page's [localStorage] *)
Definition constructor (now : Z) : M unit :=
  modify (set_currentUser None);;
  modify (set_users []);;
  init now.

(** The top level of [auth.js]: [const auth = new AuthManager()]. The
    constant is declared, and not initialised, while the constructor runs;
    when the constructor throws it stays so. *)
Definition load (now : Z) : M unit :=
  modify (set_auth Uninitialized);;
  constructor now;;
  modify (set_auth Initialized).

(** [user?.profile?.addresses || []] *)
Definition getUserAddresses (userId : string) : M (list Address.t) :=
  user ← getUserProfile userId;
  mret (match user with
        | Some user =>
            match Profile.addresses (User.profile user) with
            | Some addresses => addresses
            | None => []
            end
        | None => []
        end).

Definition getUserOrders (userId : string) : M (list Order) :=
  user ← getUserProfile userId;
  mret (match user with
        | Some user =>
            match Profile.orders (User.profile user) with
            | Some orders => orders
            | None => []
            end
        | None => []
        end).

(** As [addUserAddress], the identity found is changed in place. *)
Definition addUserOrder (userId : string) (order : Order) : M unit :=
  us ← gets users;
  match list_find (fun user => User.id user = userId) us with
  | None => mret tt
  | Some (i, user) =>
      let profile := User.profile user in
      let orders :=
        match Profile.orders profile with
        | Some orders => orders
        | None => []
        end ++ [order] in
      let user' :=
        User.mk (User.id user) (User.name user) (User.email user)
                (User.phone user) (User.password user) (User.createdAt user)
                (Profile.mk (Profile.addresses profile) (Some orders)
                            (Profile.preferences profile)) in
      modify (fun w => set_users (alter (fun _ => user') i (users w)) w);;
      updateUserProfile userId (Updates.of_user user');;
      mret tt
  end.

End AuthManager.

(** ** The per-identity cart script, on the [auth] of [auth.js] *)

Module UserCart.

Definition auth_isLoggedIn : Z -> M bool :=
  UserCartWith.auth_isLoggedIn AuthManager.isLoggedIn.
Definition userCartKey : M string := UserCartWith.userCartKey.
Definition getUserCart : Z -> M (list CartLine.t) :=
  UserCartWith.getUserCart AuthManager.isLoggedIn.
Definition saveUserCart : list CartLine.t -> Z -> M unit :=
  UserCartWith.saveUserCart AuthManager.isLoggedIn.
Definition updateCartBadge : Z -> M unit :=
  UserCartWith.updateCartBadge AuthManager.isLoggedIn.
Definition addToCart : string -> Z -> string -> Z -> Z -> Z -> M unit :=
  UserCartWith.addToCart AuthManager.isLoggedIn.
Definition loadUserCart : Z -> M (list CartLine.t) :=
  UserCartWith.loadUserCart AuthManager.isLoggedIn.

End UserCart.

(** ** The specification's vocabulary *)

Module Spec.

(** The error taxonomy. The program tells failures apart by the message of
    the result only; this is the reading of each message. *)
Inductive ErrorKind : Type :=
| ValidationError
| DuplicateEmailError
| NotFoundError
| InvalidCredentialsError
| AuthError
| TokenError.

Definition error_kind (message : string) : option ErrorKind :=
  if String.eqb message "Name must be at least 2 characters long"
     || String.eqb message "Please enter a valid email address"
     || String.eqb message "Please enter a valid phone number"
     || String.eqb message "Password must be at least 6 characters long"
     || String.eqb message "Passwords do not match"
  then Some ValidationError
  else if String.eqb message "An account with this email already exists"
  then Some DuplicateEmailError
  else if String.eqb message "User not found"
          || String.eqb message "No account found with this email address"
  then Some NotFoundError
  else if String.eqb message "Invalid email or password"
  then Some InvalidCredentialsError
  else if String.eqb message "Current password is incorrect"
  then Some AuthError
  else if String.eqb message "Invalid or expired reset token"
          || String.eqb message "Invalid reset token"
          || String.eqb message "Reset token has expired"
  then Some TokenError
  else None.

(** A failed result of kind [k]. *)
Definition fails_with {A} (k : ErrorKind) (r : Result A) : Prop :=
  success r = false /\ error_kind (message r) = Some k.

(** Case-insensitive comparison of emails. *)
Definition same_email (a b : string) : Prop :=
  Js.toLowerCase a = Js.toLowerCase b.

(** The validation rules of registration, in the words of the
    specification. *)

(** name: at least 2 characters after trimming *)
Definition name_rule (d : UserData.t) : Prop :=
  exists n, UserData.name d = Some n /\ (2 <= String.length (Js.trim n))%nat.

(** a non-empty run of characters with no white space and no [@] *)
Definition email_part (s : list ascii) : Prop :=
  s <> [] /\ Forall (fun c => Js.is_space c = false /\ c <> "@"%char) s.

(** email: the pattern [local@domain.tld] *)
Definition email_rule (d : UserData.t) : Prop :=
  exists e local domain tld,
    UserData.email d = Some e /\
    list_ascii_of_string e = local ++ "@"%char :: domain ++ "."%char :: tld /\
    email_part local /\ email_part domain /\ email_part tld.

Definition digits_of (s : string) : list ascii :=
  List.filter Js.is_digit (list_ascii_of_string s).

(** phone: once the characters that are no digits are stripped, exactly 10
    digits, the first of them 6 to 9 *)
Definition phone_rule (d : UserData.t) : Prop :=
  exists p first rest,
    UserData.phone d = Some p /\
    digits_of p = first :: rest /\
    List.length rest = 9%nat /\
    (first = "6" \/ first = "7" \/ first = "8" \/ first = "9")%char.

(** secret: at least 6 characters *)
Definition secret_rule (d : UserData.t) : Prop :=
  exists s, UserData.password d = Some s /\ (6 <= String.length s)%nat.

(** the confirmation equals the secret *)
Definition confirmation_rule (d : UserData.t) : Prop :=
  UserData.confirmPassword d = UserData.password d.

(** The session that [login] builds for an identity. *)
Definition session_of (u : User.t) (now : Z) : Session.t :=
  Session.mk (User.id u) (User.name u) (User.email u) now
             None None None None.

(** [logout()] up to the call of the page's [updateCartBadge]: the
    in-memory session cleared, the persisted session and the remember-me
    flag removed, the navigation as for a visitor. *)
Definition signed_out (w : World) : World :=
  mkWorld None (users w)
    (delete "rememberMe" (delete "currentUser" (localStorage w)))
    (alter (Element.set_display "none") ".user-menu"
       (alter (Element.set_display "none") ".auth-logout"
          (alter (Element.set_display "flex") ".auth-login" (dom w))))
    (trace w) (cart_script w) (auth w).

(** The page's [updateCartBadge] on a page without session: the
    per-identity script reads the anonymous cart there, as [cart.js]
    does. *)
Definition refresh_badge : M unit := fun w =>
  match cart_script w with
  | None => (Normal tt, w)
  | Some CartJsScript => CartJs.updateCartBadge w
  | Some SimpleCartScript => SimpleCart.updateCartBadge w
  | Some UserCartScript =>
      match auth w with
      | Uninitialized => (Thrown "ReferenceError", w)
      | _ => CartJs.updateCartBadge w
      end
  end.

(** How [logout()] ends, and the world it leaves: the [authStateChanged]
    event is sent when the page's [updateCartBadge] has returned. *)
Definition logout_outcome (w : World) : Outcome unit :=
  fst (refresh_badge (signed_out w)).

Definition logged_out (w : World) : World :=
  match refresh_badge (signed_out w) with
  | (Normal _, w') =>
      set_trace (trace w' ++ [DispatchAuthStateChanged false None]) w'
  | (Thrown _, w') => w'
  end.

(** How [validateSession()] ends on a session that has expired. *)
Definition expiry_outcome (w : World) : Outcome bool :=
  match logout_outcome w with
  | Normal _ => Normal false
  | Thrown e => Thrown e
  end.

(** An identity with its secret replaced. *)
Definition with_password (p : string) (u : User.t) : User.t :=
  User.mk (User.id u) (User.name u) (User.email u) (User.phone u) p
          (User.createdAt u) (User.profile u).

(** An identity with one more address, as [addUserAddress] stamps it. *)
Definition stamped (address : Address.t) (now : Z) : Address.t :=
  Address.mk (Some (Js.toString now)) (Some now) (Address.fields address).

Definition with_address (a : Address.t) (u : User.t) : User.t :=
  User.mk (User.id u) (User.name u) (User.email u) (User.phone u)
          (User.password u) (User.createdAt u)
          (Profile.mk
             (Some (default [] (Profile.addresses (User.profile u)) ++ [a]))
             (Profile.orders (User.profile u))
             (Profile.preferences (User.profile u))).

(** The cart that the per-identity script works on: the identity's own when
    a session is active, else the anonymous one. *)
Definition session_live (now : Z) (w : World) : bool :=
  match currentUser w with
  | Some s => negb (now - Session.loginTime s >? AuthManager.maxSessionAge)
  | None => false
  end.

(** The per-identity script takes the visitor for an identity: [auth] is
    there and the session is live. *)
Definition in_session (now : Z) (w : World) : bool :=
  match auth w with
  | Initialized => session_live now w
  | _ => false
  end.

Definition active_cart_key (now : Z) (w : World) : string :=
  match currentUser w with
  | Some s => if in_session now w then "cart_" +:+ Session.id s else "cart"
  | None => "cart"
  end.

(** The cart stored under a key: empty when the key is absent. *)
Definition cart_at (k : string) (w : World) : option (list CartLine.t) :=
  match localStorage w !! k with
  | None => Some []
  | Some it => as_cart it
  end.

(** The page's [updateCartBadge], which [logout] calls, returns: the page
    has loaded no cart script, or the anonymous cart is a stored cart and,
    for the per-identity script, [auth] is initialised or not declared. *)
Definition refresh_returns (w : World) : Prop :=
  match cart_script w with
  | None => True
  | Some script =>
      (exists cart, cart_at "cart" w = Some cart) /\
      (script = UserCartScript -> auth w <> Uninitialized)
  end.

(** A quantity that [quantity += 1] raises by 1: the integers from
    [- 2 ^ 53] to [2 ^ 53 - 1]. *)
Definition incrementable (q : Z) : Prop := - 2 ^ 53 <= q < 2 ^ 53.

Definition names (cart : list CartLine.t) : list string :=
  CartLine.name <$> cart.

(** [updateProfile] on the identity at index [i]: the updates are merged
    into the stored identity and the directory is persisted; they are merged
    into the session too, and the session persisted, when the session is
    that identity's. *)
Definition profile_updated (userId : string) (updates : Updates.t) (i : nat)
  (w : World) : World :=
  let us := alter (fun u => AuthManager.spread_user u updates) i (users w) in
  let w1 :=
    set_localStorage (<["users" := JUsers us]> (localStorage w))
                     (set_users us w) in
  match currentUser w with
  | Some s =>
      if bool_decide (Session.id s = userId)
      then
        let s' := AuthManager.spread_session s updates in
        set_localStorage (<["currentUser" := JSession s']> (localStorage w1))
                         (set_currentUser (Some s') w1)
      else w1
  | None => w1
  end.

(** [login] on a match: the session is installed and persisted, and the
    email as typed is remembered when the remember-me flag is set. *)
Definition logged_in (email : string) (s : Session.t) (w : World) : World :=
  let ls := <["currentUser" := JSession s]> (localStorage w) in
  set_localStorage
    (if is_text "true" (localStorage w !! "rememberMe")
     then <["rememberedUser" := Raw email]> ls else ls)
    (set_currentUser (Some s) w).

(** The token record removed. *)
Definition token_deleted (w : World) : World :=
  set_localStorage (delete "passwordResetToken" (localStorage w)) w.

(** The world once the per-identity cart script has asked
    [auth.isLoggedIn()]: a session that has expired is logged out. *)
Definition settle (now : Z) (w : World) : World :=
  match auth w, currentUser w with
  | Initialized, Some _ => if session_live now w then w else logged_out w
  | _, _ => w
  end.

(** The sum of the quantities of a cart, as an integer. *)
Definition quantities (cart : list CartLine.t) : Z :=
  foldr (fun item sum => CartLine.quantity item + sum) 0 cart.

(** The badge element once it shows a total. *)
Definition badge (total : Js.number) (e : Element.t) : Element.t :=
  Element.mk (Js.number_toString total)
             (if Js.positive total then "flex" else "none").

(** What [addToCart] leaves when it has stored [cart] under [k]: the badge
    shows the total of [cart], and the alert is the last effect. *)
Definition added (name : string) (k : string) (cart : list CartLine.t)
  (w : World) : World :=
  set_trace (trace w ++ [added_alert name])
    (set_dom (alter (badge (totalItems cart)) "#cart-count" (dom w))
       (set_localStorage (<[k := JCart cart]> (localStorage w)) w)).

(** What a call of a cart script may change of the memory and of the store:
    the session may end, and the two keys of the session, the anonymous
    cart and the cart of the session's identity may change. *)
Definition cart_frame (w w' : World) : Prop :=
  users w' = users w /\
  auth w' = auth w /\
  cart_script w' = cart_script w /\
  (currentUser w' = currentUser w \/ currentUser w' = None) /\
  forall k, k <> "cart" -> k <> "currentUser" -> k <> "rememberMe" ->
            (forall s, currentUser w = Some s ->
                       k <> "cart_" +:+ Session.id s) ->
            localStorage w' !! k = localStorage w !! k.

End Spec.

(** ** Concrete worlds and inputs *)

Module Examples.

(** A page that has loaded [auth.js] and no cart script. *)
Definition empty_world : World := mkWorld None [] ∅ ∅ [] None Initialized.

Definition alice_data : UserData.t :=
  UserData.mk (Some "Alice") (Some "alice@example.com") (Some "98765-43210")
              (Some "secret1") (Some "secret1").

Definition bob_data : UserData.t :=
  UserData.mk (Some "Bob") (Some "bob@example.com") (Some "9123456780")
              (Some "hunter22") (Some "hunter22").

Definition alice : User.t :=
  User.mk "1000" "Alice" "alice@example.com" "98765-43210" "secret1" 1000
          (Profile.mk (Some []) (Some []) []).

Definition bob : User.t :=
  User.mk "1000" "Bob" "bob@example.com" "9123456780" "hunter22" 1000
          (Profile.mk (Some []) (Some []) []).

(** Alice has registered at time 1000 (and is logged in). *)
Definition alice_world : World :=
  snd (AuthManager.register alice_data 1000 empty_world).

(** Bob has registered within the same millisecond. *)
Definition twins_world : World :=
  snd (AuthManager.register bob_data 1000 alice_world).

(** Alice registers again, her email in another case, and mistypes the
    confirmation. *)
Definition mismatch_data : UserData.t :=
  UserData.mk (Some "Alice") (Some "Alice@Example.COM") (Some "98765-43210")
              (Some "secret1") (Some "secret2").

(** The same, with the confirmation right. *)
Definition again_data : UserData.t :=
  UserData.mk (Some "Alice") (Some "Alice@Example.COM") (Some "98765-43210")
              (Some "secret1") (Some "secret1").

Definition no_name_data : UserData.t :=
  UserData.mk (Some " A ") (Some "nobody") None None None.
Definition bad_email_data : UserData.t :=
  UserData.mk (Some "Al") (Some "al@example") None None None.
Definition bad_phone_data : UserData.t :=
  UserData.mk (Some "Al") (Some "al@example.com") (Some "12345") None None.
Definition short_secret_data : UserData.t :=
  UserData.mk (Some "Al") (Some "al@example.com") (Some "98765-43210")
              (Some "abc") (Some "abd").

Definition home : Address.t := Address.mk None None [("city", "Pune")].

(** Alice has asked for a reset at time 2000. *)
Definition reset_world : World :=
  snd (AuthManager.requestPasswordReset "alice@example.com" 2000 "k3j9x0q1z"
         alice_world).

Definition reset_record : ResetData.t :=
  ResetData.mk "alice@example.com" "2000k3j9x0q1z" 902000 "1000".

Definition tea : CartLine.t := CartLine.mk "Tea" 10 "tea.png" 1.


(** Alice is logged in on a page of the per-identity cart script; no cart
    is stored. *)
Definition shop_world : World :=
  set_cart_script (Some UserCartScript) alice_world.

(** The same page while [auth.js] is loaded after the cart script: the
    constant [auth] is declared and not yet initialised. *)
Definition loading_world : World := set_auth Uninitialized shop_world.

(** A page of [cart.js] on which Alice is logged in, with text under the
    key [cart] that is no JSON. *)
Definition torn_world : World :=
  set_cart_script (Some CartJsScript)
    (set_localStorage (<["cart" := Raw "{oops"]> (localStorage alice_world))
                      alice_world).



(** The login page has set the remember-me flag; then Alice logs in,
    typing her email with capitals. *)
Definition flagged_world : World :=
  set_localStorage (<["rememberMe" := Raw "true"]> (localStorage alice_world))
                   alice_world.

Definition remembered_world : World :=
  snd (AuthManager.login "Alice@Example.com" "secret1" 8000 flagged_world).

End Examples.

(** ** Sequences of calls *)

Module Run.

(** What happens in one tab: a call of a public method of [auth], an
    event, or a reload of the page, where [auth.js] is loaded again, after
    the page's cart script. [StorageEvent] is the run of the handler; the
    write of the other tab, which the browser reports by the event, is no
    part of it. *)
Inductive Call : Type :=
| Register (userData : UserData.t)
| Login (email password : string)
| Logout
| IsLoggedIn
| UpdateUserProfile (userId : string) (updates : Updates.t)
| AddUserAddress (userId : string) (address : Address.t)
| AddUserOrder (userId : string) (order : Order)
| ChangePassword (userId oldPassword newPassword : string)
| RequestPasswordReset (email suffix : string)
| ResetPassword (token newPassword : string)
| ValidateResetToken (token : string)
| StorageEvent (key newValue : option string)
| VisibilityChange (visibilityState : string)
| Reload.

(** A call through the global [auth]: it throws while the constant is not
    initialised. *)
Definition on_auth {A} (m : M A) : M unit :=
  binding ← gets auth;
  match binding with
  | Initialized => m;; mret tt
  | _ => throw "ReferenceError"
  end.

(** An event: the handlers are registered once the constructor is through. *)
Definition on_event (handler : M unit) : M unit :=
  binding ← gets auth;
  match binding with
  | Initialized => handler
  | _ => mret tt
  end.

Definition call (c : Call) (now : Z) : M unit :=
  match c with
  | Register userData => on_auth (AuthManager.register userData now)
  | Login email password => on_auth (AuthManager.login email password now)
  | Logout => on_auth (AuthManager.logout now)
  | IsLoggedIn => on_auth (AuthManager.isLoggedIn now)
  | UpdateUserProfile userId updates =>
      on_auth (AuthManager.updateUserProfile userId updates)
  | AddUserAddress userId address =>
      on_auth (AuthManager.addUserAddress userId address now)
  | AddUserOrder userId order =>
      on_auth (AuthManager.addUserOrder userId order)
  | ChangePassword userId oldPassword newPassword =>
      on_auth (AuthManager.changePassword userId oldPassword newPassword)
  | RequestPasswordReset email suffix =>
      on_auth (AuthManager.requestPasswordReset email now suffix)
  | ResetPassword token newPassword =>
      on_auth (AuthManager.resetPassword token newPassword now)
  | ValidateResetToken token =>
      on_auth (AuthManager.validateResetToken token now)
  | StorageEvent key newValue =>
      on_event (AuthManager.onStorage key newValue now)
  | VisibilityChange visibilityState =>
      on_event (AuthManager.onVisibilityChange visibilityState now)
  | Reload => AuthManager.load now
  end.

(** The calls of a list, each at its clock value, one after the other. *)
Fixpoint run (calls : list (Call * Z)) (w : World) : World :=
  match calls with
  | [] => w
  | (c, now) :: calls => run calls (snd (call c now w))
  end.

(** A call that cannot change the email of an identity: every call but a
    profile update that names an email. *)
Definition keeps_emails (c : Call) : Prop :=
  match c with
  | UpdateUserProfile _ updates => Updates.email updates = None
  | _ => True
  end.

(** No two identities have the same email, letter case apart. *)
Definition emails (us : list User.t) : list string :=
  (fun u => Js.toLowerCase (User.email u)) <$> us.

Definition unique_emails (w : World) : Prop := NoDup (emails (users w)).

(** The directory that [localStorage] holds. *)
Definition stored_users (w : World) : option (list User.t) :=
  match localStorage w !! "users" with
  | None => Some []
  | Some (JUsers us) => Some us
  | Some _ => None
  end.

(** [localStorage] mirrors the memory of [auth]: the directory and the
    session it holds are the ones in memory. *)
Definition mirrored (w : World) : Prop :=
  stored_users w = Some (users w) /\
  localStorage w !! "currentUser" = JSession <$> currentUser w.

(** The identity that [register] creates. *)
Definition new_user (userData : UserData.t) (now : Z) : User.t :=
  User.mk (Js.toString now)
          (Js.trim (AuthManager.member (UserData.name userData)))
          (Js.toLowerCase (AuthManager.member (UserData.email userData)))
          (Js.trim (AuthManager.member (UserData.phone userData)))
          (AuthManager.member (UserData.password userData))
          now
          (Profile.mk (Some []) (Some []) []).

(** An identity with one more order, as [addUserOrder] appends it. *)
Definition with_order (order : Order) (u : User.t) : User.t :=
  User.mk (User.id u) (User.name u) (User.email u) (User.phone u)
          (User.password u) (User.createdAt u)
          (Profile.mk
             (Profile.addresses (User.profile u))
             (Some (match Profile.orders (User.profile u) with
                    | Some orders => orders
                    | None => []
                    end ++ [order]))
             (Profile.preferences (User.profile u))).

End Run.

Module MoreExamples.

Definition carol_data : UserData.t :=
  UserData.mk (Some " Carol ") (Some "Carol@Example.Org")
              (Some "70000 00001") (Some "carolpw1") (Some "carolpw1").

Definition order17 : Order := [("total", "17")].

(** Alice's session key removed by another tab. *)
Definition stale_world : World :=
  set_localStorage (delete "currentUser" (localStorage Examples.alice_world))
                   Examples.alice_world.

Definition badge_world : World :=
  mkWorld None []
    {["cart" := JCart [CartLine.mk "Tea" 10 "tea.png" 2;
                       CartLine.mk "Mug" 25 "mug.png" 3]]}
    {["#cart-count" := Element.mk "0" "none"]} [] (Some CartJsScript)
    Undeclared.

(** Alice is logged in, on a page of the per-identity script, and has a
    cart of her own; the anonymous cart holds a mug. *)
Definition carts_world : World :=
  set_cart_script (Some UserCartScript)
    (set_localStorage
       (<["cart" := JCart [CartLine.mk "Mug" 25 "mug.png" 1]]>
          (<["cart_1000" := JCart [Examples.tea]]>
             (localStorage Examples.alice_world)))
       Examples.alice_world).

(** A day in the life of the directory. *)
Definition story : list (Run.Call * Z) :=
  [(Run.Register Examples.alice_data, 1000);
   (Run.Register Examples.again_data, 1500);
   (Run.Register carol_data, 2000);
   (Run.AddUserAddress "1000" Examples.home, 2500);
   (Run.ChangePassword "2000" "carolpw1" "carolpw2", 3000);
   (Run.Logout, 3500);
   (Run.Login "ALICE@example.com" "secret1", 4000);
   (Run.RequestPasswordReset "carol@example.org" "k3j9x0q1z", 4500);
   (Run.Reload, 5000)].

(** The token record overwritten with text that is no JSON. *)
Definition garbled_world : World :=
  set_localStorage
    (<["passwordResetToken" := Raw "{oops"]> (localStorage Examples.reset_world))
    Examples.reset_world.

End MoreExamples.

(** * Properties *)

(** ** The matcher decides the language *)

Module RegexFacts.

Import Regex.

Lemma lang_seq_inv r1 r2 s :
  lang (Seq r1 r2) s <-> exists s1 s2, s = s1 ++ s2 /\ lang r1 s1 /\ lang r2 s2.
Proof.
  split.
  - inversion 1; subst. eauto.
  - intros (s1 & s2 & -> & H1 & H2). by constructor.
Qed.

Lemma lang_alt_inv r1 r2 s : lang (Alt r1 r2) s <-> lang r1 s \/ lang r2 s.
Proof.
  split.
  - inversion 1; subst; auto.
  - intros [H|H]; [by apply lang_alt_l | by apply lang_alt_r].
Qed.

Lemma lang_class_inv p s :
  lang (Class p) s <-> exists c, s = [c] /\ p c = true.
Proof.
  split.
  - inversion 1; subst. eauto.
  - intros (c & -> & Hc). by constructor.
Qed.

Lemma lang_eps_inv s : lang Eps s <-> s = [].
Proof.
  split.
  - by inversion 1.
  - intros ->. constructor.
Qed.

Lemma lang_void_inv s : lang Void s <-> False.
Proof. split; [inversion 1 | done]. Qed.

Lemma nullable_lang r : nullable r = true <-> lang r [].
Proof.
  induction r as [| |p|r1 IH1 r2 IH2|r1 IH1 r2 IH2|r IH]; simpl.
  - rewrite lang_void_inv. split; [discriminate | done].
  - by rewrite lang_eps_inv.
  - rewrite lang_class_inv. split; [discriminate | by intros (c & ? & _)].
  - rewrite andb_true_iff, IH1, IH2, lang_seq_inv. split.
    + intros [H1 H2]. by exists [], [].
    + intros (s1 & s2 & E & H1 & H2). symmetry in E.
      apply app_eq_nil in E as [-> ->]. by split.
  - by rewrite orb_true_iff, IH1, IH2, lang_alt_inv.
  - split; [constructor | reflexivity].
Qed.

Lemma lang_star_cons r c s :
  lang (Star r) (c :: s) ->
  exists s1 s2, s = s1 ++ s2 /\ lang r (c :: s1) /\ lang (Star r) s2.
Proof.
  intros H. remember (Star r) as r' eqn:Er. remember (c :: s) as w eqn:Ew.
  revert Er Ew.
  induction H as [| | | | | |r0 s1 s2 H1 _ H2 IH2]; try discriminate.
  intros Er Ew. injection Er as ->.
  destruct s1 as [|c1 s1]; simpl in Ew.
  - by apply IH2.
  - injection Ew as -> <-. by exists s1, s2.
Qed.

Lemma lang_seq_cons r1 r2 c s :
  lang (Seq r1 r2) (c :: s) <->
  (exists s1 s2, s = s1 ++ s2 /\ lang r1 (c :: s1) /\ lang r2 s2) \/
  (lang r1 [] /\ lang r2 (c :: s)).
Proof.
  rewrite lang_seq_inv. split.
  - intros (s1 & s2 & E & H1 & H2). destruct s1 as [|c1 s1]; simpl in E.
    + right. subst. by split.
    + injection E as <- ->. left. by exists s1, s2.
  - intros [(s1 & s2 & -> & H1 & H2)|[H1 H2]].
    + by exists (c :: s1), s2.
    + by exists [], (c :: s).
Qed.

Lemma deriv_lang r : forall c s, lang (deriv c r) s <-> lang r (c :: s).
Proof.
  induction r as [| |p|r1 IH1 r2 IH2|r1 IH1 r2 IH2|r IH]; intros c s; simpl.
  - by rewrite !lang_void_inv.
  - rewrite lang_void_inv, lang_eps_inv. split; [done | discriminate].
  - rewrite lang_class_inv. destruct (p c) eqn:Hp.
    + rewrite lang_eps_inv. split.
      * intros ->. by exists c.
      * by intros (c' & [= _ ->] & _).
    + rewrite lang_void_inv. split; [done |].
      intros (c' & [= <- _] & Hc). congruence.
  - rewrite lang_seq_cons.
    assert (Hd : lang (Seq (deriv c r1) r2) s <->
                 exists s1 s2, s = s1 ++ s2 /\ lang r1 (c :: s1) /\ lang r2 s2).
    { rewrite lang_seq_inv. split; intros (s1 & s2 & ? & H1 & H2);
        exists s1, s2; (split; [done|]); (split; [by apply IH1 | done]). }
    destruct (nullable r1) eqn:Hn.
    + rewrite lang_alt_inv, Hd, IH2.
      apply nullable_lang in Hn. tauto.
    + rewrite Hd. split; [tauto |]. intros [H|[H _]]; [done |].
      apply nullable_lang in H. congruence.
  - by rewrite !lang_alt_inv, IH1, IH2.
  - rewrite lang_seq_inv. split.
    + intros (s1 & s2 & -> & H1 & H2). apply IH in H1.
      change (c :: s1 ++ s2) with ((c :: s1) ++ s2). by constructor.
    + intros (s1 & s2 & -> & H1 & H2)%lang_star_cons.
      exists s1, s2. split; [done|]. split; [by apply IH | done].
Qed.

Theorem matches_lang r s : matches r s = true <-> lang r s.
Proof.
  revert r. induction s as [|c s IH]; intros r; simpl.
  - apply nullable_lang.
  - rewrite IH. apply deriv_lang.
Qed.

(** What the shapes used by the program accept. *)

Lemma lang_star_class p s :
  lang (Star (Class p)) s <-> Forall (fun c => p c = true) s.
Proof.
  split.
  - intros H. remember (Star (Class p)) as r eqn:Er. revert Er.
    induction H as [| | | | | |r0 s1 s2 H1 _ H2 IH2]; try discriminate.
    + constructor.
    + intros Er. injection Er as ->. apply Forall_app. split; [|by apply IH2].
      apply lang_class_inv in H1 as (c & -> & Hc). by constructor.
  - induction 1 as [|c s Hc _ IH]; [constructor|].
    change (c :: s) with ([c] ++ s). constructor; [by constructor | done].
Qed.

Lemma lang_plus_class p s :
  lang (Plus (Class p)) s <-> s <> [] /\ Forall (fun c => p c = true) s.
Proof.
  unfold Plus. rewrite lang_seq_inv. split.
  - intros (s1 & s2 & -> & (c & -> & Hc)%lang_class_inv & H2%lang_star_class).
    split; [done | by constructor].
  - intros [Hne Hall]. destruct s as [|c s]; [done|].
    inversion Hall; subst. exists [c], s. split; [done|].
    split; [by constructor | by apply lang_star_class].
Qed.

Lemma lang_repeat_class p n s :
  lang (Repeat n (Class p)) s <->
  length s = n /\ Forall (fun c => p c = true) s.
Proof.
  revert s. induction n as [|n IH]; intros s; simpl.
  - rewrite lang_eps_inv. split.
    + intros ->. by split.
    + intros [Hl _]. by destruct s.
  - rewrite lang_seq_inv. split.
    + intros (s1 & s2 & -> & (c & -> & Hc)%lang_class_inv & H2).
      apply IH in H2 as [<- Hall]. split; [done | by constructor].
    + intros [Hl Hall]. destruct s as [|c s]; [discriminate|].
      inversion Hall; subst. injection Hl as Hl.
      exists [c], s. split; [done|].
      split; [by constructor | by apply IH].
Qed.

End RegexFacts.

(** ** The validation rules of [register] *)

Module ValidationFacts.

Import Regex RegexFacts AuthManager Spec.

Lemma not_space_at_true c :
  not_space_at c = true <-> Js.is_space c = false /\ c <> "@"%char.
Proof.
  unfold not_space_at, is_char.
  rewrite andb_true_iff, !negb_true_iff, bool_decide_eq_false. tauto.
Qed.

Lemma lang_email_part s :
  lang (Plus (Class not_space_at)) s <-> email_part s.
Proof.
  rewrite lang_plus_class. unfold email_part.
  split; intros [Hne Hall]; (split; [done|]);
    (eapply Forall_impl; [exact Hall|]); intros c; apply not_space_at_true.
Qed.

Lemma lang_is_char a s : lang (Class (is_char a)) s <-> s = [a].
Proof.
  rewrite lang_class_inv. unfold is_char. split.
  - intros (c & -> & Hc%bool_decide_eq_true). by subst.
  - intros ->. exists a. split; [done|]. by apply bool_decide_eq_true.
Qed.

Lemma isValidEmail_pattern e :
  isValidEmail e = true <->
  exists local domain tld,
    list_ascii_of_string e = local ++ "@"%char :: domain ++ "."%char :: tld /\
    email_part local /\ email_part domain /\ email_part tld.
Proof.
  unfold isValidEmail, test, emailRegex. rewrite matches_lang. split.
  - intros (l & r1 & -> & Hl%lang_email_part & H1)%lang_seq_inv.
    apply lang_seq_inv in H1 as (a & r2 & -> & ->%lang_is_char & H2).
    apply lang_seq_inv in H2 as (d & r3 & -> & Hd%lang_email_part & H3).
    apply lang_seq_inv in H3 as (b & t & -> & ->%lang_is_char & Ht%lang_email_part).
    by exists l, d, t.
  - intros (l & d & t & -> & Hl & Hd & Ht).
    apply lang_seq_inv. exists l, ("@"%char :: d ++ "."%char :: t).
    split; [done|]. split; [by apply lang_email_part|].
    apply lang_seq_inv. exists ["@"%char], (d ++ "."%char :: t).
    split; [done|]. split; [by apply lang_is_char|].
    apply lang_seq_inv. exists d, ("."%char :: t).
    split; [done|]. split; [by apply lang_email_part|].
    apply lang_seq_inv. exists ["."%char], t.
    split; [done|]. split; [by apply lang_is_char | by apply lang_email_part].
Qed.

Lemma six_to_nine_true c :
  six_to_nine c = true <-> (c = "6" \/ c = "7" \/ c = "8" \/ c = "9")%char.
Proof.
  split.
  - destruct c as [[] [] [] [] [] [] [] []]; vm_compute; intros H;
      first [discriminate H | tauto].
  - intros [->|[->|[->| ->]]]; reflexivity.
Qed.

Lemma stripped_digits p :
  list_ascii_of_string (Js.remove_all (fun c => negb (Js.is_digit c)) p)
  = digits_of p.
Proof.
  unfold Js.remove_all, digits_of.
  rewrite list_ascii_of_string_of_list_ascii.
  induction (list_ascii_of_string p) as [|c l IH]; [done|].
  simpl. rewrite negb_involutive, IH. done.
Qed.

Lemma digits_of_all_digits p :
  Forall (fun c => Js.is_digit c = true) (digits_of p).
Proof.
  unfold digits_of. apply List.Forall_forall.
  intros c Hc. by apply List.filter_In in Hc as [_ Hc].
Qed.

Lemma isValidPhone_pattern p :
  isValidPhone p = true <->
  exists first rest,
    digits_of p = first :: rest /\ List.length rest = 9%nat /\
    (first = "6" \/ first = "7" \/ first = "8" \/ first = "9")%char.
Proof.
  unfold isValidPhone, test, phoneRegex.
  rewrite matches_lang, stripped_digits, lang_seq_inv. split.
  - intros (s1 & s2 & E & (c & -> & Hc)%lang_class_inv & [Hl _]%lang_repeat_class).
    exists c, s2. by rewrite <- six_to_nine_true.
  - intros (c & rest & E & Hl & Hc). exists [c], rest.
    split; [done|]. split.
    + apply lang_class_inv. exists c. by rewrite six_to_nine_true.
    + apply lang_repeat_class. split; [done|].
      pose proof (digits_of_all_digits p) as Hall. rewrite E in Hall.
      by inversion Hall.
Qed.

End ValidationFacts.

(** ** [register]: the order of the validation rules *)

Module RegisterFacts.

Import AuthManager Spec ValidationFacts.

Lemma name_check d :
  falsy (UserData.name d)
  || (Js.length (Js.trim (member (UserData.name d))) <? 2)%nat = false
  <-> name_rule d.
Proof.
  unfold name_rule, Js.length. destruct (UserData.name d) as [n|]; simpl.
  - rewrite orb_false_iff, bool_decide_eq_false, Nat.ltb_ge. split.
    + intros [_ H]. by exists n.
    + intros (n' & [= <-] & H). split; [|done].
      intros ->. vm_compute in H. lia.
  - split; [discriminate | by intros (n & ? & _)].
Qed.

Lemma email_check d :
  falsy (UserData.email d)
  || negb (isValidEmail (member (UserData.email d))) = false
  <-> email_rule d.
Proof.
  unfold email_rule. destruct (UserData.email d) as [e|]; simpl.
  - rewrite orb_false_iff, bool_decide_eq_false, negb_false_iff,
      isValidEmail_pattern. split.
    + intros [_ (l & dm & t & H)]. by exists e, l, dm, t.
    + intros (e' & l & dm & t & [= <-] & E & H). split; [|by exists l, dm, t].
      intros ->. by destruct l.
  - split; [discriminate | by intros (e & ? & ? & ? & ? & _)].
Qed.

Lemma phone_check d :
  falsy (UserData.phone d)
  || negb (isValidPhone (member (UserData.phone d))) = false
  <-> phone_rule d.
Proof.
  unfold phone_rule. destruct (UserData.phone d) as [p|]; simpl.
  - rewrite orb_false_iff, bool_decide_eq_false, negb_false_iff,
      isValidPhone_pattern. split.
    + intros [_ (c & r & H)]. by exists p, c, r.
    + intros (p' & c & r & [= <-] & E & H). split; [|by exists c, r].
      intros ->. discriminate E.
  - split; [discriminate | by intros (p & ? & ? & ? & _)].
Qed.

Lemma secret_check d :
  falsy (UserData.password d)
  || (Js.length (member (UserData.password d)) <? 6)%nat = false
  <-> secret_rule d.
Proof.
  unfold secret_rule, Js.length. destruct (UserData.password d) as [s|]; simpl.
  - rewrite orb_false_iff, bool_decide_eq_false, Nat.ltb_ge. split.
    + intros [_ H]. by exists s.
    + intros (s' & [= <-] & H). split; [|done].
      intros ->. simpl in H. lia.
  - split; [discriminate | by intros (s & ? & _)].
Qed.

Lemma confirmation_check d :
  negb (bool_decide (UserData.password d = UserData.confirmPassword d)) = false
  <-> confirmation_rule d.
Proof.
  unfold confirmation_rule.
  rewrite negb_false_iff, bool_decide_eq_true. split; congruence.
Qed.

(** What [validateRegistrationData] answers, rule by rule. *)
Lemma validate_cases d :
  (~ name_rule d ->
   validateRegistrationData d
   = invalid "Name must be at least 2 characters long") /\
  (name_rule d -> ~ email_rule d ->
   validateRegistrationData d = invalid "Please enter a valid email address") /\
  (name_rule d -> email_rule d -> ~ phone_rule d ->
   validateRegistrationData d = invalid "Please enter a valid phone number") /\
  (name_rule d -> email_rule d -> phone_rule d -> ~ secret_rule d ->
   validateRegistrationData d
   = invalid "Password must be at least 6 characters long") /\
  (name_rule d -> email_rule d -> phone_rule d -> secret_rule d ->
   ~ confirmation_rule d ->
   validateRegistrationData d = invalid "Passwords do not match") /\
  (name_rule d -> email_rule d -> phone_rule d -> secret_rule d ->
   confirmation_rule d ->
   validateRegistrationData d = mkValidation true None None).
Proof.
  unfold validateRegistrationData.
  rewrite <- name_check, <- email_check, <- phone_check, <- secret_check,
    <- confirmation_check.
  repeat match goal with
         | |- context [if ?b then _ else _] =>
             lazymatch b with
             | context [if _ then _ else _] => fail
             | _ => destruct b
             end
         end; repeat split; intros; congruence.
Qed.

Lemma register_rejects d now w msg :
  validateRegistrationData d = invalid msg ->
  register d now w = (Normal (failure msg), w).
Proof. unfold register. intros ->. reflexivity. Qed.

End RegisterFacts.

(** ** Running the methods *)

Module AuthFacts.

Import AuthManager Spec.

Ltac run :=
  cbv [isLoggedIn_with validateSession_with logout_with updateUI_with
       updateNavigation getCurrentUser getUserProfile
       mbind M_bind mret M_ret gets modify emit setItem removeItem getItem
       throw try_catch JSON_parse saveUsers];
  cbn [currentUser users localStorage dom trace cart_script auth
       set_currentUser set_users set_localStorage set_dom set_trace
       set_cart_script set_auth fst snd].

Section Find.
Context {A : Type} (P : A -> Prop) `{forall x, Decision (P x)}.

Lemma find_Some l x : find P l = Some x -> x ∈ l /\ P x.
Proof.
  unfold find. destruct (list_find P l) as [[i y]|] eqn:E; [|discriminate].
  intros [= <-]. apply list_find_Some in E as (Hi & HP & _).
  split; [by eapply list_elem_of_lookup_2 | done].
Qed.

Lemma find_None l : find P l = None <-> forall x, x ∈ l -> ~ P x.
Proof.
  unfold find. rewrite fmap_None, list_find_None, Forall_forall. done.
Qed.

Lemma find_elem_of l x : x ∈ l -> P x -> exists y, find P l = Some y /\ P y.
Proof.
  intros Hx HP. destruct (find P l) as [y|] eqn:E.
  - exists y. split; [done|]. by apply find_Some in E as [_ ?].
  - rewrite find_None in E. by destruct (E x Hx).
Qed.

Lemma list_find_find l i x :
  list_find P l = Some (i, x) -> find P l = Some x /\ findIndex P l = Some i.
Proof. unfold find, findIndex. by intros ->. Qed.

Lemma find_list_find l x :
  find P l = Some x -> exists i, list_find P l = Some (i, x).
Proof.
  unfold find. destruct (list_find P l) as [[i y]|]; [|discriminate].
  intros [= <-]. by exists i.
Qed.

End Find.

(** Reading a cart *)

Lemma JSON_parse_cart k w :
  (c ← JSON_parse as_cart k; mret (default [] c)) w
  = match cart_at k w with
    | Some cart => (Normal cart, w)
    | None => (Thrown "SyntaxError", w)
    end.
Proof.
  unfold cart_at. run.
  destruct (localStorage w !! k) as [it|]; [|reflexivity].
  by destruct (as_cart it).
Qed.

Lemma world_eta w : set_dom (dom w) w = w.
Proof. by destruct w. Qed.

(** The badge of [cart.js] *)

Lemma CartJs_updateCartBadge_run w :
  CartJs.updateCartBadge w
  = match cart_at "cart" w with
    | Some cart =>
        (Normal tt,
         set_dom (alter (badge (totalItems cart)) "#cart-count" (dom w)) w)
    | None => (Thrown "SyntaxError", w)
    end.
Proof.
  unfold CartJs.updateCartBadge, cart_at, show_badge. run.
  destruct (localStorage w !! "cart") as [it|]; [|reflexivity].
  by destruct (as_cart it).
Qed.

Lemma SimpleCart_updateCartBadge_run w :
  SimpleCart.updateCartBadge w
  = match cart_at "cart" w with
    | Some cart =>
        (Normal tt,
         set_dom (alter (Element.set_innerText
                           (Js.toString (Z.of_nat (length cart))))
                        "#cart-count" (dom w)) w)
    | None => (Thrown "SyntaxError", w)
    end.
Proof.
  unfold SimpleCart.updateCartBadge, cart_at. run.
  destruct (localStorage w !! "cart") as [it|]; [|reflexivity].
  by destruct (as_cart it).
Qed.

(** The page's [updateCartBadge] changes the badge element and nothing
    else. *)
Lemma refresh_badge_frame w :
  snd (refresh_badge w) = set_dom (dom (snd (refresh_badge w))) w /\
  forall sel, sel <> "#cart-count" ->
              dom (snd (refresh_badge w)) !! sel = dom w !! sel.
Proof.
  assert (forall f : Element.t -> Element.t,
            set_dom (alter f "#cart-count" (dom w)) w
            = set_dom (dom (set_dom (alter f "#cart-count" (dom w)) w)) w /\
            forall sel, sel <> "#cart-count" ->
              dom (set_dom (alter f "#cart-count" (dom w)) w) !! sel
              = dom w !! sel) as Hset.
  { intros f. split; [done|]. intros sel Hsel. cbn.
    by rewrite lookup_alter_ne. }
  assert (w = set_dom (dom w) w /\
          forall sel, sel <> "#cart-count" -> dom w !! sel = dom w !! sel)
    as Hsame by (by rewrite world_eta).
  unfold refresh_badge.
  destruct (cart_script w) as [[]|]; [| | |exact Hsame].
  - rewrite CartJs_updateCartBadge_run.
    destruct (cart_at "cart" w); [apply Hset | exact Hsame].
  - destruct (auth w); [|exact Hsame|];
      rewrite CartJs_updateCartBadge_run;
      (destruct (cart_at "cart" w); [apply Hset | exact Hsame]).
  - rewrite SimpleCart_updateCartBadge_run.
    destruct (cart_at "cart" w); [apply Hset | exact Hsame].
Qed.

Lemma refresh_badge_dom w :
  exists f,
    snd (refresh_badge w) = set_dom (alter f "#cart-count" (dom w)) w.
Proof.
  assert (exists f, w = set_dom (alter f "#cart-count" (dom w)) w) as Hsame.
  { exists id. by rewrite alter_id, world_eta. }
  unfold refresh_badge.
  destruct (cart_script w) as [[]|]; [| | |exact Hsame].
  - rewrite CartJs_updateCartBadge_run.
    destruct (cart_at "cart" w); [by eexists | exact Hsame].
  - destruct (auth w); [|exact Hsame|];
      rewrite CartJs_updateCartBadge_run;
      (destruct (cart_at "cart" w); [by eexists | exact Hsame]).
  - rewrite SimpleCart_updateCartBadge_run.
    destruct (cart_at "cart" w); [by eexists | exact Hsame].
Qed.

Lemma refresh_badge_returns w :
  refresh_returns w -> fst (refresh_badge w) = Normal tt.
Proof.
  unfold refresh_returns, refresh_badge.
  destruct (cart_script w) as [[]|]; [| | |done]; intros [[cart Hc] Ha].
  - by rewrite CartJs_updateCartBadge_run, Hc.
  - destruct (auth w); [|by destruct Ha|];
      by rewrite CartJs_updateCartBadge_run, Hc.
  - by rewrite SimpleCart_updateCartBadge_run, Hc.
Qed.

(** What [logout] leaves *)

Lemma cart_at_signed_out k w :
  k <> "currentUser" -> k <> "rememberMe" ->
  cart_at k (signed_out w) = cart_at k w.
Proof.
  intros H1 H2. unfold cart_at. cbn [signed_out localStorage].
  by rewrite !lookup_delete_ne.
Qed.

Lemma logged_out_frame w :
  currentUser (logged_out w) = None /\
  users (logged_out w) = users w /\
  localStorage (logged_out w)
  = delete "rememberMe" (delete "currentUser" (localStorage w)) /\
  cart_script (logged_out w) = cart_script w /\
  auth (logged_out w) = auth w.
Proof.
  unfold logged_out.
  destruct (refresh_badge_frame (signed_out w)) as [E _].
  destruct (refresh_badge (signed_out w)) as [[[]|e] w']; cbn [snd] in E;
    rewrite E; done.
Qed.

Lemma dom_logged_out w :
  exists f,
    dom (logged_out w)
    = alter f "#cart-count"
        (alter (Element.set_display "none") ".user-menu"
           (alter (Element.set_display "none") ".auth-logout"
              (alter (Element.set_display "flex") ".auth-login" (dom w)))).
Proof.
  unfold logged_out.
  destruct (refresh_badge_dom (signed_out w)) as [f E].
  exists f.
  destruct (refresh_badge (signed_out w)) as [[[]|e] w']; cbn [snd] in E;
    by rewrite E.
Qed.

Lemma trace_logged_out w :
  trace (logged_out w)
  = trace w ++ match logout_outcome w with
               | Normal _ => [DispatchAuthStateChanged false None]
               | Thrown _ => []
               end.
Proof.
  unfold logged_out, logout_outcome.
  destruct (refresh_badge_frame (signed_out w)) as [E _].
  destruct (refresh_badge (signed_out w)) as [[[]|e] w']; cbn [snd fst] in *;
    rewrite E; cbn; [done|]. by rewrite app_nil_r.
Qed.

Lemma currentUser_logged_out w : currentUser (logged_out w) = None.
Proof. apply logged_out_frame. Qed.

Lemma users_logged_out w : users (logged_out w) = users w.
Proof. apply logged_out_frame. Qed.

Lemma localStorage_logged_out w :
  localStorage (logged_out w)
  = delete "rememberMe" (delete "currentUser" (localStorage w)).
Proof. apply logged_out_frame. Qed.

Lemma logout_outcome_returns w :
  refresh_returns w -> logout_outcome w = Normal tt.
Proof.
  intros H. apply refresh_badge_returns. unfold refresh_returns in *.
  cbn [signed_out cart_script auth].
  destruct (cart_script w); [|done].
  by rewrite cart_at_signed_out.
Qed.

Lemma logout_outcome_uninitialized w :
  cart_script w = Some UserCartScript -> auth w = Uninitialized ->
  logout_outcome w = Thrown "ReferenceError".
Proof.
  intros Hs Ha. unfold logout_outcome, refresh_badge.
  cbn [signed_out cart_script auth]. by rewrite Hs, Ha.
Qed.

(** The cycle of [isLoggedIn] *)

Lemma isLoggedIn_depth_none d now w :
  currentUser w = None -> isLoggedIn_depth (S d) now w = (Normal false, w).
Proof. intros E. cbn [isLoggedIn_depth]. run. by rewrite E. Qed.

(** On a page without session the page's [updateCartBadge] is
    [refresh_badge], whichever script it comes from. *)
Lemma page_updateCartBadge_none (f : Z -> M bool) now w :
  f now w = (Normal false, w) ->
  page_updateCartBadge f now w = refresh_badge w.
Proof.
  intros Hf. unfold page_updateCartBadge, refresh_badge. run.
  destruct (cart_script w) as [[]|]; [done| |done|done].
  unfold UserCartWith.updateCartBadge, UserCartWith.getUserCart,
    UserCartWith.auth_isLoggedIn, CartJs.updateCartBadge.
  run. destruct (auth w); [|done|rewrite Hf];
    (destruct (localStorage w !! "cart") as [it|]; [|reflexivity];
     by destruct (as_cart it)).
Qed.

Lemma logout_with_run (f : Z -> M bool) now w :
  (forall n w', currentUser w' = None -> f n w' = (Normal false, w')) ->
  logout_with f now w = (logout_outcome w, logged_out w).
Proof.
  intros Hf. unfold logout_with, updateUI_with, logout_outcome, logged_out.
  unfold mbind at 1 2 3 4 5 6, M_bind at 1 2 3 4 5 6.
  unfold modify at 1, removeItem, modify.
  cbn [localStorage set_currentUser set_localStorage users dom trace
       cart_script auth currentUser].
  rewrite Hf by done. unfold updateNavigation, modify.
  cbn [localStorage set_currentUser set_localStorage set_dom users dom trace
       cart_script auth currentUser].
  rewrite page_updateCartBadge_none by (by apply Hf).
  match goal with
  | |- context [refresh_badge ?x] => change x with (signed_out w)
  end.
  destruct (refresh_badge_frame (signed_out w)) as [E _].
  destruct (refresh_badge (signed_out w)) as [[[]|e] w']; cbn [snd fst] in *;
    [|done].
  unfold mbind, M_bind, gets, emit, modify. rewrite E. done.
Qed.

Lemma logout_run now w : logout now w = (logout_outcome w, logged_out w).
Proof.
  apply logout_with_run. intros n w' E. by apply isLoggedIn_depth_none.
Qed.

Lemma isLoggedIn_with_run (f : Z -> M bool) now w :
  (forall n w', currentUser w' = None -> f n w' = (Normal false, w')) ->
  isLoggedIn_with f now w =
  if session_live now w then (Normal true, w)
  else match currentUser w with
       | Some _ => (expiry_outcome w, logged_out w)
       | None => (Normal false, w)
       end.
Proof.
  intros Hf. unfold session_live, expiry_outcome.
  cbv [isLoggedIn_with validateSession_with mbind M_bind gets mret M_ret].
  destruct (currentUser w) as [s|] eqn:E; [|reflexivity].
  rewrite E. destruct (_ >? _); [|reflexivity].
  rewrite logout_with_run by done. cbn [negb].
  by destruct (logout_outcome w) as [[]|].
Qed.

Lemma isLoggedIn_with_ext (f g : Z -> M bool) now w :
  (forall n w', currentUser w' = None -> f n w' = (Normal false, w')) ->
  (forall n w', currentUser w' = None -> g n w' = (Normal false, w')) ->
  isLoggedIn_with f now w = isLoggedIn_with g now w.
Proof. intros Hf Hg. by rewrite !isLoggedIn_with_run. Qed.

(** The cycle is closed: the source's equation holds. *)
Lemma isLoggedIn_unfold now w :
  isLoggedIn now w = isLoggedIn_with isLoggedIn now w.
Proof.
  change (isLoggedIn now w) with (isLoggedIn_with (isLoggedIn_depth 1) now w).
  apply isLoggedIn_with_ext; intros n w' E; by apply isLoggedIn_depth_none.
Qed.

Lemma validateSession_run now w :
  validateSession now w =
  match currentUser w with
  | None => (Normal false, w)
  | Some s =>
      if now - Session.loginTime s >? maxSessionAge
      then (expiry_outcome w, logged_out w)
      else (Normal true, w)
  end.
Proof.
  unfold validateSession, validateSession_with.
  fold (logout now). unfold mbind at 1, M_bind at 1, gets at 1.
  destruct (currentUser w) as [s|]; [|reflexivity].
  destruct (_ >? _); [|reflexivity].
  unfold mbind, M_bind. rewrite logout_run. unfold expiry_outcome.
  by destruct (logout_outcome w) as [[]|].
Qed.

Lemma isLoggedIn_run now w :
  isLoggedIn now w =
  if session_live now w then (Normal true, w)
  else match currentUser w with
       | Some _ => (expiry_outcome w, logged_out w)
       | None => (Normal false, w)
       end.
Proof.
  rewrite isLoggedIn_unfold. apply isLoggedIn_with_run.
  intros n w' E. by apply isLoggedIn_depth_none.
Qed.

Lemma isLoggedIn_live now w :
  session_live now w = true -> isLoggedIn now w = (Normal true, w).
Proof. intros E. by rewrite isLoggedIn_run, E. Qed.

Lemma isLoggedIn_none now w :
  currentUser w = None -> isLoggedIn now w = (Normal false, w).
Proof. apply isLoggedIn_depth_none. Qed.

Lemma alter_at_lookup {A} (f : A -> A) (l : list A) i x :
  l !! i = Some x -> alter f i l = <[i := f x]> l.
Proof.
  revert i. induction l as [|y l IH]; intros [|i] Hi; simpl in *;
    [done | done | by injection Hi as -> |].
  f_equal. by apply IH.
Qed.

Lemma updateUserProfile_found userId updates w i u :
  list_find (fun user => User.id user = userId) (users w) = Some (i, u) ->
  updateUserProfile userId updates w
  = (Normal (ok "Profile updated successfully" None),
     profile_updated userId updates i w).
Proof.
  intros E. unfold updateUserProfile, profile_updated. run.
  unfold findIndex. rewrite E. cbn [fmap option_fmap option_map fst].
  destruct (currentUser w) as [s|]; [|reflexivity].
  destruct (bool_decide _); reflexivity.
Qed.

Lemma updateUserProfile_missing userId updates w :
  list_find (fun user => User.id user = userId) (users w) = None ->
  updateUserProfile userId updates w = (Normal (failure "User not found"), w).
Proof.
  intros E. unfold updateUserProfile. run. unfold findIndex. by rewrite E.
Qed.

Lemma login_match email password now w u :
  find (fun u => Js.toLowerCase (User.email u) = Js.toLowerCase email
                 /\ User.password u = password) (users w) = Some u ->
  login email password now w
  = (Normal (ok "Login successful" (Some (session_of u now))),
     logged_in email (session_of u now) w).
Proof.
  intros E. unfold login, logged_in. run. rewrite E.
  fold (session_of u now). rewrite lookup_insert_ne by done.
  destruct (is_text _ _); reflexivity.
Qed.

Lemma login_no_match email password now w :
  find (fun u => Js.toLowerCase (User.email u) = Js.toLowerCase email
                 /\ User.password u = password) (users w) = None ->
  login email password now w
  = (Normal (failure "Invalid email or password"), w).
Proof. intros E. unfold login. run. by rewrite E. Qed.

Lemma requestPasswordReset_found email now suffix w u :
  find (fun u => Js.toLowerCase (User.email u) = Js.toLowerCase email)
       (users w) = Some u ->
  requestPasswordReset email now suffix w
  = (Normal (ok "Password reset instructions have been sent to your email"
                (Some (Js.toString now +:+ suffix))),
     set_localStorage
       (<["passwordResetToken" :=
            JReset (ResetData.mk email (Js.toString now +:+ suffix)
                                 (now + 15 * 60 * 1000) (User.id u))]>
          (localStorage w)) w).
Proof. intros E. unfold requestPasswordReset. run. by rewrite E. Qed.

(** [resetPassword], branch by branch *)

Lemma resetPassword_no_record token newPassword now w :
  localStorage w !! "passwordResetToken" = None ->
  resetPassword token newPassword now w
  = (Normal (failure "Invalid or expired reset token"), w).
Proof. intros E. unfold resetPassword. run. by rewrite E. Qed.

Lemma resetPassword_expired newPassword now w r :
  localStorage w !! "passwordResetToken" = Some (JReset r) ->
  now > ResetData.expires r ->
  resetPassword (ResetData.token r) newPassword now w
  = (Normal (failure "Reset token has expired"), token_deleted w).
Proof.
  intros E Hexp. unfold resetPassword. run. rewrite E. cbn [as_reset].
  rewrite bool_decide_eq_true_2 by done. cbn [negb].
  by rewrite (proj2 (Z.gtb_gt _ _)) by lia.
Qed.

Lemma resetPassword_short newPassword now w r :
  localStorage w !! "passwordResetToken" = Some (JReset r) ->
  now <= ResetData.expires r ->
  (Js.length newPassword < 6)%nat ->
  resetPassword (ResetData.token r) newPassword now w
  = (Normal (failure "Password must be at least 6 characters long"), w).
Proof.
  intros E Hexp Hlen. unfold resetPassword. run. rewrite E. cbn [as_reset].
  rewrite bool_decide_eq_true_2 by done. cbn [negb].
  rewrite Z.gtb_ltb, (proj2 (Z.ltb_ge _ _)) by lia.
  by rewrite (proj2 (Nat.ltb_lt _ _)) by done.
Qed.

Lemma resetPassword_done newPassword now w r i u :
  localStorage w !! "passwordResetToken" = Some (JReset r) ->
  now <= ResetData.expires r ->
  (6 <= Js.length newPassword)%nat ->
  list_find (fun user => User.id user = ResetData.userId r) (users w)
  = Some (i, u) ->
  resetPassword (ResetData.token r) newPassword now w
  = (Normal (ok "Password reset successfully" None),
     token_deleted (profile_updated (ResetData.userId r)
                      (Updates.of_password newPassword) i w)).
Proof.
  intros E Hexp Hlen Hu. unfold resetPassword, try_catch.
  unfold mbind at 1, M_bind at 1.
  assert (JSON_parse as_reset "passwordResetToken" w = (Normal (Some r), w))
    as ->.
  { unfold JSON_parse. run. by rewrite E. }
  rewrite bool_decide_eq_true_2 by done. cbn [negb].
  assert ((now >? ResetData.expires r) = false) as ->.
  { rewrite Z.gtb_ltb. apply Z.ltb_ge. lia. }
  rewrite (proj2 (Nat.ltb_ge _ _)) by done.
  unfold mbind, M_bind.
  rewrite (updateUserProfile_found _ _ _ _ _ Hu). reflexivity.
Qed.

Lemma validateResetToken_expired now w r :
  localStorage w !! "passwordResetToken" = Some (JReset r) ->
  now > ResetData.expires r ->
  validateResetToken (ResetData.token r) now w
  = (Normal (invalid "Reset token has expired"), token_deleted w).
Proof.
  intros E Hexp. unfold validateResetToken. run. rewrite E. cbn [as_reset].
  rewrite bool_decide_eq_true_2 by done. cbn [negb].
  by rewrite (proj2 (Z.gtb_gt _ _)) by lia.
Qed.

Lemma validateResetToken_live now w r :
  localStorage w !! "passwordResetToken" = Some (JReset r) ->
  now <= ResetData.expires r ->
  validateResetToken (ResetData.token r) now w
  = (Normal (mkValidation true None (Some (ResetData.email r))), w).
Proof.
  intros E Hexp. unfold validateResetToken. run. rewrite E. cbn [as_reset].
  rewrite bool_decide_eq_true_2 by done. cbn [negb].
  by rewrite Z.gtb_ltb, (proj2 (Z.ltb_ge _ _)) by lia.
Qed.

Lemma addUserAddress_found userId address now w i u :
  list_find (fun user => User.id user = userId) (users w) = Some (i, u) ->
  addUserAddress userId address now w
  = (Normal (ok "Address added successfully" (Some (stamped address now))),
     profile_updated userId
       (Updates.of_user (with_address (stamped address now) u)) i
       (set_users (alter (fun _ => with_address (stamped address now) u) i
                         (users w)) w)).
Proof.
  intros E. unfold addUserAddress. run. rewrite E.
  fold (stamped address now). fold (with_address (stamped address now) u).
  set (u' := with_address (stamped address now) u).
  assert (list_find (fun user => User.id user = userId)
            (alter (fun _ => u') i (users w)) = Some (i, u')) as E'.
  { apply list_find_Some in E as (Hi & Hid & Hmin).
    apply list_find_Some. split_and!.
    - rewrite list_lookup_alter_eq, Hi. done.
    - done.
    - intros j y Hj Hlt. rewrite list_lookup_alter_ne in Hj by lia. eauto. }
  unfold mbind, M_bind.
  rewrite (updateUserProfile_found userId _ (set_users _ w) i u' E').
  reflexivity.
Qed.

End AuthFacts.

(** ** The cart scripts *)

Module CartFacts.

Import AuthManager Spec AuthFacts.

(** Numbers *)

Lemma two53 : 2 ^ 53 = 9007199254740992.
Proof. reflexivity. Qed.

Lemma round_double_small z : Z.abs z <= 2 ^ 53 -> Js.round_double z = z.
Proof.
  intros H. unfold Js.round_double. cbv zeta.
  by rewrite (proj2 (Z.leb_le _ _)).
Qed.


Lemma add_incrementable q : incrementable q -> Js.add q 1 = q + 1.
Proof.
  unfold incrementable. rewrite two53. intros H.
  apply round_double_small. rewrite two53. lia.
Qed.


(** The array update *)


Lemma add_or_increment_existing name price image (cart : list CartLine.t)
  i line :
  list_find (fun item => CartLine.name item = name) cart = Some (i, line) ->
  add_or_increment name price image cart
  = <[i := set_quantity (Js.add (CartLine.quantity line) 1) line]> cart.
Proof.
  intros E. unfold add_or_increment, findIndex. rewrite E.
  cbn [fmap option_fmap option_map fst].
  apply list_find_Some in E as (Hi & _ & _).
  by rewrite (alter_at_lookup _ _ _ _ Hi).
Qed.

Lemma add_or_increment_new name price image (cart : list CartLine.t) :
  name ∉ names cart ->
  add_or_increment name price image cart
  = cart ++ [CartLine.mk name price image 1].
Proof.
  intros Hn. unfold add_or_increment, findIndex.
  destruct (list_find _ cart) as [[i l]|] eqn:E; [|done].
  apply list_find_Some in E as (Hi & Hname & _). destruct Hn.
  unfold names. apply list_elem_of_fmap. exists l. split; [done|].
  by eapply list_elem_of_lookup_2.
Qed.

Lemma list_find_name_None name (cart : list CartLine.t) :
  list_find (fun item => CartLine.name item = name) cart = None ->
  name ∉ names cart.
Proof.
  intros E Hin. unfold names in Hin.
  apply list_elem_of_fmap in Hin as (l & Hl & Hin).
  rewrite list_find_None, Forall_forall in E. by apply (E l).
Qed.




(** Stored carts: the numbers of every line are doubles. *)


Lemma as_cart_JCart cart :
  forallb is_line cart = true -> as_cart (JCart cart) = Some cart.
Proof. intros H. cbn. by rewrite H. Qed.




Lemma cart_at_stored k cart w :
  forallb is_line cart = true ->
  cart_at k (set_localStorage (<[k := JCart cart]> (localStorage w)) w)
  = Some cart.
Proof.
  intros H. unfold cart_at. cbn [localStorage set_localStorage].
  rewrite lookup_insert_eq. by apply as_cart_JCart.
Qed.

Lemma JSON_parse_cart_at k w cart :
  cart_at k w = Some cart ->
  exists c, JSON_parse as_cart k w = (Normal c, w) /\ default [] c = cart.
Proof.
  unfold cart_at. run. destruct (localStorage w !! k) as [it|].
  - intros ->. by eexists.
  - intros [= <-]. by eexists.
Qed.


(** The per-identity script *)

Lemma auth_isLoggedIn_run now w :
  UserCart.auth_isLoggedIn now w
  = match auth w with
    | Undeclared => (Normal false, w)
    | Uninitialized => (Thrown "ReferenceError", w)
    | Initialized => isLoggedIn now w
    end.
Proof.
  unfold UserCart.auth_isLoggedIn, UserCartWith.auth_isLoggedIn. run.
  by destruct (auth w).
Qed.

(** The first time the script asks: the answer, and the world settled. *)
Lemma auth_isLoggedIn_settle now w :
  auth w <> Uninitialized ->
  (in_session now w = false -> refresh_returns w) ->
  UserCart.auth_isLoggedIn now w = (Normal (in_session now w), settle now w).
Proof.
  intros Ha Hr. rewrite auth_isLoggedIn_run. unfold in_session, settle in *.
  destruct (auth w); [done|done|]. rewrite isLoggedIn_run.
  destruct (session_live now w) eqn:El.
  - unfold session_live in El. by destruct (currentUser w).
  - destruct (currentUser w); [|done].
    unfold expiry_outcome. by rewrite logout_outcome_returns by auto.
Qed.

Lemma settle_frame now w :
  auth (settle now w) = auth w /\
  users (settle now w) = users w /\
  cart_script (settle now w) = cart_script w /\
  (forall k, k <> "currentUser" -> k <> "rememberMe" ->
             localStorage (settle now w) !! k = localStorage w !! k) /\
  currentUser (settle now w)
  = (if in_session now w then currentUser w
     else match auth w with Initialized => None | _ => currentUser w end).
Proof.
  unfold settle, in_session.
  destruct (logged_out_frame w) as (Hcu & Hus & Hls & Hcs & Hau).
  destruct (auth w) eqn:Ea; [done|done|].
  destruct (currentUser w) as [s|] eqn:Ecu.
  - destruct (session_live now w); [done|]. split_and!; try done.
    intros k H1 H2. by rewrite Hls, !lookup_delete_ne.
  - unfold session_live. rewrite Ecu. done.
Qed.

(** Later the answer is the same, as long as a session that was live
    still is. *)
Lemma auth_isLoggedIn_settled now now' w w2 :
  auth w <> Uninitialized ->
  auth w2 = auth w ->
  currentUser w2 = currentUser (settle now w) ->
  (in_session now w = true -> session_live now' w = true) ->
  UserCart.auth_isLoggedIn now' w2 = (Normal (in_session now w), w2).
Proof.
  intros Ha Ha2 Hcu Hl. rewrite auth_isLoggedIn_run, Ha2.
  destruct (settle_frame now w) as (_ & _ & _ & _ & Hcu').
  rewrite Hcu' in Hcu. unfold in_session in *.
  destruct (auth w); [done|done|].
  destruct (session_live now w) eqn:El.
  - apply isLoggedIn_live. unfold session_live in *. rewrite Hcu.
    by apply Hl.
  - by apply isLoggedIn_none.
Qed.

Lemma cart_key_kept (k : string) :
  "cart_" +:+ k <> "currentUser" /\ "cart_" +:+ k <> "rememberMe" /\
  "cart" <> "currentUser" /\ "cart" <> "rememberMe".
Proof. split_and!; cbv; discriminate. Qed.

Lemma active_cart_key_kept now w :
  active_cart_key now w <> "currentUser" /\
  active_cart_key now w <> "rememberMe".
Proof.
  unfold active_cart_key.
  destruct (currentUser w) as [s|]; [destruct (in_session _ _)|];
    split; first [apply (cart_key_kept (Session.id s))
                 | apply (cart_key_kept "")].
Qed.

(** The key that the script computes when it takes the visitor for an
    identity. *)
Lemma in_session_key now w :
  in_session now w = true ->
  exists s, currentUser w = Some s /\
            active_cart_key now w = "cart_" +:+ Session.id s.
Proof.
  unfold active_cart_key. intros E. rewrite E.
  unfold in_session, session_live in E.
  destruct (auth w); try discriminate.
  destruct (currentUser w) as [s|]; [|discriminate]. by exists s.
Qed.

Lemma not_in_session_key now w :
  in_session now w = false -> active_cart_key now w = "cart".
Proof. unfold active_cart_key. intros ->. by destruct (currentUser w). Qed.

Lemma getUserCart_run now w b w0 key cart :
  UserCart.auth_isLoggedIn now w = (Normal b, w0) ->
  (b = true -> exists s, currentUser w0 = Some s /\
                         key = "cart_" +:+ Session.id s) ->
  (b = false -> key = "cart") ->
  cart_at key w0 = Some cart ->
  UserCart.getUserCart now w = (Normal cart, w0).
Proof.
  intros E Ht Hf Hc.
  unfold UserCart.getUserCart, UserCartWith.getUserCart.
  change (UserCartWith.auth_isLoggedIn isLoggedIn)
    with UserCart.auth_isLoggedIn.
  unfold mbind at 1, M_bind at 1. rewrite E.
  destruct (JSON_parse_cart_at _ _ _ Hc) as (c & Hp & <-).
  destruct b.
  - destruct (Ht eq_refl) as (s & Hs & ->).
    unfold UserCartWith.userCartKey.
    unfold mbind, M_bind, gets, mret, M_ret. by rewrite Hs, Hp.
  - rewrite Hf in Hp by done. unfold mbind, M_bind. by rewrite Hp.
Qed.

Lemma saveUserCart_run now w b key cart :
  UserCart.auth_isLoggedIn now w = (Normal b, w) ->
  (b = true -> exists s, currentUser w = Some s /\
                         key = "cart_" +:+ Session.id s) ->
  (b = false -> key = "cart") ->
  UserCart.saveUserCart cart now w
  = (Normal tt, set_localStorage (<[key := JCart cart]> (localStorage w)) w).
Proof.
  intros E Ht Hf.
  unfold UserCart.saveUserCart, UserCartWith.saveUserCart.
  change (UserCartWith.auth_isLoggedIn isLoggedIn)
    with UserCart.auth_isLoggedIn.
  unfold mbind at 1, M_bind at 1. rewrite E.
  destruct b.
  - destruct (Ht eq_refl) as (s & Hs & ->).
    unfold UserCartWith.userCartKey.
    unfold mbind, M_bind, gets. by rewrite Hs.
  - by rewrite Hf.
Qed.

Lemma UserCart_addToCart_run name price image now1 now2 now3 w cart :
  auth w <> Uninitialized ->
  cart_at (active_cart_key now1 w) w = Some cart ->
  (in_session now1 w = true ->
   session_live now2 w = true /\ session_live now3 w = true) ->
  forallb is_line (add_or_increment name price image cart) = true ->
  UserCart.addToCart name price image now1 now2 now3 w
  = (Normal tt,
     added name (active_cart_key now1 w)
       (add_or_increment name price image cart) (settle now1 w)).
Proof.
  intros Ha Hc Hl Hok.
  set (key := active_cart_key now1 w) in *.
  set (cart' := add_or_increment name price image cart) in *.
  set (w0 := settle now1 w).
  destruct (active_cart_key_kept now1 w) as [K1 K2]. fold key in K1, K2.
  destruct (settle_frame now1 w) as (Hau & _ & _ & Hls & Hcu).
  fold w0 in Hau, Hls, Hcu.
  assert (in_session now1 w = false -> refresh_returns w) as Hr.
  { intros E. unfold refresh_returns. destruct (cart_script w); [|done].
    split; [|done]. exists cart.
    by rewrite <- (not_in_session_key _ _ E). }
  pose proof (auth_isLoggedIn_settle now1 w Ha Hr) as E1. fold w0 in E1.
  assert (in_session now1 w = true ->
          exists s, currentUser w0 = Some s /\
                    key = "cart_" +:+ Session.id s) as Ht.
  { intros E. rewrite Hcu, E. by apply in_session_key. }
  assert (in_session now1 w = false -> key = "cart") as Hf
    by apply not_in_session_key.
  assert (cart_at key w0 = Some cart) as Hc0.
  { unfold cart_at in *. by rewrite Hls. }
  unfold UserCart.addToCart, UserCartWith.addToCart.
  change (UserCartWith.getUserCart isLoggedIn) with UserCart.getUserCart.
  change (UserCartWith.saveUserCart isLoggedIn) with UserCart.saveUserCart.
  unfold mbind at 1, M_bind at 1.
  rewrite (getUserCart_run now1 w _ w0 key cart E1 Ht Hf Hc0).
  fold cart'.
  assert (UserCart.auth_isLoggedIn now2 w0
          = (Normal (in_session now1 w), w0)) as E2.
  { apply (auth_isLoggedIn_settled now1); [done..|]. intros E. by apply Hl. }
  unfold mbind at 1, M_bind at 1.
  rewrite (saveUserCart_run now2 w0 _ key cart' E2 Ht Hf).
  set (w1 := set_localStorage _ w0).
  assert (UserCart.auth_isLoggedIn now3 w1
          = (Normal (in_session now1 w), w1)) as E3.
  { apply (auth_isLoggedIn_settled now1); [done..|]. intros E. by apply Hl. }
  unfold UserCartWith.updateCartBadge.
  change (UserCartWith.getUserCart isLoggedIn) with UserCart.getUserCart.
  unfold mbind at 1 2, M_bind at 1 2.
  rewrite (getUserCart_run now3 w1 _ w1 key cart' E3 Ht Hf).
  2:{ by apply cart_at_stored. }
  reflexivity.
Qed.



Lemma localStorage_added name k cart w :
  localStorage (added name k cart w) = <[k := JCart cart]> (localStorage w).
Proof. done. Qed.

End CartFacts.


(** * The claims *)

Import AuthManager Spec AuthFacts RegisterFacts CartFacts.

(** C1, as amended: when the email of the input already belongs to a
    registered identity, compared without regard to letter case, [register]
    fails and changes nothing (directory, persisted directory, session); the
    failure is the duplicate-email one whenever the input passes the
    validation rules. *)
Theorem register_duplicate_email (d : UserData.t) (e : string) (now : Z)
  (w : World) :
  UserData.email d = Some e ->
  (exists u, u ∈ users w /\ same_email (User.email u) e) ->
  exists r,
    register d now w = (Normal r, w) /\
    success r = false /\
    (valid (validateRegistrationData d) = true ->
     r = failure "An account with this email already exists" /\
     fails_with DuplicateEmailError r).
Proof.
  intros He (u & Hu & Hsame). unfold register.
  destruct (valid (validateRegistrationData d)) eqn:Hv; cbn [negb].
  - run. rewrite He. cbn [member].
    destruct (find_elem_of
                (fun user => Js.toLowerCase (User.email user)
                             = Js.toLowerCase e) (users w) u Hu Hsame)
      as (y & -> & _).
    eexists. split; [reflexivity|]. split; [reflexivity|].
    intros _. split; [reflexivity|]. by split.
  - eexists. split; [reflexivity|]. split; [reflexivity|]. discriminate.
Qed.

Lemma register_duplicate_email_witness :
  exists r,
    register Examples.again_data 5000 Examples.alice_world
    = (Normal r, Examples.alice_world) /\
    success r = false /\
    (valid (validateRegistrationData Examples.again_data) = true ->
     r = failure "An account with this email already exists" /\
     fails_with DuplicateEmailError r).
Proof.
  apply (register_duplicate_email Examples.again_data "Alice@Example.COM").
  - reflexivity.
  - exists Examples.alice. split; [|reflexivity].
    vm_compute. apply list_elem_of_here.
Defined.

(** C1 as stated fails: with Alice registered, a second registration under
    her email whose confirmation does not match is answered with the
    validation message, not with the duplicate-email one. *)
Lemma register_duplicate_email_counterexample :
  UserData.email Examples.mismatch_data = Some "Alice@Example.COM" /\
  (exists u, u ∈ users Examples.alice_world /\
             same_email (User.email u) "Alice@Example.COM") /\
  fst (register Examples.mismatch_data 5000 Examples.alice_world)
  = Normal (failure "Passwords do not match") /\
  error_kind "Passwords do not match" = Some ValidationError /\
  error_kind "Passwords do not match" <> Some DuplicateEmailError.
Proof.
  split; [reflexivity|]. split.
  { exists Examples.alice. split; [|reflexivity].
    vm_compute. apply list_elem_of_here. }
  split; [reflexivity|]. split; [reflexivity|]. discriminate.
Qed.

(** C2: the claim fails on the code, by a defect of the code. [register]
    takes the time in milliseconds as identifier and checks no uniqueness:
    Alice and Bob, who register within the same millisecond, both get the
    identifier 1000. Bob asks for a reset and resets with the token he is
    given, in time and with a secret that is long enough. Both calls
    succeed, and the secret that is replaced is Alice's, in memory and in
    the persisted directory, since [updateUserProfile] changes the first
    identity with the identifier; Bob's secret is as it was. The token
    record is deleted. From then on Bob's email logs in with his old secret
    only, and Alice's email with the secret that Bob chose. *)
Theorem reset_replaces_the_secret_of_another_identity :
  let w1 :=
    snd (requestPasswordReset "bob@example.com" 2000 "k3j9x0q1z"
           Examples.twins_world) in
  let w2 := snd (resetPassword "2000k3j9x0q1z" "newsecret" 3000 w1) in
  register Examples.alice_data 1000 Examples.empty_world
  = (Normal (ok "Account created successfully" (Some Examples.alice)),
     Examples.alice_world) /\
  register Examples.bob_data 1000 Examples.alice_world
  = (Normal (ok "Account created successfully" (Some Examples.bob)),
     Examples.twins_world) /\
  users Examples.twins_world = [Examples.alice; Examples.bob] /\
  User.id Examples.alice = User.id Examples.bob /\
  User.password Examples.bob = "hunter22" /\
  requestPasswordReset "bob@example.com" 2000 "k3j9x0q1z" Examples.twins_world
  = (Normal (ok "Password reset instructions have been sent to your email"
                (Some "2000k3j9x0q1z")), w1) /\
  resetPassword "2000k3j9x0q1z" "newsecret" 3000 w1
  = (Normal (ok "Password reset successfully" None), w2) /\
  users w2 = [with_password "newsecret" Examples.alice; Examples.bob] /\
  localStorage w2 !! "users"
  = Some (JUsers [with_password "newsecret" Examples.alice; Examples.bob]) /\
  localStorage w2 !! "passwordResetToken" = None /\
  fst (login "bob@example.com" "newsecret" 4000 w2)
  = Normal (failure "Invalid email or password") /\
  fst (login "bob@example.com" "hunter22" 4000 w2)
  = Normal (ok "Login successful" (Some (session_of Examples.bob 4000))) /\
  fst (login "alice@example.com" "newsecret" 4000 w2)
  = Normal (ok "Login successful"
               (Some (session_of (with_password "newsecret" Examples.alice)
                                 4000))).
Proof. cbv zeta. split_and!; reflexivity. Qed.

(** C3: the claim fails on the code, by a defect of the code. A page
    loads the per-identity cart script and then [auth.js], with the session
    of Alice, more than 24 hours old, in [localStorage]. While
    [const auth = new AuthManager()] is evaluated the constructor loads the
    session and calls [validateSession], which calls [logout]: the session
    is cleared and its key removed, then [updateUI] calls the page's
    [updateCartBadge], whose [typeof auth] throws on the constant that is
    not yet initialised. [validateSession] does not return false: the
    exception leaves it, and [isLoggedIn] likewise. The handler of
    [loadCurrentUser] calls [logout] again, which throws again, so that the
    load of [auth.js] fails and [auth] is never initialised. On a page of
    [cart.js] with text under [cart] that is no JSON, the [SyntaxError] of
    [updateCartBadge] leaves [validateSession] the same way. *)
Theorem validateSession_throws_while_auth_loads :
  let w := Examples.loading_world in
  let now := 86401001 in
  cart_script w = Some UserCartScript /\
  auth w = Uninitialized /\
  currentUser w = Some (session_of Examples.alice 1000) /\
  localStorage w !! "currentUser"
  = Some (JSession (session_of Examples.alice 1000)) /\
  now - 1000 > 24 * 60 * 60 * 1000 /\
  fst (validateSession now w) = Thrown "ReferenceError" /\
  fst (isLoggedIn now w) = Thrown "ReferenceError" /\
  currentUser (snd (validateSession now w)) = None /\
  localStorage (snd (validateSession now w)) !! "currentUser" = None /\
  fst (load now Examples.shop_world) = Thrown "ReferenceError" /\
  auth (snd (load now Examples.shop_world)) = Uninitialized /\
  currentUser (snd (load now Examples.shop_world)) = None /\
  localStorage Examples.torn_world !! "cart" = Some (Raw "{oops") /\
  fst (validateSession now Examples.torn_world) = Thrown "SyntaxError" /\
  currentUser (snd (validateSession now Examples.torn_world)) = None.
Proof. cbv zeta. split_and!; reflexivity. Qed.

(** C4: [login] succeeds exactly when some identity of the directory has
    the given email, letter case apart, and the given secret. On success the
    session of such an identity, stamped with the current time, is installed
    and persisted, and [isLoggedIn] is true from then on for 24 hours. On
    failure the answer is the one message "Invalid email or password",
    whether the email is registered or not, and nothing changes. *)
Theorem login_iff_credentials_match (email password : string) (now : Z)
  (w : World) :
  let matching u :=
    same_email (User.email u) email /\ User.password u = password in
  exists r w',
    login email password now w = (Normal r, w') /\
    (success r = true <-> exists u, u ∈ users w /\ matching u) /\
    (success r = true ->
     exists u, u ∈ users w /\ matching u /\
       payload r = Some (session_of u now) /\
       currentUser w' = Some (session_of u now) /\
       localStorage w' !! "currentUser" = Some (JSession (session_of u now)) /\
       users w' = users w /\
       forall later, later - now <= 24 * 60 * 60 * 1000 ->
                     isLoggedIn later w' = (Normal true, w')) /\
    (success r = false ->
     r = failure "Invalid email or password" /\
     fails_with InvalidCredentialsError r /\ w' = w).
Proof.
  cbv zeta. unfold same_email.
  destruct (find (fun u => Js.toLowerCase (User.email u)
                           = Js.toLowerCase email
                           /\ User.password u = password) (users w))
    as [u|] eqn:E.
  - rewrite (login_match _ _ _ _ _ E). apply find_Some in E as [Hu Hm].
    do 2 eexists. split; [reflexivity|]. split_and!.
    + split; [intros _; by exists u | done].
    + intros _. destruct Hm as [Hm1 Hm2]. exists u. split_and!; try done.
      * unfold logged_in. cbn [localStorage set_localStorage].
        destruct (is_text _ _).
        -- rewrite lookup_insert_ne by done. apply lookup_insert_eq.
        -- apply lookup_insert_eq.
      * intros later Hlater. apply isLoggedIn_live.
        unfold session_live, maxSessionAge. cbn.
        by rewrite Z.gtb_ltb, (proj2 (Z.ltb_ge _ _)) by lia.
    + discriminate.
  - rewrite (login_no_match _ _ _ _ E).
    do 2 eexists. split; [reflexivity|]. split_and!.
    + split; [discriminate|]. intros (u & Hu & Hm).
      rewrite find_None in E. by destruct (E u Hu).
    + discriminate.
    + intros _. split_and!; done.
Qed.

Lemma login_iff_credentials_match_witness :
  exists r w',
    login "ALICE@example.com" "secret1" 7000 Examples.alice_world
    = (Normal r, w') /\
    success r = true /\
    payload r = Some (session_of Examples.alice 7000) /\
    localStorage w' !! "currentUser"
    = Some (JSession (session_of Examples.alice 7000)) /\
    isLoggedIn 7000 w' = (Normal true, w').
Proof.
  destruct (login_iff_credentials_match "ALICE@example.com" "secret1" 7000
              Examples.alice_world) as (r & w' & Hrun & Hiff & Hok & _).
  exists r, w'. split; [exact Hrun|].
  assert (success r = true) as Hs.
  { apply Hiff. exists Examples.alice. split; [|by split].
    vm_compute. apply list_elem_of_here. }
  split; [exact Hs|].
  destruct (Hok Hs) as (u & Hu & [Hm Hp] & Hpay & _ & Hstore & _ & Hlive).
  assert (u = Examples.alice) as ->.
  { vm_compute in Hu. apply elem_of_cons in Hu as [->|Hu]; [done|].
    by apply not_elem_of_nil in Hu. }
  split; [exact Hpay|]. split; [exact Hstore|].
  apply Hlive. lia.
Defined.




(** C6: [register] checks the rules in the order name, email, phone,
    secret, confirmation, and answers with the message of the first rule
    that fails, whatever the later rules would say: a validation error, the
    world left as it was. When all five hold, validation passes. *)
Theorem register_first_failing_rule (d : UserData.t) (now : Z) (w : World) :
  let rejects msg :=
    register d now w = (Normal (failure msg), w) /\
    error_kind msg = Some ValidationError in
  (~ name_rule d -> rejects "Name must be at least 2 characters long") /\
  (name_rule d -> ~ email_rule d ->
   rejects "Please enter a valid email address") /\
  (name_rule d -> email_rule d -> ~ phone_rule d ->
   rejects "Please enter a valid phone number") /\
  (name_rule d -> email_rule d -> phone_rule d -> ~ secret_rule d ->
   rejects "Password must be at least 6 characters long") /\
  (name_rule d -> email_rule d -> phone_rule d -> secret_rule d ->
   ~ confirmation_rule d -> rejects "Passwords do not match") /\
  (name_rule d -> email_rule d -> phone_rule d -> secret_rule d ->
   confirmation_rule d -> valid (validateRegistrationData d) = true).
Proof.
  destruct (validate_cases d) as (H1 & H2 & H3 & H4 & H5 & H6).
  cbv zeta. split_and!; intros;
    try (split; [apply register_rejects; auto | reflexivity]).
  by rewrite H6.
Qed.

Lemma register_first_failing_rule_witness :
  register Examples.no_name_data 0 Examples.alice_world
  = (Normal (failure "Name must be at least 2 characters long"),
     Examples.alice_world) /\
  register Examples.bad_email_data 0 Examples.alice_world
  = (Normal (failure "Please enter a valid email address"),
     Examples.alice_world) /\
  register Examples.bad_phone_data 0 Examples.alice_world
  = (Normal (failure "Please enter a valid phone number"),
     Examples.alice_world) /\
  register Examples.short_secret_data 0 Examples.alice_world
  = (Normal (failure "Password must be at least 6 characters long"),
     Examples.alice_world) /\
  register Examples.mismatch_data 0 Examples.alice_world
  = (Normal (failure "Passwords do not match"), Examples.alice_world) /\
  valid (validateRegistrationData Examples.alice_data) = true.
Proof.
  assert (forall d, name_rule d <->
                    falsy (UserData.name d)
                    || (Js.length (Js.trim (member (UserData.name d))) <? 2)%nat
                    = false) as Hn by (intros; symmetry; apply name_check).
  assert (forall d, email_rule d <->
                    falsy (UserData.email d)
                    || negb (isValidEmail (member (UserData.email d)))
                    = false) as He by (intros; symmetry; apply email_check).
  assert (forall d, phone_rule d <->
                    falsy (UserData.phone d)
                    || negb (isValidPhone (member (UserData.phone d)))
                    = false) as Hp by (intros; symmetry; apply phone_check).
  assert (forall d, secret_rule d <->
                    falsy (UserData.password d)
                    || (Js.length (member (UserData.password d)) <? 6)%nat
                    = false) as Hs by (intros; symmetry; apply secret_check).
  split_and!.
  - apply (register_first_failing_rule Examples.no_name_data).
    rewrite Hn. vm_compute. discriminate.
  - apply (register_first_failing_rule Examples.bad_email_data).
    + rewrite Hn. reflexivity.
    + rewrite He. vm_compute. discriminate.
  - apply (register_first_failing_rule Examples.bad_phone_data).
    + rewrite Hn. reflexivity.
    + rewrite He. reflexivity.
    + rewrite Hp. vm_compute. discriminate.
  - apply (register_first_failing_rule Examples.short_secret_data).
    + rewrite Hn. reflexivity.
    + rewrite He. reflexivity.
    + rewrite Hp. reflexivity.
    + rewrite Hs. vm_compute. discriminate.
  - apply (register_first_failing_rule Examples.mismatch_data).
    + rewrite Hn. reflexivity.
    + rewrite He. reflexivity.
    + rewrite Hp. reflexivity.
    + rewrite Hs. reflexivity.
    + vm_compute. discriminate.
  - apply (register_first_failing_rule Examples.alice_data 0 Examples.empty_world).
    + rewrite Hn. reflexivity.
    + rewrite He. reflexivity.
    + rewrite Hp. reflexivity.
    + rewrite Hs. reflexivity.
    + reflexivity.
Defined.

(** C7: with a stored token record whose expiry is in the past,
    [validateResetToken] with the stored token answers not valid and deletes
    the record, no reset having been attempted; with the record unexpired it
    answers valid with the record's email and changes nothing. *)
Theorem validateResetToken_deletes_expired (now : Z) (w : World)
  (r : ResetData.t) :
  localStorage w !! "passwordResetToken" = Some (JReset r) ->
  (now > ResetData.expires r ->
   exists v w',
     validateResetToken (ResetData.token r) now w = (Normal v, w') /\
     valid v = false /\
     (exists m, vmessage v = Some m /\ error_kind m = Some TokenError) /\
     localStorage w' !! "passwordResetToken" = None /\
     w' = token_deleted w) /\
  (now <= ResetData.expires r ->
   validateResetToken (ResetData.token r) now w
   = (Normal (mkValidation true None (Some (ResetData.email r))), w)).
Proof.
  intros E. split; intros Hnow.
  - rewrite (validateResetToken_expired _ _ _ E Hnow).
    do 2 eexists. split; [reflexivity|]. split_and!; try done.
    + by eexists.
    + cbn. apply lookup_delete_eq.
  - by apply validateResetToken_live.
Qed.

Lemma validateResetToken_deletes_expired_witness :
  (exists v w',
     validateResetToken "2000k3j9x0q1z" 902001 Examples.reset_world
     = (Normal v, w') /\
     valid v = false /\
     (exists m, vmessage v = Some m /\ error_kind m = Some TokenError) /\
     localStorage w' !! "passwordResetToken" = None /\
     w' = token_deleted Examples.reset_world) /\
  validateResetToken "2000k3j9x0q1z" 902000 Examples.reset_world
  = (Normal (mkValidation true None (Some "alice@example.com")),
     Examples.reset_world).
Proof.
  assert (localStorage Examples.reset_world !! "passwordResetToken"
          = Some (JReset Examples.reset_record)) as E by reflexivity.
  split.
  - apply (validateResetToken_deletes_expired 902001 _ _ E). simpl. lia.
  - apply (validateResetToken_deletes_expired 902000 _ _ E). simpl. lia.
Defined.

(** C8: when the identity of the current session gets an address, the whole
    identity record is merged into the session and the session is persisted:
    from then on the persisted session holds the identity's plaintext secret,
    phone, creation time and profile, besides the identifier, name, email and
    login time that [login] had put there. *)
Theorem addUserAddress_persists_secret (w : World) (s : Session.t)
  (u : User.t) (address : Address.t) (now : Z) :
  currentUser w = Some s ->
  find (fun user => User.id user = Session.id s) (users w) = Some u ->
  exists r w' s',
    addUserAddress (Session.id s) address now w = (Normal r, w') /\
    success r = true /\
    currentUser w' = Some s' /\
    localStorage w' !! "currentUser" = Some (JSession s') /\
    Session.password s' = Some (User.password u) /\
    Session.phone s' = Some (User.phone u) /\
    Session.createdAt s' = Some (User.createdAt u) /\
    Session.profile s'
    = Some (User.profile (with_address (stamped address now) u)) /\
    Session.id s' = Session.id s /\
    Session.name s' = User.name u /\
    Session.email s' = User.email u /\
    Session.loginTime s' = Session.loginTime s.
Proof.
  intros Hcu Hu. apply find_list_find in Hu as [i Hu].
  rewrite (addUserAddress_found _ _ _ _ _ _ Hu).
  apply list_find_Some in Hu as (_ & Hid & _).
  unfold profile_updated. cbn [currentUser set_users]. rewrite Hcu.
  rewrite bool_decide_eq_true_2 by done.
  do 3 eexists. split; [reflexivity|]. split; [reflexivity|].
  split; [reflexivity|]. split; [apply lookup_insert_eq|].
  split_and!; done.
Qed.

Lemma addUserAddress_persists_secret_witness :
  Session.password (session_of Examples.alice 1000) = None /\
  exists r w' s',
    addUserAddress "1000" Examples.home 3000 Examples.alice_world
    = (Normal r, w') /\
    success r = true /\
    localStorage w' !! "currentUser" = Some (JSession s') /\
    Session.password s' = Some "secret1".
Proof.
  split; [reflexivity|].
  destruct (addUserAddress_persists_secret Examples.alice_world
              (session_of Examples.alice 1000) Examples.alice
              Examples.home 3000)
    as (r & w' & s' & Hrun & Hok & _ & Hstore & Hpw & _).
  - reflexivity.
  - reflexivity.
  - exists r, w', s'. split; [exact Hrun|]. split; [exact Hok|].
    split; [exact Hstore | exact Hpw].
Defined.

(** C9: with a stored token record that matches and is unexpired,
    [resetPassword] with a new secret shorter than 6 characters answers with
    the validation message and changes nothing: token record, directory and
    every secret are as before, so that the same token still resets the
    secret in a later call. *)
Theorem resetPassword_short_secret_keeps_token (now : Z) (w : World)
  (r : ResetData.t) (newSecret : string) :
  localStorage w !! "passwordResetToken" = Some (JReset r) ->
  now <= ResetData.expires r ->
  (Js.length newSecret < 6)%nat ->
  exists res,
    resetPassword (ResetData.token r) newSecret now w = (Normal res, w) /\
    res = failure "Password must be at least 6 characters long" /\
    fails_with ValidationError res /\
    (forall later secret u,
       later <= ResetData.expires r -> (6 <= Js.length secret)%nat ->
       find (fun user => User.id user = ResetData.userId r) (users w)
       = Some u ->
       exists w2,
         resetPassword (ResetData.token r) secret later w
         = (Normal (ok "Password reset successfully" None), w2)).
Proof.
  intros E Hnow Hlen. rewrite (resetPassword_short _ _ _ _ E Hnow Hlen).
  eexists. split; [reflexivity|]. split; [reflexivity|]. split; [by split|].
  intros later secret u Hlater Hsecret Hu.
  apply find_list_find in Hu as [i Hu].
  rewrite (resetPassword_done _ _ _ _ _ _ E Hlater Hsecret Hu). by eexists.
Qed.

Lemma resetPassword_short_secret_keeps_token_witness :
  exists res,
    resetPassword "2000k3j9x0q1z" "abc" 3000 Examples.reset_world
    = (Normal res, Examples.reset_world) /\
    res = failure "Password must be at least 6 characters long" /\
    fails_with ValidationError res /\
    exists w2,
      resetPassword "2000k3j9x0q1z" "abcdef" 4000 Examples.reset_world
      = (Normal (ok "Password reset successfully" None), w2).
Proof.
  destruct (resetPassword_short_secret_keeps_token 3000 Examples.reset_world
              Examples.reset_record "abc")
    as (res & Hrun & Hres & Hkind & Hlater).
  - reflexivity.
  - simpl. lia.
  - simpl. lia.
  - exists res. split; [exact Hrun|]. split; [exact Hres|].
    split; [exact Hkind|].
    apply (Hlater 4000 "abcdef" Examples.alice).
    + simpl. lia.
    + simpl. lia.
    + reflexivity.
Defined.

(** C10: [logout] removes the persisted session key and the remember-me
    flag key, and no other key: in particular the remembered-email key is
    never removed, so the plaintext email that [login] persisted under it is
    still in the store after [logout]. This holds whether the page's
    [updateCartBadge], which [logout] calls last but one, returns or throws;
    [logout] returns when it does. *)
Theorem logout_keeps_remembered_email (now : Z) (w : World) :
  exists o w',
    logout now w = (o, w') /\
    (refresh_returns w -> o = Normal tt) /\
    localStorage w' !! "currentUser" = None /\
    localStorage w' !! "rememberMe" = None /\
    (forall k, k <> "currentUser" -> k <> "rememberMe" ->
               localStorage w' !! k = localStorage w !! k) /\
    localStorage w' !! "rememberedUser" = localStorage w !! "rememberedUser" /\
    (forall w0 email password t r,
       localStorage w0 !! "rememberMe" = Some (Raw "true") ->
       login email password t w0 = (Normal r, w) -> success r = true ->
       localStorage w !! "rememberedUser" = Some (Raw email) /\
       localStorage w' !! "rememberedUser" = Some (Raw email)).
Proof.
  rewrite logout_run. do 2 eexists. split; [reflexivity|].
  rewrite localStorage_logged_out.
  assert (forall k, k <> "currentUser" -> k <> "rememberMe" ->
            delete "rememberMe" (delete "currentUser" (localStorage w)) !! k
            = localStorage w !! k) as Hother.
  { intros k H1 H2. by rewrite !lookup_delete_ne. }
  split_and!.
  - apply logout_outcome_returns.
  - rewrite lookup_delete_ne by done. apply lookup_delete_eq.
  - apply lookup_delete_eq.
  - exact Hother.
  - by apply Hother.
  - intros w0 email password t r Hflag Hlogin Hok.
    rewrite Hother by done.
    assert (localStorage w !! "rememberedUser" = Some (Raw email)); [|done].
    destruct (find (fun u => Js.toLowerCase (User.email u)
                             = Js.toLowerCase email
                             /\ User.password u = password) (users w0))
      as [u|] eqn:E.
    + rewrite (login_match _ _ _ _ _ E) in Hlogin.
      injection Hlogin as _ <-. unfold logged_in. rewrite Hflag.
      cbn. apply lookup_insert_eq.
    + rewrite (login_no_match _ _ _ _ E) in Hlogin.
      injection Hlogin as <- _. discriminate.
Qed.

Lemma logout_keeps_remembered_email_witness :
  exists w',
    logout 9000 Examples.remembered_world = (Normal tt, w') /\
    localStorage Examples.remembered_world !! "rememberedUser"
    = Some (Raw "Alice@Example.com") /\
    localStorage w' !! "currentUser" = None /\
    localStorage w' !! "rememberMe" = None /\
    localStorage w' !! "rememberedUser" = Some (Raw "Alice@Example.com").
Proof.
  destruct (logout_keeps_remembered_email 9000 Examples.remembered_world)
    as (o & w' & Hrun & Ho & Hcu & Hflag & _ & _ & Hlogin).
  destruct (Hlogin Examples.flagged_world "Alice@Example.com" "secret1" 8000
              (ok "Login successful"
                  (Some (session_of Examples.alice 8000))))
    as [Hbefore Hafter]; [reflexivity..|].
  rewrite Ho in Hrun by exact I.
  exists w'. split; [exact Hrun|]. split; [exact Hbefore|].
  split; [exact Hcu|]. split; [exact Hflag | exact Hafter].
Defined.

(** * Further properties of the code *)

(** ** Strings *)

Module StringFacts.

Import Regex RegexFacts AuthManager Spec ValidationFacts.

Lemma lower_char_idem c : Js.lower_char (Js.lower_char c) = Js.lower_char c.
Proof. destruct c as [[] [] [] [] [] [] [] []]; reflexivity. Qed.

Lemma is_space_lower_char c : Js.is_space (Js.lower_char c) = Js.is_space c.
Proof. destruct c as [[] [] [] [] [] [] [] []]; reflexivity. Qed.

Lemma toLowerCase_idem s :
  Js.toLowerCase (Js.toLowerCase s) = Js.toLowerCase s.
Proof. induction s as [|c s IH]; simpl; [done|]. by rewrite lower_char_idem, IH. Qed.

Lemma list_ascii_toLowerCase s :
  list_ascii_of_string (Js.toLowerCase s)
  = List.map Js.lower_char (list_ascii_of_string s).
Proof. induction s as [|c s IH]; simpl; [done|]. by rewrite IH. Qed.

Lemma trimStart_no_space l :
  Forall (fun c => Js.is_space c = false) l -> Js.trimStart l = l.
Proof. destruct 1 as [|c l Hc _]; simpl; [done|]. by rewrite Hc. Qed.

Lemma trim_no_space s :
  Forall (fun c => Js.is_space c = false) (list_ascii_of_string s) ->
  Js.trim s = s.
Proof.
  intros H. unfold Js.trim. rewrite (trimStart_no_space _ H).
  rewrite trimStart_no_space.
  - by rewrite rev_involutive, string_of_list_ascii_of_string.
  - rewrite Forall_forall in *. intros c Hc. apply H.
    by apply list_elem_of_In, in_rev, list_elem_of_In.
Qed.

Lemma valid_email_no_space e :
  isValidEmail e = true ->
  Forall (fun c => Js.is_space c = false) (list_ascii_of_string e).
Proof.
  intros (l & d & t & -> & [_ Hl] & [_ Hd] & [_ Ht])%isValidEmail_pattern.
  assert (forall s, Forall (fun c => Js.is_space c = false /\ c <> "@"%char) s ->
                    Forall (fun c => Js.is_space c = false) s) as Hw.
  { intros s Hs. eapply Forall_impl; [exact Hs|]. by intros c [? _]. }
  apply Forall_app. split; [by apply Hw|]. constructor; [done|].
  apply Forall_app. split; [by apply Hw|]. constructor; [done | by apply Hw].
Qed.

(** What [register] stores as the email is the lowercased input: on an
    email that passed validation, [trim] has nothing to strip. *)
Lemma trim_lower_valid_email e :
  isValidEmail e = true -> Js.trim (Js.toLowerCase e) = Js.toLowerCase e.
Proof.
  intros H%valid_email_no_space. apply trim_no_space.
  rewrite list_ascii_toLowerCase. apply Forall_forall.
  intros c (c0 & <- & Hc0)%list_elem_of_In%in_map_iff.
  rewrite is_space_lower_char. rewrite Forall_forall in H.
  by apply H, list_elem_of_In.
Qed.

End StringFacts.

(** ** More on the methods of [auth] *)

Module MoreAuthFacts.

Import AuthManager Spec AuthFacts RegisterFacts StringFacts Run.

Lemma validated_email d :
  valid (validateRegistrationData d) = true ->
  isValidEmail (member (UserData.email d)) = true.
Proof.
  unfold validateRegistrationData.
  destruct (falsy (UserData.name d) || _); [discriminate|].
  destruct (isValidEmail (member (UserData.email d))); [done|].
  rewrite orb_true_r. discriminate.
Qed.

Lemma register_fresh_run d now w :
  valid (validateRegistrationData d) = true ->
  (forall u, u ∈ users w ->
             ~ same_email (User.email u) (member (UserData.email d))) ->
  register d now w
  = (Normal (ok "Account created successfully" (Some (new_user d now))),
     logged_in (User.email (new_user d now))
       (session_of (new_user d now) now)
       (set_localStorage
          (<["users" := JUsers (users w ++ [new_user d now])]>
             (localStorage w))
          (set_users (users w ++ [new_user d now]) w))).
Proof.
  intros Hv Hfresh. pose proof (validated_email d Hv) as He.
  unfold register. rewrite Hv. cbn [negb].
  unfold mbind at 1, M_bind at 1, gets at 1.
  assert (find (fun user => Js.toLowerCase (User.email user)
                            = Js.toLowerCase (member (UserData.email d)))
               (users w) = None) as ->.
  { apply find_None. intros u Hu. by apply Hfresh. }
  rewrite (trim_lower_valid_email _ He). fold (new_user d now).
  set (nu := new_user d now).
  set (w1 := set_localStorage _ (set_users (users w ++ [nu]) w)).
  assert (find (fun u => Js.toLowerCase (User.email u)
                         = Js.toLowerCase (User.email nu)
                         /\ User.password u = member (UserData.password d))
               (users w1) = Some nu) as Hfind.
  { unfold find. cbn [w1 users set_localStorage set_users].
    assert (list_find
              (fun u => Js.toLowerCase (User.email u)
                        = Js.toLowerCase (User.email nu)
                        /\ User.password u = member (UserData.password d))
              (users w ++ [nu]) = Some (length (users w), nu)) as ->; [|done].
    apply list_find_Some. split_and!.
    - by rewrite lookup_app_r, Nat.sub_diag.
    - done.
    - done.
    - intros j u Hj Hlt [Hsame _].
      rewrite lookup_app_l in Hj by done.
      apply (Hfresh u); [by eapply list_elem_of_lookup_2|].
      unfold same_email. rewrite Hsame. cbn [nu new_user User.email].
      apply toLowerCase_idem. }
  run. fold w1.
  pose proof (login_match _ _ now w1 nu Hfind) as Hl.
  unfold mbind, M_bind. rewrite Hl. reflexivity.
Qed.

Lemma requestPasswordReset_missing email now suffix w :
  find (fun u => Js.toLowerCase (User.email u) = Js.toLowerCase email)
       (users w) = None ->
  requestPasswordReset email now suffix w
  = (Normal (failure "No account found with this email address"), w).
Proof. intros E. unfold requestPasswordReset. run. by rewrite E. Qed.

Lemma addUserAddress_missing userId address now w :
  list_find (fun user => User.id user = userId) (users w) = None ->
  addUserAddress userId address now w
  = (Normal (failure "User not found"), w).
Proof. intros E. unfold addUserAddress. run. by rewrite E. Qed.

Lemma addUserOrder_missing userId order w :
  list_find (fun user => User.id user = userId) (users w) = None ->
  addUserOrder userId order w = (Normal tt, w).
Proof. intros E. unfold addUserOrder. run. by rewrite E. Qed.

Lemma list_find_alter_same {A} (P : A -> Prop) `{forall x, Decision (P x)}
  (l : list A) i x y :
  list_find P l = Some (i, x) -> P y ->
  list_find P (alter (fun _ => y) i l) = Some (i, y).
Proof.
  intros (Hi & HP & Hmin)%list_find_Some Hy. apply list_find_Some. split_and!.
  - by rewrite list_lookup_alter_eq, Hi.
  - done.
  - intros j z Hj Hlt. rewrite list_lookup_alter_ne in Hj by lia. eauto.
Qed.

Lemma addUserOrder_found userId order w i u :
  list_find (fun user => User.id user = userId) (users w) = Some (i, u) ->
  addUserOrder userId order w
  = (Normal tt,
     profile_updated userId (Updates.of_user (with_order order u)) i
       (set_users (alter (fun _ => with_order order u) i (users w)) w)).
Proof.
  intros E. unfold addUserOrder. run. rewrite E.
  fold (with_order order u). set (u' := with_order order u).
  assert (User.id u' = userId) as Hid.
  { apply list_find_Some in E as (_ & Hid & _). exact Hid. }
  pose proof (list_find_alter_same _ _ _ _ u' E Hid) as E'.
  unfold mbind, M_bind.
  rewrite (updateUserProfile_found userId _ (set_users _ w) i u' E').
  reflexivity.
Qed.

Lemma changePassword_missing userId old new w :
  list_find (fun user => User.id user = userId) (users w) = None ->
  changePassword userId old new w = (Normal (failure "User not found"), w).
Proof.
  intros E. unfold changePassword. run. unfold find. by rewrite E.
Qed.

Lemma changePassword_found userId old new w i u :
  list_find (fun user => User.id user = userId) (users w) = Some (i, u) ->
  changePassword userId old new w
  = if negb (bool_decide (User.password u = old))
    then (Normal (failure "Current password is incorrect"), w)
    else if (Js.length new <? 6)%nat
    then (Normal (failure "Password must be at least 6 characters long"), w)
    else (Normal (ok "Password changed successfully" None),
          profile_updated userId (Updates.of_password new) i w).
Proof.
  intros E. unfold changePassword. run. unfold find. rewrite E.
  cbn [fmap option_fmap option_map snd].
  destruct (negb _); [done|]. destruct (_ <? _)%nat; [done|].
  unfold mbind, M_bind. by rewrite (updateUserProfile_found _ _ _ _ _ E).
Qed.

(** [resetPassword] and [validateResetToken] never throw, and what they
    may change is narrow. *)
Lemma resetPassword_outcome token newPassword now w :
  exists r w',
    resetPassword token newPassword now w = (Normal r, w') /\
    ((success r = false /\ (w' = w \/ w' = token_deleted w)) \/
     (success r = true /\
      exists rd i u,
        localStorage w !! "passwordResetToken" = Some (JReset rd) /\
        ResetData.token rd = token /\ now <= ResetData.expires rd /\
        (6 <= Js.length newPassword)%nat /\
        list_find (fun user => User.id user = ResetData.userId rd) (users w)
        = Some (i, u) /\
        w' = token_deleted
               (profile_updated (ResetData.userId rd)
                  (Updates.of_password newPassword) i w))).
Proof.
  unfold resetPassword. run.
  destruct (localStorage w !! "passwordResetToken") as [it|] eqn:E.
  2:{ do 2 eexists. split; [reflexivity|]. left. by split; [|left]. }
  destruct (as_reset it) as [rd|] eqn:Eshape.
  2:{ do 2 eexists. split; [reflexivity|]. left. by split; [|left]. }
  destruct it; try discriminate. injection Eshape as ->.
  destruct (bool_decide (ResetData.token rd = token)) eqn:Etok; cbn [negb].
  2:{ do 2 eexists. split; [reflexivity|]. left. by split; [|left]. }
  apply bool_decide_eq_true in Etok.
  destruct (now >? ResetData.expires rd) eqn:Eexp.
  { do 2 eexists. split; [reflexivity|]. left. by split; [|right]. }
  destruct (Js.length newPassword <? 6)%nat eqn:Elen.
  { do 2 eexists. split; [reflexivity|]. left. by split; [|left]. }
  destruct (list_find (fun user => User.id user = ResetData.userId rd)
              (users w)) as [[i u]|] eqn:Eu.
  - rewrite (updateUserProfile_found _ _ _ _ _ Eu). cbn [success ok].
    do 2 eexists. split; [reflexivity|]. right. split; [done|].
    exists rd, i, u. split_and!; try done.
    + rewrite Z.gtb_ltb in Eexp. by apply Z.ltb_ge.
    + by apply Nat.ltb_ge.
  - rewrite (updateUserProfile_missing _ _ _ Eu). cbn [success failure].
    do 2 eexists. split; [reflexivity|]. left. by split; [|left].
Qed.

Lemma validateResetToken_outcome token now w :
  exists v w',
    validateResetToken token now w = (Normal v, w') /\
    ((valid v = false /\ (w' = w \/ w' = token_deleted w)) \/
     (valid v = true /\ w' = w /\
      exists rd,
        localStorage w !! "passwordResetToken" = Some (JReset rd) /\
        ResetData.token rd = token /\ now <= ResetData.expires rd /\
        vemail v = Some (ResetData.email rd))).
Proof.
  unfold validateResetToken. run.
  destruct (localStorage w !! "passwordResetToken") as [it|] eqn:E.
  2:{ do 2 eexists. split; [reflexivity|]. left. by split; [|left]. }
  destruct (as_reset it) as [rd|] eqn:Eshape.
  2:{ do 2 eexists. split; [reflexivity|]. left. by split; [|left]. }
  destruct it; try discriminate. injection Eshape as ->.
  destruct (bool_decide (ResetData.token rd = token)) eqn:Etok; cbn [negb].
  2:{ do 2 eexists. split; [reflexivity|]. left. by split; [|left]. }
  apply bool_decide_eq_true in Etok.
  destruct (now >? ResetData.expires rd) eqn:Eexp.
  { do 2 eexists. split; [reflexivity|]. left. by split; [|right]. }
  do 2 eexists. split; [reflexivity|]. right. split_and!; try done.
  exists rd. split_and!; try done.
  rewrite Z.gtb_ltb in Eexp. by apply Z.ltb_ge.
Qed.

(** Start-up *)

Lemma loadUsers_run w us :
  stored_users w = Some us -> loadUsers w = (Normal tt, set_users us w).
Proof.
  unfold stored_users, loadUsers. run.
  destruct (localStorage w !! "users") as [[]|]; try discriminate;
    by intros [= <-].
Qed.

(** The page's [updateCartBadge] ends the same way on two pages with the
    same script, the same state of [auth] and the same anonymous cart. *)
Lemma refresh_badge_outcome w w' :
  cart_script w' = cart_script w -> auth w' = auth w ->
  localStorage w' !! "cart" = localStorage w !! "cart" ->
  fst (refresh_badge w') = fst (refresh_badge w).
Proof.
  intros Hs Ha Hc. unfold refresh_badge. rewrite Hs, Ha.
  assert (cart_at "cart" w' = cart_at "cart" w) as E
    by (unfold cart_at; by rewrite Hc).
  rewrite !CartJs_updateCartBadge_run, !SimpleCart_updateCartBadge_run, E.
  destruct (cart_script w) as [[]|]; [| | |done].
  - by destruct (cart_at "cart" w).
  - destruct (auth w); [|done|]; by destruct (cart_at "cart" w).
  - by destruct (cart_at "cart" w).
Qed.

(** A second [logout] ends as the first. *)
Lemma logout_outcome_logged_out w :
  logout_outcome (logged_out w) = logout_outcome w.
Proof.
  destruct (logged_out_frame w) as (_ & _ & Hls & Hcs & Hau).
  unfold logout_outcome. apply refresh_badge_outcome.
  - cbn [signed_out cart_script]. exact Hcs.
  - cbn [signed_out auth]. exact Hau.
  - cbn [signed_out localStorage]. rewrite Hls.
    by rewrite !lookup_delete_ne.
Qed.

Lemma loadCurrentUser_run now w cu :
  localStorage w !! "currentUser" = JSession <$> cu ->
  loadCurrentUser now w
  = match cu with
    | None => (Normal tt, w)
    | Some s =>
        let w1 := set_currentUser (Some s) w in
        if session_live now w1 then (Normal tt, w1)
        else match logout_outcome w1 with
             | Normal _ => (Normal tt, logged_out w1)
             | Thrown e => (Thrown e, logged_out (logged_out w1))
             end
    end.
Proof.
  intros E. unfold loadCurrentUser, try_catch.
  unfold mbind at 1, M_bind at 1, getItem, gets. rewrite E.
  destruct cu as [s|]; [|done]. cbn [fmap option_fmap option_map as_session].
  unfold mbind, M_bind, modify, mret, M_ret.
  rewrite validateSession_run. cbv zeta. unfold session_live.
  cbn [currentUser set_currentUser].
  destruct (_ >? _); [|done]. cbn [negb]. unfold expiry_outcome.
  destruct (logout_outcome (set_currentUser (Some s) w)) as [[]|e] eqn:Eo;
    [done|].
  by rewrite logout_run, logout_outcome_logged_out, Eo.
Qed.

Lemma set_auth_set_auth b b' w : set_auth b (set_auth b' w) = set_auth b w.
Proof. by destruct w. Qed.

(** The load of [auth.js] on a store that mirrors the memory: the memory is
    restored, and a session that has expired is logged out, while [auth] is
    not initialised. *)
Lemma load_mirrored now w :
  mirrored w ->
  load now w =
  if session_live now w then (Normal tt, set_auth Initialized w)
  else match currentUser w with
       | None => (Normal tt, set_auth Initialized w)
       | Some _ =>
           match logout_outcome (set_auth Uninitialized w) with
           | Normal _ =>
               (Normal tt,
                set_auth Initialized (logged_out (set_auth Uninitialized w)))
           | Thrown e =>
               (Thrown e, logged_out (logged_out (set_auth Uninitialized w)))
           end
       end.
Proof.
  intros [Hu Hs]. destruct w as [cu us ls d t cs a].
  unfold load, constructor, init, setupEventListeners.
  unfold mbind, M_bind, modify, mret, M_ret.
  cbn [set_auth set_currentUser set_users currentUser users localStorage dom
       trace cart_script auth] in *.
  rewrite (loadUsers_run _ us) by exact Hu.
  rewrite (loadCurrentUser_run now _ cu) by exact Hs.
  unfold session_live.
  cbn [set_auth set_currentUser set_users currentUser users localStorage dom
       trace cart_script auth].
  destruct cu as [s|]; [|reflexivity]. cbv zeta.
  cbn [set_auth set_currentUser set_users currentUser users localStorage dom
       trace cart_script auth].
  destruct (negb _); [reflexivity|].
  by destruct (logout_outcome _) as [[]|e].
Qed.

End MoreAuthFacts.

(** ** What every sequence of calls keeps *)

Module RunFacts.

Import AuthManager Spec AuthFacts RegisterFacts StringFacts MoreAuthFacts Run.

Lemma snd_ignore {A} (m : M A) w : snd ((m;; mret tt) w) = snd (m w).
Proof. unfold mbind, M_bind, mret, M_ret. by destruct (m w) as [[]]. Qed.

Lemma snd_on_auth {A} (m : M A) w :
  snd (on_auth m w)
  = match auth w with Initialized => snd (m w) | _ => w end.
Proof.
  unfold on_auth. unfold mbind at 1, M_bind at 1, gets.
  destruct (auth w); [done|done|]. apply snd_ignore.
Qed.

Lemma snd_on_event (m : M unit) w :
  snd (on_event m w)
  = match auth w with Initialized => snd (m w) | _ => w end.
Proof.
  unfold on_event. unfold mbind at 1, M_bind at 1, gets.
  by destruct (auth w).
Qed.

(** The mirror, piece by piece *)

Lemma mirrored_logged_out w : mirrored w -> mirrored (logged_out w).
Proof.
  intros [Hu Hs].
  destruct (logged_out_frame w) as (Hcu & Hus & Hls & _). split.
  - unfold stored_users in *. rewrite Hus, Hls.
    by rewrite !lookup_delete_ne.
  - rewrite Hcu, Hls.
    rewrite lookup_delete_ne by done. apply lookup_delete_eq.
Qed.

Lemma mirrored_logged_in email s w : mirrored w -> mirrored (logged_in email s w).
Proof.
  intros [Hu Hs]. unfold logged_in. split.
  - unfold stored_users in *. cbn [set_localStorage set_currentUser localStorage users].
    destruct (is_text _ _); by rewrite !lookup_insert_ne.
  - cbn [set_localStorage set_currentUser localStorage currentUser].
    destruct (is_text _ _).
    + rewrite lookup_insert_ne by done. apply lookup_insert_eq.
    + apply lookup_insert_eq.
Qed.

Lemma mirrored_profile_updated userId updates i w :
  localStorage w !! "currentUser" = JSession <$> currentUser w ->
  mirrored (profile_updated userId updates i w).
Proof.
  intros Hs. unfold profile_updated, mirrored, stored_users.
  destruct (currentUser w) as [s|] eqn:Ecu;
    [destruct (bool_decide (Session.id s = userId))|];
    cbn [set_localStorage set_currentUser set_users localStorage users
         currentUser]; rewrite ?Ecu.
  - rewrite lookup_insert_ne by done. by rewrite !lookup_insert_eq.
  - by rewrite lookup_insert_eq, lookup_insert_ne.
  - by rewrite lookup_insert_eq, lookup_insert_ne.
Qed.

Lemma mirrored_users_profile_updated userId updates i w :
  localStorage (profile_updated userId updates i w) !! "users"
  = Some (JUsers (users (profile_updated userId updates i w))).
Proof.
  unfold profile_updated.
  destruct (currentUser w) as [s|]; [destruct (bool_decide _)|];
    cbn [set_localStorage set_currentUser set_users localStorage users];
    rewrite ?lookup_insert_ne by done; apply lookup_insert_eq.
Qed.

Lemma mirrored_storage_other (f : gmap string Item -> gmap string Item) w :
  f (localStorage w) !! "users" = localStorage w !! "users" ->
  f (localStorage w) !! "currentUser" = localStorage w !! "currentUser" ->
  mirrored w -> mirrored (set_localStorage (f (localStorage w)) w).
Proof.
  intros H1 H2 [Hu Hs]. unfold mirrored, stored_users in *.
  cbn [set_localStorage localStorage users currentUser].
  by rewrite H1, H2.
Qed.

Lemma mirrored_token_deleted w : mirrored w -> mirrored (token_deleted w).
Proof.
  apply (mirrored_storage_other (delete "passwordResetToken"));
    by rewrite lookup_delete_ne.
Qed.

Lemma mirrored_live now w :
  mirrored w -> mirrored (snd (isLoggedIn now w)).
Proof.
  intros H. rewrite isLoggedIn_run.
  destruct (session_live now w); [done|].
  destruct (currentUser w); [by apply mirrored_logged_out | done].
Qed.

Lemma mirrored_set_auth b w : mirrored w -> mirrored (set_auth b w).
Proof. by destruct w. Qed.

(** The emails, piece by piece *)

Lemma emails_alter (us : list User.t) i (g : User.t -> User.t) :
  (forall u, us !! i = Some u -> User.email (g u) = User.email u) ->
  emails (alter g i us) = emails us.
Proof.
  unfold emails. revert i. induction us as [|u us IH]; intros [|i] Hg; cbn;
    [done | done | |].
  - by rewrite (Hg u eq_refl).
  - f_equal. apply IH. intros u' Hu'. by apply Hg.
Qed.

Lemma users_profile_updated userId updates i w :
  users (profile_updated userId updates i w)
  = alter (fun u => spread_user u updates) i (users w).
Proof.
  unfold profile_updated.
  destruct (currentUser w) as [s|]; [destruct (bool_decide _)|]; done.
Qed.

Lemma users_logged_in email s w : users (logged_in email s w) = users w.
Proof. done. Qed.

Lemma users_live now w : users (snd (isLoggedIn now w)) = users w.
Proof.
  rewrite isLoggedIn_run.
  destruct (session_live now w); [done|].
  destruct (currentUser w); [apply users_logged_out | done].
Qed.

Lemma unique_kept w w' : users w' = users w -> unique_emails w -> unique_emails w'.
Proof. unfold unique_emails. by intros ->. Qed.

Lemma unique_profile_updated userId updates i w :
  Updates.email updates = None ->
  unique_emails w -> unique_emails (profile_updated userId updates i w).
Proof.
  intros He. unfold unique_emails. rewrite users_profile_updated.
  rewrite emails_alter; [done|]. intros u _. cbn. by rewrite He.
Qed.

(** An identity changed in place and then passed on whole as updates
    ([addUserAddress], [addUserOrder]) *)
Lemma unique_in_place userId i u u' w :
  users w !! i = Some u -> User.email u' = User.email u ->
  unique_emails w ->
  unique_emails
    (profile_updated userId (Updates.of_user u') i
       (set_users (alter (fun _ => u') i (users w)) w)).
Proof.
  intros Hi He. unfold unique_emails. rewrite users_profile_updated.
  cbn [users set_users].
  rewrite emails_alter.
  - rewrite emails_alter; [done|]. intros u0 Hu0. congruence.
  - intros u0 Hu0. rewrite list_lookup_alter_eq, Hi in Hu0.
    by injection Hu0 as <-.
Qed.

Lemma unique_register d now w :
  (forall u, u ∈ users w ->
             ~ same_email (User.email u) (member (UserData.email d))) ->
  unique_emails w ->
  NoDup (emails (users w ++ [new_user d now])).
Proof.
  intros Hfresh Hu. unfold unique_emails, emails in *.
  rewrite fmap_app. apply NoDup_app.
  split_and!; [exact Hu | | apply NoDup_singleton].
  intros x Hx ->%list_elem_of_singleton.
  apply list_elem_of_fmap in Hx as (u & Hx & Hin).
  apply (Hfresh u Hin). unfold same_email. rewrite <- Hx.
  cbn [new_user User.email]. by rewrite toLowerCase_idem.
Qed.

Lemma register_outcome d now w :
  exists r w',
    register d now w = (Normal r, w') /\
    ((success r = false /\ w' = w) \/
     (success r = true /\
      (forall u, u ∈ users w ->
                 ~ same_email (User.email u) (member (UserData.email d))) /\
      w' = logged_in (User.email (new_user d now))
             (session_of (new_user d now) now)
             (set_localStorage
                (<["users" := JUsers (users w ++ [new_user d now])]>
                   (localStorage w))
                (set_users (users w ++ [new_user d now]) w)))).
Proof.
  destruct (valid (validateRegistrationData d)) eqn:Hv.
  - destruct (find (fun user => Js.toLowerCase (User.email user)
                                = Js.toLowerCase (member (UserData.email d)))
                   (users w)) as [u|] eqn:Ef.
    + unfold register. rewrite Hv. cbn [negb]. run. rewrite Ef.
      do 2 eexists. split; [reflexivity|]. left. by split.
    + assert (forall u, u ∈ users w ->
                ~ same_email (User.email u) (member (UserData.email d)))
        as Hfresh by exact (proj1 (find_None _ (users w)) Ef).
      rewrite (register_fresh_run d now w Hv Hfresh).
      do 2 eexists. split; [reflexivity|]. right. by split_and!.
  - unfold register. rewrite Hv. cbn [negb].
    do 2 eexists. split; [reflexivity|]. left. by split.
Qed.

(** The load of [auth.js] restores the directory, and leaves a store that
    mirrors the memory. *)
Lemma load_keeps now w :
  mirrored w ->
  mirrored (snd (load now w)) /\ users (snd (load now w)) = users w.
Proof.
  intros Hm. rewrite (load_mirrored now w Hm).
  destruct (session_live now w); [by split; [apply mirrored_set_auth|]|].
  destruct (currentUser w); [|by split; [apply mirrored_set_auth|]].
  pose proof (mirrored_set_auth Uninitialized w Hm) as H0.
  pose proof (users_logged_out (set_auth Uninitialized w)) as U1.
  destruct (logout_outcome _) as [[]|e]; cbn [snd].
  - split; [by apply mirrored_set_auth, mirrored_logged_out|].
    by destruct (logged_out (set_auth Uninitialized w)).
  - split; [by do 2 apply mirrored_logged_out|].
    by rewrite users_logged_out.
Qed.

Lemma call_keeps c now w :
  mirrored w ->
  mirrored (snd (call c now w)) /\
  (keeps_emails c -> unique_emails w -> unique_emails (snd (call c now w))).
Proof.
  intros Hm. pose proof Hm as [Hu Hs].
  destruct c as [d|email password| | |userId updates|userId address
                |userId order|userId old new|email suffix|token new|token
                |key newValue|state| ]; cbn [call keeps_emails];
    rewrite ?snd_on_auth, ?snd_on_event;
    try (destruct (auth w); [done|done|]).
  - destruct (register_outcome d now w)
      as (r & w' & Hrun & [[_ ->]|(_ & Hfresh & ->)]);
      rewrite Hrun; cbn [snd]; [done|].
    split.
    + apply mirrored_logged_in. split.
      * unfold stored_users. cbn. by rewrite lookup_insert_eq.
      * cbn [set_localStorage set_users localStorage currentUser].
        by rewrite lookup_insert_ne.
    + intros _ Hun. unfold unique_emails. cbn. by apply unique_register.
  - destruct (find (fun u => Js.toLowerCase (User.email u)
                             = Js.toLowerCase email
                             /\ User.password u = password) (users w))
      as [u|] eqn:E.
    + rewrite (login_match _ _ now _ _ E). cbn [snd].
      split; [by apply mirrored_logged_in | done].
    + by rewrite (login_no_match _ _ now _ E).
  - rewrite logout_run. cbn [snd].
    split; [by apply mirrored_logged_out |].
    intros _. apply unique_kept, users_logged_out.
  - split; [by apply mirrored_live |].
    intros _. apply unique_kept, users_live.
  - destruct (list_find (fun user => User.id user = userId) (users w))
      as [[i u]|] eqn:E.
    + rewrite (updateUserProfile_found _ updates _ _ _ E). cbn [snd].
      split; [by apply mirrored_profile_updated |].
      intros He. by apply unique_profile_updated.
    + by rewrite (updateUserProfile_missing _ updates _ E).
  - destruct (list_find (fun user => User.id user = userId) (users w))
      as [[i u]|] eqn:E.
    + rewrite (addUserAddress_found _ address now _ _ _ E). cbn [snd].
      split; [by apply mirrored_profile_updated |].
      intros _. apply list_find_Some in E as (Hi & _).
      by apply (unique_in_place _ _ u).
    + by rewrite (addUserAddress_missing _ address now _ E).
  - destruct (list_find (fun user => User.id user = userId) (users w))
      as [[i u]|] eqn:E.
    + rewrite (addUserOrder_found _ order _ _ _ E). cbn [snd].
      split; [by apply mirrored_profile_updated |].
      intros _. apply list_find_Some in E as (Hi & _).
      by apply (unique_in_place _ _ u).
    + by rewrite (addUserOrder_missing _ order _ E).
  - destruct (list_find (fun user => User.id user = userId) (users w))
      as [[i u]|] eqn:E.
    + rewrite (changePassword_found _ old new _ _ _ E).
      destruct (negb _); [done|].
      destruct (_ <? _)%nat; cbn [snd]; [done|].
      split; [by apply mirrored_profile_updated |].
      intros _. by apply unique_profile_updated.
    + by rewrite (changePassword_missing _ old new _ E).
  - destruct (find (fun u => Js.toLowerCase (User.email u)
                             = Js.toLowerCase email) (users w))
      as [u|] eqn:E.
    + rewrite (requestPasswordReset_found _ now suffix _ _ E). cbn [snd].
      split; [|done].
      apply (mirrored_storage_other (fun m => <["passwordResetToken" := _]> m));
        [by rewrite lookup_insert_ne..|done].
    + by rewrite (requestPasswordReset_missing _ now suffix _ E).
  - destruct (resetPassword_outcome token new now w)
      as (r & w' & Hrun & [[_ [->| ->]]|(_ & rd & i & u & _ & _ & _ & _ & _ & ->)]);
      rewrite Hrun; cbn [snd].
    + done.
    + split; [by apply mirrored_token_deleted | done].
    + split; [by apply mirrored_token_deleted, mirrored_profile_updated |].
      intros _ Hun.
      apply (unique_kept (profile_updated (ResetData.userId rd)
                            (Updates.of_password new) i w)); [done|].
      by apply unique_profile_updated.
  - destruct (validateResetToken_outcome token now w)
      as (v & w' & Hrun & [[_ [->| ->]]|(_ & -> & _)]);
      rewrite Hrun; cbn [snd].
    + done.
    + split; [by apply mirrored_token_deleted | done].
    + done.
  - unfold onStorage. destruct (_ && _); [|done].
    rewrite logout_run. cbn [snd].
    split; [by apply mirrored_logged_out |].
    intros _. apply unique_kept, users_logged_out.
  - unfold onVisibilityChange. destruct (bool_decide _); [|done].
    rewrite snd_ignore, validateSession_run.
    destruct (currentUser w) as [s|]; [|done].
    destruct (_ >? _); [|done].
    cbn [snd]. split; [by apply mirrored_logged_out |].
    intros _. apply unique_kept, users_logged_out.
  - destruct (load_keeps now w Hm) as [H1 H2].
    split; [exact H1|]. intros _. by apply unique_kept.
Qed.

Lemma users_profile_password userId new i u w :
  users w !! i = Some u ->
  users (profile_updated userId (Updates.of_password new) i w)
  = <[i := with_password new u]> (users w).
Proof.
  intros Hi. rewrite users_profile_updated, (alter_at_lookup _ _ _ _ Hi).
  by destruct u.
Qed.

Lemma users_in_place userId i u u' w :
  users w !! i = Some u ->
  users (profile_updated userId (Updates.of_user u') i
           (set_users (alter (fun _ => u') i (users w)) w))
  = <[i := u']> (users w).
Proof.
  intros Hi. rewrite users_profile_updated. cbn [users set_users].
  rewrite (alter_at_lookup (fun _ => u') _ _ _ Hi).
  assert (<[i := u']> (users w) !! i = Some u') as Hi'.
  { apply list_lookup_insert_eq. by eapply lookup_lt_Some. }
  rewrite (alter_at_lookup _ _ _ _ Hi'), list_insert_insert_eq.
  by destruct u'.
Qed.

Lemma list_find_insert_same {A} (P : A -> Prop) `{forall x, Decision (P x)}
  (l : list A) i x y :
  list_find P l = Some (i, x) -> P y ->
  list_find P (<[i := y]> l) = Some (i, y).
Proof.
  intros (Hi & HP & Hmin)%list_find_Some Hy. apply list_find_Some. split_and!.
  - apply list_lookup_insert_eq. by eapply lookup_lt_Some.
  - done.
  - intros j z Hj Hlt. rewrite list_lookup_insert_ne in Hj by lia. eauto.
Qed.

End RunFacts.

(** ** More on the cart scripts *)

Module MoreCartFacts.

Import AuthManager Spec AuthFacts CartFacts Run.

(** Sums that are exact: quantities that are not negative, with a sum of at
    most [2 ^ 53]. *)

Lemma double_small z : Z.abs z <= 2 ^ 53 -> Js.double z = Js.Num z.
Proof.
  intros H. unfold Js.double. cbv zeta. rewrite round_double_small by done.
  assert (2 ^ 53 < 2 ^ 1024) as Hlt by (apply Z.pow_lt_mono_r; lia).
  assert (0 < 2 ^ 53) as Hpos by (by apply Z.pow_pos_nonneg).
  revert H Hlt Hpos. generalize (2 ^ 53) (2 ^ 1024). intros A B H Hlt Hpos.
  rewrite (proj2 (Z.leb_gt B z)) by lia.
  by rewrite (proj2 (Z.leb_gt z (- B))) by lia.
Qed.

Lemma quantities_nonneg (cart : list CartLine.t) :
  Forall (fun item => 0 <= CartLine.quantity item) cart ->
  0 <= quantities cart.
Proof.
  induction 1 as [|l cart Hl _ IH]; unfold quantities in *; cbn in *; lia.
Qed.

Lemma quantities_cons l (cart : list CartLine.t) :
  quantities (l :: cart) = CartLine.quantity l + quantities cart.
Proof. done. Qed.

Lemma fold_exact (cart : list CartLine.t) a :
  0 <= a ->
  Forall (fun item => 0 <= CartLine.quantity item) cart ->
  a + quantities cart <= 2 ^ 53 ->
  fold_left (fun sum item => Js.plus sum (CartLine.quantity item)) cart
            (Js.Num a)
  = Js.Num (a + quantities cart).
Proof.
  intros Ha Hq. revert a Ha.
  induction Hq as [|l cart Hl Hq IH]; intros a Ha Hsum.
  - cbn. f_equal. lia.
  - pose proof (quantities_nonneg cart Hq) as Hn.
    rewrite quantities_cons in *. cbn [fold_left Js.plus].
    rewrite double_small by lia. rewrite IH by lia. f_equal. lia.
Qed.

Lemma totalItems_exact (cart : list CartLine.t) :
  Forall (fun item => 0 <= CartLine.quantity item) cart ->
  quantities cart <= 2 ^ 53 ->
  totalItems cart = Js.Num (quantities cart).
Proof. intros Hq Hs. unfold totalItems. by rewrite fold_exact. Qed.

Lemma quantities_app cart1 cart2 :
  quantities (cart1 ++ cart2) = quantities cart1 + quantities cart2.
Proof.
  induction cart1 as [|l cart1 IH]; [done|].
  cbn [app]. rewrite !quantities_cons. lia.
Qed.

Lemma quantities_insert (cart : list CartLine.t) i l q :
  cart !! i = Some l ->
  quantities (<[i := set_quantity q l]> cart)
  = quantities cart - CartLine.quantity l + q.
Proof.
  intros Hi.
  assert (quantities cart
          = quantities (take i cart) + CartLine.quantity l
            + quantities (drop (S i) cart)) as E.
  { rewrite <- (take_drop_middle _ _ _ Hi) at 1.
    rewrite quantities_app, quantities_cons. lia. }
  rewrite insert_take_drop by (by eapply lookup_lt_Some).
  rewrite quantities_app, quantities_cons, E. cbn. lia.
Qed.

Lemma quantity_le_sum (cart : list CartLine.t) i l :
  Forall (fun item => 0 <= CartLine.quantity item) cart ->
  cart !! i = Some l -> 0 <= CartLine.quantity l <= quantities cart.
Proof.
  intros Hq Hi.
  assert (quantities cart
          = quantities (take i cart) + CartLine.quantity l
            + quantities (drop (S i) cart)) as E.
  { rewrite <- (take_drop_middle _ _ _ Hi) at 1.
    rewrite quantities_app, quantities_cons. lia. }
  rewrite <- (take_drop_middle _ _ _ Hi) in Hq.
  apply Forall_app in Hq as [H1 H2]. apply Forall_cons in H2 as [Hl H2].
  pose proof (quantities_nonneg _ H1). pose proof (quantities_nonneg _ H2).
  lia.
Qed.

(** In such a cart every quantity is raised by 1 exactly. *)
Lemma small_incrementable (cart : list CartLine.t) i l :
  Forall (fun item => 0 <= CartLine.quantity item) cart ->
  quantities cart < 2 ^ 53 ->
  cart !! i = Some l -> incrementable (CartLine.quantity l).
Proof.
  intros Hq Hs Hi. pose proof (quantity_le_sum _ _ _ Hq Hi).
  unfold incrementable. assert (0 < 2 ^ 53) by (by apply Z.pow_pos_nonneg).
  lia.
Qed.

Lemma add_or_increment_exact name price image (cart : list CartLine.t) :
  Forall (fun item => 0 <= CartLine.quantity item) cart ->
  quantities cart < 2 ^ 53 ->
  quantities (add_or_increment name price image cart) = quantities cart + 1 /\
  Forall (fun item => 0 <= CartLine.quantity item)
         (add_or_increment name price image cart).
Proof.
  intros Hq Hs.
  destruct (list_find (fun item => CartLine.name item = name) cart)
    as [[i l]|] eqn:E.
  - rewrite (add_or_increment_existing _ _ _ _ _ _ E).
    apply list_find_Some in E as (Hi & _).
    pose proof (small_incrementable _ _ _ Hq Hs Hi) as Hinc.
    pose proof (quantity_le_sum _ _ _ Hq Hi).
    rewrite add_incrementable by done. split.
    + rewrite (quantities_insert _ _ _ _ Hi). lia.
    + apply Forall_insert; [done|]. cbn. lia.
  - rewrite (add_or_increment_new _ _ _ _ (list_find_name_None _ _ E)). split.
    + rewrite quantities_app. cbn. lia.
    + apply Forall_app. split; [done|]. apply Forall_singleton. cbn. lia.
Qed.









Lemma getUserCart_settle now w cart :
  auth w <> Uninitialized ->
  cart_at (active_cart_key now w) w = Some cart ->
  UserCart.getUserCart now w = (Normal cart, settle now w).
Proof.
  intros Ha Hc.
  destruct (active_cart_key_kept now w) as [K1 K2].
  destruct (settle_frame now w) as (_ & _ & _ & Hls & Hcu).
  assert (in_session now w = false -> refresh_returns w) as Hr.
  { intros E. unfold refresh_returns. destruct (cart_script w); [|done].
    split; [|done]. exists cart.
    by rewrite <- (not_in_session_key _ _ E). }
  apply (getUserCart_run now w (in_session now w) _ (active_cart_key now w)).
  - by apply auth_isLoggedIn_settle.
  - intros E. rewrite Hcu, E. by apply in_session_key.
  - apply not_in_session_key.
  - unfold cart_at in *. by rewrite Hls.
Qed.

Lemma UserCart_updateCartBadge_run now w cart :
  auth w <> Uninitialized ->
  cart_at (active_cart_key now w) w = Some cart ->
  UserCart.updateCartBadge now w
  = (Normal tt,
     set_dom (alter (badge (totalItems cart)) "#cart-count"
                    (dom (settle now w))) (settle now w)).
Proof.
  intros Ha Hc.
  unfold UserCart.updateCartBadge, UserCartWith.updateCartBadge.
  change (UserCartWith.getUserCart AuthManager.isLoggedIn)
    with UserCart.getUserCart.
  unfold mbind at 1, M_bind at 1.
  by rewrite (getUserCart_settle now w cart Ha Hc).
Qed.

(** What the cart scripts leave alone, whatever the clocks and however
    the call ends. *)

Lemma cart_frame_refl w : cart_frame w w.
Proof. unfold cart_frame. split_and!; try done. by left. Qed.

Lemma cart_frame_trans w1 w2 w3 :
  cart_frame w1 w2 -> cart_frame w2 w3 -> cart_frame w1 w3.
Proof.
  intros (Hu1 & Ha1 & Hs1 & Hc1 & Hk1) (Hu2 & Ha2 & Hs2 & Hc2 & Hk2).
  unfold cart_frame. split_and!; try congruence.
  - destruct Hc2 as [-> | ->]; [done | by right].
  - intros k K1 K2 K3 K4. rewrite Hk2, Hk1; try done.
    intros s Hs. destruct Hc1 as [E|E]; rewrite E in Hs; [by apply K4|done].
Qed.

Lemma cart_frame_page w w' :
  users w' = users w -> auth w' = auth w -> cart_script w' = cart_script w ->
  currentUser w' = currentUser w -> localStorage w' = localStorage w ->
  cart_frame w w'.
Proof.
  intros Hu Ha Hs Hc Hl. unfold cart_frame. rewrite Hl.
  split_and!; try done. by left.
Qed.

Lemma cart_frame_logged_out w : cart_frame w (logged_out w).
Proof.
  destruct (logged_out_frame w) as (Hc & Hu & Hl & Hs & Ha).
  unfold cart_frame. split_and!; try done; [by right|].
  intros k _ K2 K3 _. rewrite Hl.
  by rewrite !lookup_delete_ne.
Qed.

Lemma cart_frame_stored k cart w :
  k = "cart" \/ (exists s, currentUser w = Some s /\
                           k = "cart_" +:+ Session.id s) ->
  cart_frame w (set_localStorage (<[k := JCart cart]> (localStorage w)) w).
Proof.
  intros Hk. unfold cart_frame.
  cbn [users auth cart_script currentUser localStorage set_localStorage].
  destruct w as [cu us ls d t cs a]; cbn in *.
  split_and!; try done; [by left|].
  intros k' K1 _ _ K4. apply lookup_insert_ne.
  destruct Hk as [-> | (s & Hs & ->)]; [done|]. intros <-. by apply (K4 s).
Qed.

Lemma bind_frame {A B} (m : M A) (f : A -> M B) w :
  cart_frame w (snd (m w)) ->
  (forall a w1, m w = (Normal a, w1) -> cart_frame w1 (snd (f a w1))) ->
  cart_frame w (snd ((m ≫= f) w)).
Proof.
  intros Hm Hf. unfold mbind, M_bind.
  destruct (m w) as [[a|e] w1]; cbn [snd] in *; [|done].
  apply (cart_frame_trans _ w1); [done|]. by apply Hf.
Qed.

Lemma auth_isLoggedIn_frame now w :
  cart_frame w (snd (UserCart.auth_isLoggedIn now w)) /\
  (forall w1, UserCart.auth_isLoggedIn now w = (Normal true, w1) ->
              exists s, currentUser w1 = Some s).
Proof.
  rewrite auth_isLoggedIn_run.
  destruct (auth w); try (split; [apply cart_frame_refl | by intros w1 [=]]).
  rewrite isLoggedIn_run. unfold session_live.
  destruct (currentUser w) as [s|] eqn:Ecu;
    [|split; [apply cart_frame_refl | by intros w1 [=]]].
  destruct (negb _).
  - split; [apply cart_frame_refl|]. intros w1 [= <-]. by exists s.
  - split; [apply cart_frame_logged_out|].
    unfold expiry_outcome. intros w1. by destruct (logout_outcome w).
Qed.

Lemma JSON_parse_same {A} (shape : Item -> option A) k w :
  snd (JSON_parse shape k w) = w.
Proof.
  unfold JSON_parse, getItem. unfold mbind, M_bind, gets, mret, M_ret, throw.
  destruct (localStorage w !! k) as [it|]; [|done]. by destruct (shape it).
Qed.

Lemma getUserCart_frame now w :
  cart_frame w (snd (UserCart.getUserCart now w)).
Proof.
  unfold UserCart.getUserCart, UserCartWith.getUserCart.
  change (UserCartWith.auth_isLoggedIn isLoggedIn)
    with UserCart.auth_isLoggedIn.
  destruct (auth_isLoggedIn_frame now w) as [Hf Ht].
  apply bind_frame; [done|]. intros [] w1 E.
  - destruct (Ht w1 E) as (s & Hs).
    assert (UserCartWith.userCartKey w1
            = (Normal ("cart_" +:+ Session.id s), w1)) as Ek.
    { unfold UserCartWith.userCartKey, mbind, M_bind, gets. by rewrite Hs. }
    apply bind_frame; [rewrite Ek; apply cart_frame_refl|].
    intros key w2 E2. rewrite Ek in E2. injection E2 as <- <-.
    apply bind_frame; [rewrite JSON_parse_same; apply cart_frame_refl|].
    intros c w2 E2. apply cart_frame_refl.
  - apply bind_frame; [rewrite JSON_parse_same; apply cart_frame_refl|].
    intros c w2 E2. apply cart_frame_refl.
Qed.

Lemma saveUserCart_frame cart now w :
  cart_frame w (snd (UserCart.saveUserCart cart now w)).
Proof.
  unfold UserCart.saveUserCart, UserCartWith.saveUserCart.
  change (UserCartWith.auth_isLoggedIn isLoggedIn)
    with UserCart.auth_isLoggedIn.
  destruct (auth_isLoggedIn_frame now w) as [Hf Ht].
  apply bind_frame; [done|]. intros [] w1 E.
  - destruct (Ht w1 E) as (s & Hs).
    assert (UserCartWith.userCartKey w1
            = (Normal ("cart_" +:+ Session.id s), w1)) as Ek.
    { unfold UserCartWith.userCartKey, mbind, M_bind, gets. by rewrite Hs. }
    apply bind_frame; [rewrite Ek; apply cart_frame_refl|].
    intros key w2 E2. rewrite Ek in E2. injection E2 as <- <-.
    apply cart_frame_stored. right. by exists s.
  - apply cart_frame_stored. by left.
Qed.

Lemma show_badge_frame total w : cart_frame w (snd (show_badge total w)).
Proof. by apply cart_frame_page. Qed.

Lemma UserCart_updateCartBadge_frame now w :
  cart_frame w (snd (UserCart.updateCartBadge now w)).
Proof.
  unfold UserCart.updateCartBadge, UserCartWith.updateCartBadge.
  change (UserCartWith.getUserCart isLoggedIn) with UserCart.getUserCart.
  apply bind_frame; [apply getUserCart_frame|].
  intros c w1 _. apply show_badge_frame.
Qed.

Lemma UserCart_addToCart_frame name price image now1 now2 now3 w :
  cart_frame w (snd (UserCart.addToCart name price image now1 now2 now3 w)).
Proof.
  unfold UserCart.addToCart, UserCartWith.addToCart.
  change (UserCartWith.getUserCart isLoggedIn) with UserCart.getUserCart.
  change (UserCartWith.saveUserCart isLoggedIn) with UserCart.saveUserCart.
  change (UserCartWith.updateCartBadge isLoggedIn)
    with UserCart.updateCartBadge.
  apply bind_frame; [apply getUserCart_frame|]. intros c w1 _.
  apply bind_frame; [apply saveUserCart_frame|]. intros [] w2 _.
  apply bind_frame; [apply UserCart_updateCartBadge_frame|]. intros [] w3 _.
  by apply cart_frame_page.
Qed.

Lemma CartJs_updateCartBadge_frame w :
  cart_frame w (snd (CartJs.updateCartBadge w)).
Proof.
  rewrite CartJs_updateCartBadge_run.
  destruct (cart_at "cart" w); [by apply cart_frame_page|].
  apply cart_frame_refl.
Qed.

Lemma CartJs_addToCart_frame name price image w :
  cart_frame w (snd (CartJs.addToCart name price image w)) /\
  currentUser (snd (CartJs.addToCart name price image w)) = currentUser w /\
  forall k, k <> "cart" ->
            localStorage (snd (CartJs.addToCart name price image w)) !! k
            = localStorage w !! k.
Proof.
  pose proof (JSON_parse_same as_cart "cart" w) as Hw.
  unfold CartJs.addToCart, mbind, M_bind.
  destruct (JSON_parse as_cart "cart" w) as [[c|e] w0]; cbn [snd] in Hw;
    subst w0; [|split_and!; [apply cart_frame_refl|done..]].
  unfold setItem, modify, emit.
  set (w1 := set_localStorage _ w).
  assert (cart_frame w w1) as F1 by (apply cart_frame_stored; by left).
  assert (currentUser w1 = currentUser w) as C1 by done.
  assert (forall k, k <> "cart" -> localStorage w1 !! k = localStorage w !! k)
    as L1.
  { intros k K. unfold w1. destruct w; cbn. by apply lookup_insert_ne. }
  rewrite CartJs_updateCartBadge_run.
  destruct (cart_at "cart" w1); cbn [snd]; [|done].
  split_and!; [|done..].
  apply (cart_frame_trans _ w1); [done|]. by apply cart_frame_page.
Qed.

(** The session expires between the fetch of the cart and the save. *)
Lemma UserCart_addToCart_expiring name price image now1 now2 now3 w s cart :
  auth w = Initialized -> currentUser w = Some s ->
  session_live now1 w = true -> session_live now2 w = false ->
  cart_at ("cart_" +:+ Session.id s) w = Some cart ->
  refresh_returns w ->
  forallb is_line (add_or_increment name price image cart) = true ->
  UserCart.addToCart name price image now1 now2 now3 w
  = (Normal tt,
     added name "cart" (add_or_increment name price image cart)
           (logged_out w)).
Proof.
  intros Ha Hs L1 L2 Hc Hr Hok.
  set (cart' := add_or_increment name price image cart) in *.
  assert (auth w <> Uninitialized) as Ha' by (by rewrite Ha).
  assert (in_session now1 w = true) as I1 by (unfold in_session; by rewrite Ha).
  assert (in_session now2 w = false) as I2
    by (unfold in_session; by rewrite Ha).
  assert (active_cart_key now1 w = "cart_" +:+ Session.id s) as K1.
  { unfold active_cart_key. by rewrite Hs, I1. }
  assert (settle now1 w = w) as S1.
  { unfold settle. by rewrite Ha, Hs, L1. }
  assert (settle now2 w = logged_out w) as S2.
  { unfold settle. by rewrite Ha, Hs, L2. }
  destruct (logged_out_frame w) as (Hcu & _ & _ & _ & Hau).
  unfold UserCart.addToCart, UserCartWith.addToCart.
  change (UserCartWith.getUserCart isLoggedIn) with UserCart.getUserCart.
  change (UserCartWith.saveUserCart isLoggedIn) with UserCart.saveUserCart.
  change (UserCartWith.updateCartBadge isLoggedIn)
    with UserCart.updateCartBadge.
  unfold mbind at 1, M_bind at 1.
  rewrite (getUserCart_settle now1 w cart Ha') by (by rewrite K1).
  rewrite S1. fold cart'.
  assert (UserCart.saveUserCart cart' now2 w
          = (Normal tt,
             set_localStorage (<["cart" := JCart cart']>
                                 (localStorage (logged_out w)))
                              (logged_out w))) as E2.
  { unfold UserCart.saveUserCart, UserCartWith.saveUserCart.
    change (UserCartWith.auth_isLoggedIn isLoggedIn)
      with UserCart.auth_isLoggedIn.
    unfold mbind at 1, M_bind at 1.
    rewrite (auth_isLoggedIn_settle now2 w Ha') by done.
    by rewrite I2, S2. }
  unfold mbind at 1, M_bind at 1. rewrite E2.
  set (w1 := set_localStorage _ (logged_out w)).
  assert (currentUser w1 = None) as C1 by (by destruct (logged_out w)).
  assert (auth w1 <> Uninitialized) as A1.
  { replace (auth w1) with (auth (logged_out w))
      by (by destruct (logged_out w)). by rewrite Hau. }
  assert (active_cart_key now3 w1 = "cart") as K3.
  { unfold active_cart_key. by rewrite C1. }
  assert (settle now3 w1 = w1) as S3.
  { unfold settle. rewrite C1. by destruct (auth w1). }
  unfold mbind at 1, M_bind at 1.
  rewrite (UserCart_updateCartBadge_run now3 w1 cart' A1).
  2:{ rewrite K3. by apply cart_at_stored. }
  by rewrite S3.
Qed.

End MoreCartFacts.

(** ** The properties *)

Import AuthManager Spec AuthFacts RegisterFacts CartFacts.
Import StringFacts MoreAuthFacts RunFacts MoreCartFacts Run.

(** X1: an input that passes validation and whose email no identity has,
    letter case apart, is registered: one identity is appended, with the
    time as identifier, the name and phone trimmed, the email lowercased
    (trimming changes nothing on an email that passed validation), the
    secret as given and an empty profile; the directory is persisted and the
    caller is logged in as the new identity. *)
Theorem register_fresh_email_succeeds (d : UserData.t) (now : Z) (w : World) :
  valid (validateRegistrationData d) = true ->
  (forall u, u ∈ users w ->
             ~ same_email (User.email u) (member (UserData.email d))) ->
  exists w',
    register d now w
    = (Normal (ok "Account created successfully" (Some (new_user d now))), w')
    /\ users w' = users w ++ [new_user d now]
    /\ localStorage w' !! "users" = Some (JUsers (users w ++ [new_user d now]))
    /\ currentUser w' = Some (session_of (new_user d now) now)
    /\ localStorage w' !! "currentUser"
       = Some (JSession (session_of (new_user d now) now))
    /\ isLoggedIn now w' = (Normal true, w').
Proof.
  intros Hv Hfresh. rewrite (register_fresh_run d now w Hv Hfresh).
  eexists. split; [reflexivity|]. unfold logged_in.
  cbn [users currentUser localStorage set_localStorage set_currentUser
       set_users].
  split_and!.
  - done.
  - destruct (is_text _ _); rewrite !lookup_insert_ne by done;
      apply lookup_insert_eq.
  - done.
  - destruct (is_text _ _).
    + rewrite lookup_insert_ne by done. apply lookup_insert_eq.
    + apply lookup_insert_eq.
  - apply isLoggedIn_live. unfold session_live, maxSessionAge. cbn.
    by rewrite Z.sub_diag.
Qed.

Lemma register_fresh_email_succeeds_witness :
  exists w',
    register MoreExamples.carol_data 2000 Examples.alice_world
    = (Normal (ok "Account created successfully"
                  (Some (User.mk "2000" "Carol" "carol@example.org"
                           "70000 00001" "carolpw1" 2000
                           (Profile.mk (Some []) (Some []) [])))), w')
    /\ users w'
       = [Examples.alice;
          User.mk "2000" "Carol" "carol@example.org" "70000 00001" "carolpw1"
                  2000 (Profile.mk (Some []) (Some []) [])]
    /\ isLoggedIn 2000 w' = (Normal true, w').
Proof.
  destruct (register_fresh_email_succeeds MoreExamples.carol_data 2000
              Examples.alice_world)
    as (w' & Hrun & Hus & _ & _ & _ & Hlive).
  - reflexivity.
  - intros u Hu Hsame. vm_compute in Hu.
    apply elem_of_cons in Hu as [->|Hu]; [discriminate Hsame|].
    by apply not_elem_of_nil in Hu.
  - exists w'. split; [exact Hrun|]. split; [exact Hus | exact Hlive].
Defined.

(** X3: no sequence of calls brings two identities to one email, letter
    case apart, as long as no profile update names an email: [register] is
    the only other way to an email and it refuses a taken one. *)
Theorem emails_stay_unique (calls : list (Call * Z)) (w : World) :
  mirrored w -> unique_emails w ->
  Forall (fun c => keeps_emails (fst c)) calls ->
  unique_emails (run calls w).
Proof.
  revert w. induction calls as [|[c now] calls IH]; intros w Hm Hu Hk; [done|].
  inversion Hk as [|? ? Hc Hk']; subst. cbn [run].
  destruct (call_keeps c now w Hm) as [Hm' Hu'].
  apply IH; [done | by apply Hu' | done].
Qed.

Lemma emails_stay_unique_witness :
  unique_emails (run MoreExamples.story Examples.empty_world) /\
  length (users (run MoreExamples.story Examples.empty_world)) = 2%nat.
Proof.
  split; [|reflexivity].
  apply emails_stay_unique.
  - split; reflexivity.
  - apply NoDup_nil_2.
  - repeat constructor.
Defined.

(** X4: the load of [auth.js] on a store that mirrors the memory, as after
    a reload of the page, brings back the directory, and the session when
    it is at most 24 hours old: the world is then as it was, with [auth]
    initialised. An older session is dropped and its key removed, which is
    a [logout] while [auth] is not yet initialised: the load goes through
    when the page's [updateCartBadge] returns then, and with the
    per-identity cart script on the page it throws, [auth] staying
    uninitialised. *)
Theorem reload_restores (now : Z) (w : World) :
  mirrored w ->
  exists o w',
    load now w = (o, w') /\
    users w' = users w /\
    currentUser w' = (if session_live now w then currentUser w else None) /\
    mirrored w' /\
    (session_live now w = true \/ currentUser w = None ->
     o = Normal tt /\ w' = set_auth Initialized w) /\
    (session_live now w = false -> localStorage w' !! "currentUser" = None) /\
    (refresh_returns (set_auth Uninitialized w) ->
     o = Normal tt /\ auth w' = Initialized) /\
    (session_live now w = false -> currentUser w <> None ->
     cart_script w = Some UserCartScript ->
     o = Thrown "ReferenceError" /\ auth w' = Uninitialized).
Proof.
  intros Hm. destruct (load_keeps now w Hm) as [Hm' Hus].
  destruct (load now w) as [o w'] eqn:Hrun. cbn [snd] in *.
  exists o, w'. split; [done|]. split; [done|].
  rewrite (load_mirrored now w Hm) in Hrun.
  destruct Hm as [_ Hs].
  destruct (session_live now w) eqn:El.
  { injection Hrun as <- <-. by split_and!. }
  destruct (currentUser w) as [s|] eqn:Ecu.
  2:{ injection Hrun as <- <-. by split_and!. }
  set (w0 := set_auth Uninitialized w) in *.
  destruct (logged_out_frame w0) as (Hcu1 & _ & Hls1 & Hcs1 & Hau1).
  destruct (logged_out_frame (logged_out w0)) as (Hcu2 & _ & Hls2 & _ & Hau2).
  assert (forall m : gmap string Item,
            delete "rememberMe" (delete "currentUser" m) !! "currentUser"
            = None) as Hgone.
  { intros m. rewrite lookup_delete_ne by done. apply lookup_delete_eq. }
  destruct (logout_outcome w0) as [[]|e] eqn:Eo; injection Hrun as <- <-.
  - split; [by destruct (logged_out w0)|]. split; [done|].
    split; [by intros [?|?]|].
    split; [intros _; destruct (logged_out w0); cbn in *; by rewrite Hls1|].
    split; [intros _; split; [done|by destruct (logged_out w0)]|].
    intros _ _ Hscript.
    rewrite logout_outcome_uninitialized in Eo by done. discriminate.
  - split; [done|]. split; [done|].
    split; [by intros [?|?]|].
    split; [intros _; by rewrite Hls2|].
    split; [intros Hr; by rewrite logout_outcome_returns in Eo|].
    intros _ _ Hscript.
    rewrite logout_outcome_uninitialized in Eo by done.
    injection Eo as <-. split; [done|]. by rewrite Hau2, Hau1.
Qed.

Lemma reload_restores_witness :
  (exists w',
     load 5000 Examples.alice_world = (Normal tt, w') /\
     w' = Examples.alice_world) /\
  (exists w',
     load 86401001 Examples.alice_world = (Normal tt, w') /\
     users w' = [Examples.alice] /\ currentUser w' = None /\
     localStorage w' !! "currentUser" = None) /\
  (exists w',
     load 86401001 Examples.shop_world = (Thrown "ReferenceError", w') /\
     auth w' = Uninitialized).
Proof.
  assert (mirrored Examples.alice_world) as Hm by (split; reflexivity).
  assert (mirrored Examples.shop_world) as Hm' by (split; reflexivity).
  split_and!.
  - destruct (reload_restores 5000 Examples.alice_world Hm)
      as (o & w' & Hrun & _ & _ & _ & Hsame & _).
    destruct Hsame as [-> ->]; [by left|].
    exists Examples.alice_world. split; [exact Hrun | reflexivity].
  - destruct (reload_restores 86401001 Examples.alice_world Hm)
      as (o & w' & Hrun & Hus & Hcu & _ & _ & Hgone & Hret & _).
    destruct Hret as [-> _]; [exact I|].
    exists w'. split; [exact Hrun|]. split; [exact Hus|].
    split; [exact Hcu|]. apply Hgone. reflexivity.
  - destruct (reload_restores 86401001 Examples.shop_world Hm')
      as (o & w' & Hrun & _ & _ & _ & _ & _ & _ & Hthrow).
    destruct Hthrow as [-> Ha]; [reflexivity | discriminate | reflexivity |].
    exists w'. split; [exact Hrun | exact Ha].
Defined.

(** X5: [changePassword] checks, in this order, that the identity exists,
    that the current secret is the stored one, and that the new secret has
    at least 6 characters; whichever check fails first names the failure,
    and a failure changes nothing. *)
Theorem changePassword_failures (userId old new : string) (w : World) :
  exists r w',
    changePassword userId old new w = (Normal r, w') /\
    (success r = false -> w' = w) /\
    (find (fun user => User.id user = userId) (users w) = None ->
     fails_with NotFoundError r) /\
    (forall u,
       find (fun user => User.id user = userId) (users w) = Some u ->
       (User.password u <> old -> fails_with AuthError r) /\
       (User.password u = old -> (Js.length new < 6)%nat ->
        fails_with ValidationError r) /\
       (User.password u = old -> (6 <= Js.length new)%nat ->
        success r = true)).
Proof.
  destruct (list_find (fun user => User.id user = userId) (users w))
    as [[i u]|] eqn:E.
  - rewrite (changePassword_found _ old new _ _ _ E).
    apply list_find_find in E as [Ef _]. rewrite Ef.
    destruct (bool_decide (User.password u = old)) eqn:Ep; cbn [negb].
    + apply bool_decide_eq_true in Ep.
      destruct (Js.length new <? 6)%nat eqn:El.
      * apply Nat.ltb_lt in El. do 2 eexists. split; [reflexivity|].
        split_and!; try done. intros u' [= <-]. split_and!; try done.
        intros _ ?. lia.
      * apply Nat.ltb_ge in El. do 2 eexists. split; [reflexivity|].
        split_and!; try done. intros u' [= <-]. split_and!; try done.
        intros _ ?. lia.
    + apply bool_decide_eq_false in Ep. do 2 eexists. split; [reflexivity|].
      split_and!; try done. intros u' [= <-]. split_and!; done.
  - rewrite (changePassword_missing _ old new _ E).
    unfold find. rewrite E. do 2 eexists. split; [reflexivity|].
    split_and!; try done.
Qed.

Lemma changePassword_failures_witness :
  fst (changePassword "1000" "wrong" "abc" Examples.alice_world)
  = Normal (failure "Current password is incorrect") /\
  fst (changePassword "1000" "secret1" "abc" Examples.alice_world)
  = Normal (failure "Password must be at least 6 characters long") /\
  fst (changePassword "77" "secret1" "abcdef" Examples.alice_world)
  = Normal (failure "User not found") /\
  snd (changePassword "1000" "wrong" "abc" Examples.alice_world)
  = Examples.alice_world.
Proof.
  destruct (changePassword_failures "1000" "wrong" "abc" Examples.alice_world)
    as (r & w' & Hrun & Hsame & _).
  split; [reflexivity|]. split; [reflexivity|]. split; [reflexivity|].
  rewrite Hrun. cbn [snd]. apply Hsame.
  assert (fst (changePassword "1000" "wrong" "abc" Examples.alice_world)
          = Normal (failure "Current password is incorrect")) as Hf
    by reflexivity.
  rewrite Hrun in Hf. cbn [fst] in Hf. by injection Hf as ->.
Defined.

(** X6: a successful [changePassword] replaces the secret of the identity
    it found and of no other, and persists the directory; afterwards the
    identity's email with the new secret logs in, and, when emails are
    unique, the email with the old secret no longer does. *)
Theorem changePassword_replaces_secret (userId old new : string) (w : World)
  (i : nat) (u : User.t) :
  list_find (fun user => User.id user = userId) (users w) = Some (i, u) ->
  User.password u = old ->
  (6 <= Js.length new)%nat ->
  exists w',
    changePassword userId old new w
    = (Normal (ok "Password changed successfully" None), w') /\
    users w' = <[i := with_password new u]> (users w) /\
    localStorage w' !! "users" = Some (JUsers (users w')) /\
    (forall now, exists r w'',
        login (User.email u) new now w' = (Normal r, w'') /\
        success r = true) /\
    (unique_emails w -> old <> new ->
     forall now,
       login (User.email u) old now w'
       = (Normal (failure "Invalid email or password"), w')).
Proof.
  intros E Hold Hnew. rewrite (changePassword_found _ old new _ _ _ E).
  rewrite (bool_decide_eq_true_2 _ Hold). cbn [negb].
  rewrite (proj2 (Nat.ltb_ge _ _) Hnew).
  apply list_find_Some in E as (Hi & Hid & _).
  eexists. split; [reflexivity|].
  pose proof (users_profile_password userId new i u w Hi) as Hus.
  assert (with_password new u ∈ <[i := with_password new u]> (users w)) as Hin.
  { apply list_elem_of_lookup. exists i. apply list_lookup_insert_eq.
    by eapply lookup_lt_Some. }
  split_and!.
  - exact Hus.
  - unfold profile_updated.
    destruct (currentUser w) as [s|]; [destruct (bool_decide _)|]; cbn;
      rewrite ?lookup_insert_ne by done; apply lookup_insert_eq.
  - intros now.
    destruct (find_elem_of
                (fun v => Js.toLowerCase (User.email v)
                          = Js.toLowerCase (User.email u)
                          /\ User.password v = new)
                (<[i := with_password new u]> (users w))
                (with_password new u) Hin)
      as (y & Hy & _); [done|].
    rewrite <- Hus in Hy. rewrite (login_match _ _ now _ _ Hy). by do 2 eexists.
  - intros Hun Hne now. apply login_no_match. apply find_None.
    rewrite Hus. intros v Hv [Hsame Hpw].
    apply list_elem_of_lookup in Hv as [j Hj].
    destruct (decide (j = i)) as [->|Hji].
    + rewrite list_lookup_insert_eq in Hj by by eapply lookup_lt_Some.
      injection Hj as <-. cbn in Hpw. congruence.
    + rewrite list_lookup_insert_ne in Hj by done.
      assert (emails (users w) !! j = Some (Js.toLowerCase (User.email u)))
        as Ej by (unfold emails; by rewrite list_lookup_fmap, Hj; cbn; rewrite Hsame).
      assert (emails (users w) !! i = Some (Js.toLowerCase (User.email u)))
        as Ei by (unfold emails; by rewrite list_lookup_fmap, Hi).
      by pose proof (NoDup_lookup _ _ _ _ Hun Ej Ei).
Qed.

Lemma changePassword_replaces_secret_witness :
  exists w',
    changePassword "1000" "secret1" "secret2" Examples.alice_world
    = (Normal (ok "Password changed successfully" None), w') /\
    users w' = [with_password "secret2" Examples.alice] /\
    (exists r w'',
        login "alice@example.com" "secret2" 6000 w' = (Normal r, w'') /\
        success r = true) /\
    login "alice@example.com" "secret1" 6000 w'
    = (Normal (failure "Invalid email or password"), w').
Proof.
  destruct (changePassword_replaces_secret "1000" "secret1" "secret2"
              Examples.alice_world 0%nat Examples.alice)
    as (w' & Hrun & Hus & _ & Hnew & Hold).
  - reflexivity.
  - reflexivity.
  - simpl. lia.
  - exists w'. split; [exact Hrun|]. split; [exact Hus|].
    split; [apply Hnew|]. apply Hold; [|discriminate].
    unfold unique_emails. vm_compute. apply NoDup_singleton.
Defined.

(** X7: when the secret of the identity of the current session is changed,
    by [changePassword] or by [resetPassword], the new plaintext secret is
    merged into the session and persisted under the session key. *)
Theorem new_secret_reaches_session (w : World) (s : Session.t) (i : nat)
  (u : User.t) (new : string) :
  currentUser w = Some s ->
  list_find (fun user => User.id user = Session.id s) (users w)
  = Some (i, u) ->
  (6 <= Js.length new)%nat ->
  (exists w' s',
     changePassword (Session.id s) (User.password u) new w
     = (Normal (ok "Password changed successfully" None), w') /\
     currentUser w' = Some s' /\
     localStorage w' !! "currentUser" = Some (JSession s') /\
     Session.password s' = Some new) /\
  (forall r now,
     localStorage w !! "passwordResetToken" = Some (JReset r) ->
     ResetData.userId r = Session.id s -> now <= ResetData.expires r ->
     exists w' s',
       resetPassword (ResetData.token r) new now w
       = (Normal (ok "Password reset successfully" None), w') /\
       currentUser w' = Some s' /\
       localStorage w' !! "currentUser" = Some (JSession s') /\
       Session.password s' = Some new).
Proof.
  intros Hcu E Hnew. split.
  - rewrite (changePassword_found _ (User.password u) new _ _ _ E).
    rewrite bool_decide_eq_true_2 by done. cbn [negb].
    rewrite (proj2 (Nat.ltb_ge _ _) Hnew).
    unfold profile_updated. rewrite Hcu, bool_decide_eq_true_2 by done.
    do 2 eexists. split; [reflexivity|]. split; [reflexivity|].
    split; [apply lookup_insert_eq | reflexivity].
  - intros r now Er Hid Hnow. rewrite <- Hid in E.
    rewrite (resetPassword_done new now w r i u Er Hnow Hnew E).
    unfold token_deleted, profile_updated.
    rewrite Hcu, bool_decide_eq_true_2 by done.
    do 2 eexists. split; [reflexivity|]. split; [reflexivity|].
    split; [|reflexivity].
    cbn. rewrite lookup_delete_ne by done. apply lookup_insert_eq.
Qed.

Lemma new_secret_reaches_session_witness :
  exists w' s',
    changePassword "1000" "secret1" "secret2" Examples.alice_world
    = (Normal (ok "Password changed successfully" None), w') /\
    localStorage w' !! "currentUser" = Some (JSession s') /\
    Session.password s' = Some "secret2".
Proof.
  destruct (new_secret_reaches_session Examples.alice_world
              (session_of Examples.alice 1000) 0%nat Examples.alice "secret2")
    as [(w' & s' & Hrun & _ & Hstore & Hpw) _].
  - reflexivity.
  - reflexivity.
  - simpl. lia.
  - exists w', s'. split; [exact Hrun|]. split; [exact Hstore | exact Hpw].
Defined.

(** X8: [requestPasswordReset] succeeds exactly when some identity has the
    email, letter case apart, and so tells whether an email is registered.
    On failure nothing changes. On success only the token record is
    written: the email as typed, the token made of the time and the suffix,
    an expiry 15 minutes ahead and the identifier of the first identity with
    that email; [validateResetToken] accepts the token until then. *)
Theorem requestPasswordReset_iff_registered (email suffix : string) (now : Z)
  (w : World) :
  exists r w',
    requestPasswordReset email now suffix w = (Normal r, w') /\
    (success r = true <->
     exists u, u ∈ users w /\ same_email (User.email u) email) /\
    (success r = false -> fails_with NotFoundError r /\ w' = w) /\
    (success r = true ->
     exists u,
       u ∈ users w /\ same_email (User.email u) email /\
       payload r = Some (Js.toString now +:+ suffix) /\
       localStorage w' !! "passwordResetToken"
       = Some (JReset (ResetData.mk email (Js.toString now +:+ suffix)
                                    (now + 900000) (User.id u))) /\
       (forall k, k <> "passwordResetToken" ->
                  localStorage w' !! k = localStorage w !! k) /\
       users w' = users w /\ currentUser w' = currentUser w /\
       forall later, later <= now + 900000 ->
         validateResetToken (Js.toString now +:+ suffix) later w'
         = (Normal (mkValidation true None (Some email)), w')).
Proof.
  unfold same_email.
  destruct (find (fun u => Js.toLowerCase (User.email u)
                           = Js.toLowerCase email) (users w))
    as [u|] eqn:E.
  - rewrite (requestPasswordReset_found _ now suffix _ _ E).
    apply find_Some in E as [Hu Hsame].
    do 2 eexists. split; [reflexivity|]. split_and!.
    + split; [intros _; by exists u | done].
    + discriminate.
    + intros _. exists u.
      set (rd := ResetData.mk email (Js.toString now +:+ suffix)
                              (now + 15 * 60 * 1000) (User.id u)).
      split_and!; try done.
      * apply lookup_insert_eq.
      * intros k Hk. cbn. by rewrite lookup_insert_ne.
      * intros later Hlater.
        apply (validateResetToken_live later _ rd); [apply lookup_insert_eq|].
        cbn. lia.
  - rewrite (requestPasswordReset_missing _ now suffix _ E).
    do 2 eexists. split; [reflexivity|]. split_and!.
    + split; [discriminate|]. intros (u & Hu & Hsame).
      rewrite find_None in E. by destruct (E u Hu).
    + intros _. by split.
    + discriminate.
Qed.

Lemma requestPasswordReset_iff_registered_witness :
  (exists r,
     requestPasswordReset "nobody@example.com" 2000 "k3j9x0q1z"
       Examples.alice_world = (Normal r, Examples.alice_world) /\
     fails_with NotFoundError r) /\
  (exists r w',
     requestPasswordReset "Alice@Example.com" 2000 "k3j9x0q1z"
       Examples.alice_world = (Normal r, w') /\
     success r = true /\
     validateResetToken "2000k3j9x0q1z" 902000 w'
     = (Normal (mkValidation true None (Some "Alice@Example.com")), w')).
Proof.
  split.
  - destruct (requestPasswordReset_iff_registered "nobody@example.com"
                "k3j9x0q1z" 2000 Examples.alice_world)
      as (r & w' & Hrun & _ & Hfail & _).
    assert (success r = false) as Hs.
    { assert (fst (requestPasswordReset "nobody@example.com" 2000 "k3j9x0q1z"
                     Examples.alice_world)
              = Normal (failure "No account found with this email address"))
        as Hf by reflexivity.
      rewrite Hrun in Hf. cbn [fst] in Hf. by injection Hf as ->. }
    destruct (Hfail Hs) as [Hkind ->]. by exists r.
  - destruct (requestPasswordReset_iff_registered "Alice@Example.com"
                "k3j9x0q1z" 2000 Examples.alice_world)
      as (r & w' & Hrun & Hiff & _ & Hok).
    assert (success r = true) as Hs.
    { apply Hiff. exists Examples.alice. split; [|reflexivity].
      vm_compute. apply list_elem_of_here. }
    destruct (Hok Hs) as (u & _ & _ & _ & _ & _ & _ & _ & Hvalid).
    exists r, w'. split; [exact Hrun|]. split; [exact Hs|].
    apply Hvalid. lia.
Defined.

(** X9: a token that is not the stored one is refused by
    [validateResetToken] and by [resetPassword], and the call changes
    nothing: the comparison comes before the expiry test, so that even an
    expired record is left in place by a wrong token. *)
Theorem wrong_token_changes_nothing (token secret : string) (now : Z)
  (w : World) (r : ResetData.t) :
  localStorage w !! "passwordResetToken" = Some (JReset r) ->
  token <> ResetData.token r ->
  validateResetToken token now w
  = (Normal (invalid "Invalid reset token"), w) /\
  resetPassword token secret now w
  = (Normal (failure "Invalid reset token"), w) /\
  error_kind "Invalid reset token" = Some TokenError.
Proof.
  intros E Hne. unfold validateResetToken, resetPassword. run.
  rewrite E. cbn [as_reset].
  rewrite bool_decide_eq_false_2 by congruence. done.
Qed.

Lemma wrong_token_changes_nothing_witness :
  validateResetToken "2000guess" 999999999 Examples.reset_world
  = (Normal (invalid "Invalid reset token"), Examples.reset_world) /\
  resetPassword "2000guess" "newsecret" 999999999 Examples.reset_world
  = (Normal (failure "Invalid reset token"), Examples.reset_world) /\
  error_kind "Invalid reset token" = Some TokenError.
Proof.
  apply (wrong_token_changes_nothing _ _ _ _ Examples.reset_record).
  - reflexivity.
  - discriminate.
Defined.

(** X10: there is one token record: a second successful request replaces
    the first, whose token (when the two differ) is refused from then on,
    while the second is accepted. *)
Theorem new_request_replaces_token (email1 email2 suffix1 suffix2 : string)
  (now1 now2 : Z) (w : World) (u1 u2 : User.t) :
  find (fun u => Js.toLowerCase (User.email u) = Js.toLowerCase email1)
       (users w) = Some u1 ->
  find (fun u => Js.toLowerCase (User.email u) = Js.toLowerCase email2)
       (users w) = Some u2 ->
  Js.toString now1 +:+ suffix1 <> Js.toString now2 +:+ suffix2 ->
  exists w1 w2,
    snd (requestPasswordReset email1 now1 suffix1 w) = w1 /\
    snd (requestPasswordReset email2 now2 suffix2 w1) = w2 /\
    (forall later secret,
       validateResetToken (Js.toString now1 +:+ suffix1) later w2
       = (Normal (invalid "Invalid reset token"), w2) /\
       resetPassword (Js.toString now1 +:+ suffix1) secret later w2
       = (Normal (failure "Invalid reset token"), w2)) /\
    (forall later, later <= now2 + 900000 ->
       validateResetToken (Js.toString now2 +:+ suffix2) later w2
       = (Normal (mkValidation true None (Some email2)), w2)).
Proof.
  intros E1 E2 Hne.
  pose proof (requestPasswordReset_found _ now1 suffix1 _ _ E1) as R1.
  set (w1 := set_localStorage _ w) in R1.
  assert (find (fun u => Js.toLowerCase (User.email u)
                         = Js.toLowerCase email2) (users w1) = Some u2)
    as E2' by exact E2.
  pose proof (requestPasswordReset_found _ now2 suffix2 _ _ E2') as R2.
  set (rd := ResetData.mk email2 (Js.toString now2 +:+ suffix2)
                          (now2 + 15 * 60 * 1000) (User.id u2)) in R2.
  set (w2 := set_localStorage _ w1) in R2.
  assert (localStorage w2 !! "passwordResetToken" = Some (JReset rd)) as Er
    by apply lookup_insert_eq.
  exists w1, w2. split; [by rewrite R1|]. split; [by rewrite R2|]. split.
  - intros later secret.
    destruct (wrong_token_changes_nothing (Js.toString now1 +:+ suffix1)
                secret later w2 rd Er Hne) as (? & ? & _). by split.
  - intros later Hlater.
    apply (validateResetToken_live later w2 rd Er). cbn. lia.
Qed.

Lemma new_request_replaces_token_witness :
  exists w2,
    snd (requestPasswordReset "alice@example.com" 3000 "zzzzzzzzz"
           Examples.reset_world) = w2 /\
    validateResetToken "2000k3j9x0q1z" 3500 w2
    = (Normal (invalid "Invalid reset token"), w2) /\
    validateResetToken "3000zzzzzzzzz" 3500 w2
    = (Normal (mkValidation true None (Some "alice@example.com")), w2).
Proof.
  destruct (new_request_replaces_token "alice@example.com" "alice@example.com"
              "k3j9x0q1z" "zzzzzzzzz" 2000 3000 Examples.alice_world
              Examples.alice Examples.alice)
    as (w1 & w2 & H1 & H2 & Hold & Hnew).
  - reflexivity.
  - reflexivity.
  - discriminate.
  - exists w2. split; [|split].
    + rewrite <- H2. f_equal. rewrite <- H1. reflexivity.
    + apply Hold. exact "".
    + apply Hnew. lia.
Defined.

(** X11: [resetPassword] and [validateResetToken] always return, whatever
    is stored under the token key. [validateResetToken], and [resetPassword]
    when it fails, leave the directory, the session and every stored key
    but the token record as they were. *)
Theorem reset_failures_are_contained (token secret : string) (now : Z)
  (w : World) :
  (exists r w',
     resetPassword token secret now w = (Normal r, w') /\
     (success r = false ->
      users w' = users w /\ currentUser w' = currentUser w /\
      forall k, k <> "passwordResetToken" ->
                localStorage w' !! k = localStorage w !! k)) /\
  (exists v w',
     validateResetToken token now w = (Normal v, w') /\
     users w' = users w /\ currentUser w' = currentUser w /\
     forall k, k <> "passwordResetToken" ->
               localStorage w' !! k = localStorage w !! k).
Proof.
  assert (forall k, k <> "passwordResetToken" ->
            localStorage (token_deleted w) !! k = localStorage w !! k) as Hdel.
  { intros k Hk. cbn. by rewrite lookup_delete_ne. }
  split.
  - destruct (resetPassword_outcome token secret now w)
      as (r & w' & Hrun & [[_ [->| ->]]|[Hs _]]);
      exists r; eexists; (split; [exact Hrun|]); intros Hf;
      [done | done | congruence].
  - destruct (validateResetToken_outcome token now w)
      as (v & w' & Hrun & [[_ [->| ->]]|(_ & -> & _)]);
      exists v; eexists; (split; [exact Hrun|]); done.
Qed.

Lemma reset_failures_are_contained_witness :
  exists r w',
    resetPassword "2000k3j9x0q1z" "newsecret" 3000 MoreExamples.garbled_world
    = (Normal r, w') /\
    success r = false /\
    users w' = [Examples.alice] /\
    localStorage w' !! "users" = Some (JUsers [Examples.alice]).
Proof.
  destruct (reset_failures_are_contained "2000k3j9x0q1z" "newsecret" 3000
              MoreExamples.garbled_world)
    as [(r & w' & Hrun & Hframe) _].
  assert (success r = false) as Hs.
  { assert (fst (resetPassword "2000k3j9x0q1z" "newsecret" 3000
                   MoreExamples.garbled_world)
            = Normal (failure "Invalid reset token")) as Hf by reflexivity.
    rewrite Hrun in Hf. cbn [fst] in Hf. by injection Hf as ->. }
  destruct (Hframe Hs) as (Hus & _ & Hkeys).
  exists r, w'. split; [exact Hrun|]. split; [exact Hs|].
  split; [rewrite Hus; reflexivity|].
  rewrite Hkeys by discriminate. reflexivity.
Defined.

(** X12: on a cart without negative quantities whose quantities sum to
    less than 2^53, the total of [updateCartBadge] is that sum, and
    [addToCart]'s update of the cart raises it by exactly 1, whether the
    line was there or not; the update adds at most one line, removes none,
    and keeps every quantity at 1 or more. *)
Theorem add_or_increment_counts (name : string) (price : Z) (image : string)
  (cart : list CartLine.t) :
  Forall (fun item => 0 <= CartLine.quantity item) cart ->
  quantities cart < 2 ^ 53 ->
  totalItems cart = Js.Num (quantities cart) /\
  totalItems (add_or_increment name price image cart)
  = Js.Num (quantities cart + 1) /\
  (length cart <= length (add_or_increment name price image cart)
   <= length cart + 1)%nat /\
  (Forall (fun item => 1 <= CartLine.quantity item) cart ->
   Forall (fun item => 1 <= CartLine.quantity item)
          (add_or_increment name price image cart)).
Proof.
  intros Hq Hs.
  destruct (add_or_increment_exact name price image cart Hq Hs) as [Hsum Hq'].
  split; [apply totalItems_exact; [done|lia]|].
  split; [rewrite <- Hsum; apply totalItems_exact; [done|lia]|].
  destruct (list_find (fun item => CartLine.name item = name) cart)
    as [[i line]|] eqn:E.
  - rewrite (add_or_increment_existing _ _ _ _ _ _ E).
    apply list_find_Some in E as (Hi & _ & _).
    split; [rewrite length_insert; lia|].
    intros H1. apply Forall_insert; [done|].
    cbn [CartLine.quantity set_quantity].
    rewrite add_incrementable by exact (small_incrementable _ _ _ Hq Hs Hi).
    pose proof (Forall_lookup_1 _ _ _ _ Hq Hi) as H0. cbn in H0. lia.
  - rewrite add_or_increment_new by by apply list_find_name_None.
    split; [rewrite length_app; simpl; lia|].
    intros H1. apply Forall_app. split; [done|].
    constructor; [|done]. cbn. lia.
Qed.

Lemma add_or_increment_counts_witness :
  totalItems (add_or_increment "Tea" 10 "tea.png" [Examples.tea])
  = Js.Num 2 /\
  totalItems (add_or_increment "Mug" 25 "mug.png" [Examples.tea])
  = Js.Num 2 /\
  Forall (fun item => 1 <= CartLine.quantity item)
         (add_or_increment "Mug" 25 "mug.png" [Examples.tea]).
Proof.
  assert (Forall (fun item => 0 <= CartLine.quantity item) [Examples.tea])
    as Hq by (repeat constructor; simpl; lia).
  assert (quantities [Examples.tea] < 2 ^ 53) as Hs by reflexivity.
  destruct (add_or_increment_counts "Tea" 10 "tea.png" [Examples.tea] Hq Hs)
    as (_ & Ht & _).
  destruct (add_or_increment_counts "Mug" 25 "mug.png" [Examples.tea] Hq Hs)
    as (_ & Hm & _ & H1).
  split; [exact Ht|]. split; [exact Hm|].
  apply H1. repeat constructor. simpl. lia.
Defined.





(** X15: whatever the clocks and however it ends, [addToCart] leaves the
    directory alone and writes no cart of another identity: the script of
    [cart.js] changes no key but [cart], and the per-identity script no key
    but [cart], the cart of the session's identity and the two keys that a
    session loses when it expires. When the session that the per-identity
    script finds does not expire during the call, the call stores the
    updated cart under the active key and changes no other cart. When the
    session expires between the fetch and the save, the cart of the
    identity is what was read and the anonymous cart is what is written;
    the cart of the identity stays as it was. *)
Theorem addToCart_writes_one_cart (name : string) (price : Z) (image : string)
  (w : World) :
  (exists o w',
     CartJs.addToCart name price image w = (o, w') /\
     users w' = users w /\ currentUser w' = currentUser w /\
     forall k, k <> "cart" -> localStorage w' !! k = localStorage w !! k) /\
  (forall now1 now2 now3,
     exists o w',
       UserCart.addToCart name price image now1 now2 now3 w = (o, w') /\
       users w' = users w /\
       (currentUser w' = currentUser w \/ currentUser w' = None) /\
       forall k, k <> "cart" -> k <> "currentUser" -> k <> "rememberMe" ->
                 (forall s, currentUser w = Some s ->
                            k <> "cart_" +:+ Session.id s) ->
                 localStorage w' !! k = localStorage w !! k) /\
  (forall now1 now2 now3 cart,
     auth w <> Uninitialized ->
     cart_at (active_cart_key now1 w) w = Some cart ->
     (in_session now1 w = true ->
      session_live now2 w = true /\ session_live now3 w = true) ->
     forallb is_line (add_or_increment name price image cart) = true ->
     exists w',
       UserCart.addToCart name price image now1 now2 now3 w
       = (Normal tt, w') /\
       localStorage w' !! active_cart_key now1 w
       = Some (JCart (add_or_increment name price image cart)) /\
       (forall k, k <> active_cart_key now1 w ->
                  k <> "currentUser" -> k <> "rememberMe" ->
                  localStorage w' !! k = localStorage w !! k) /\
       (in_session now1 w = true ->
        currentUser w' = currentUser w /\
        forall k, k <> active_cart_key now1 w ->
                  localStorage w' !! k = localStorage w !! k)) /\
  (forall now1 now2 now3 cart anonymous s,
     auth w = Initialized -> currentUser w = Some s ->
     session_live now1 w = true -> session_live now2 w = false ->
     cart_at ("cart_" +:+ Session.id s) w = Some cart ->
     cart_at "cart" w = Some anonymous ->
     forallb is_line (add_or_increment name price image cart) = true ->
     exists w',
       UserCart.addToCart name price image now1 now2 now3 w
       = (Normal tt, w') /\
       currentUser w' = None /\
       localStorage w' !! "cart"
       = Some (JCart (add_or_increment name price image cart)) /\
       localStorage w' !! ("cart_" +:+ Session.id s)
       = localStorage w !! ("cart_" +:+ Session.id s)).
Proof.
  split_and!.
  - destruct (CartJs_addToCart_frame name price image w)
      as ((Hu & _) & Hc & Hk).
    destruct (CartJs.addToCart name price image w) as [o w'].
    by exists o, w'.
  - intros now1 now2 now3.
    destruct (UserCart_addToCart_frame name price image now1 now2 now3 w)
      as (Hu & _ & _ & Hc & Hk).
    destruct (UserCart.addToCart name price image now1 now2 now3 w)
      as [o w'].
    by exists o, w'.
  - intros now1 now2 now3 cart Ha Hc Hl Hok.
    rewrite (UserCart_addToCart_run name price image now1 now2 now3 w cart
               Ha Hc Hl Hok).
    destruct (settle_frame now1 w) as (_ & _ & _ & Hls & Hcu).
    eexists. split; [reflexivity|].
    rewrite localStorage_added. split_and!.
    + apply lookup_insert_eq.
    + intros k K1 K2 K3. rewrite lookup_insert_ne by done. by apply Hls.
    + intros Hin.
      assert (settle now1 w = w) as ->.
      { unfold settle. unfold in_session in Hin.
        destruct (auth w); try done. rewrite Hin. by destruct (currentUser w). }
      split; [done|]. intros k K. by rewrite lookup_insert_ne.
  - intros now1 now2 now3 cart anonymous s Ha Hs L1 L2 Hc Hanon Hok.
    assert (refresh_returns w) as Hr.
    { unfold refresh_returns. destruct (cart_script w); [|done].
      split; [by exists anonymous | by rewrite Ha]. }
    rewrite (UserCart_addToCart_expiring name price image now1 now2 now3 w s
               cart Ha Hs L1 L2 Hc Hr Hok).
    destruct (logged_out_frame w) as (Hcu & _ & Hls & _).
    eexists. split; [reflexivity|].
    rewrite localStorage_added. split_and!.
    + done.
    + apply lookup_insert_eq.
    + destruct (cart_key_kept (Session.id s)) as (K1 & K2 & _).
      rewrite lookup_insert_ne by (cbv; discriminate).
      rewrite Hls. by rewrite !lookup_delete_ne.
Qed.

Lemma addToCart_writes_one_cart_witness :
  (exists w',
     UserCart.addToCart "Tea" 10 "tea.png" 5000 5001 5002
       MoreExamples.carts_world
     = (Normal tt, w') /\
     users w' = [Examples.alice] /\
     localStorage w' !! "cart_1000"
     = Some (JCart [CartLine.mk "Tea" 10 "tea.png" 2]) /\
     localStorage w' !! "cart"
     = Some (JCart [CartLine.mk "Mug" 25 "mug.png" 1])) /\
  (exists w',
     UserCart.addToCart "Tea" 10 "tea.png" 5000 86401001 86401002
       MoreExamples.carts_world
     = (Normal tt, w') /\
     currentUser w' = None /\
     localStorage w' !! "cart"
     = Some (JCart [CartLine.mk "Tea" 10 "tea.png" 2]) /\
     localStorage w' !! "cart_1000" = Some (JCart [Examples.tea])).
Proof.
  destruct (addToCart_writes_one_cart "Tea" 10 "tea.png"
              MoreExamples.carts_world) as (_ & Hany & Hstable & Hexpiring).
  split.
  - destruct (Hstable 5000 5001 5002 [Examples.tea])
      as (w' & Hrun & Hkey & _ & Hlive);
      [discriminate | reflexivity | by split | reflexivity |].
    destruct Hlive as [_ Hkeys]; [reflexivity|].
    destruct (Hany 5000 5001 5002) as (o & w'' & Hrun' & Hus & _).
    rewrite Hrun in Hrun'. injection Hrun' as <- <-.
    exists w'. split; [exact Hrun|]. split; [rewrite Hus; reflexivity|].
    split; [exact Hkey|]. rewrite Hkeys; [reflexivity | discriminate].
  - edestruct (Hexpiring 5000 86401001 86401002 [Examples.tea]
                 [CartLine.mk "Mug" 25 "mug.png" 1])
      as (w' & Hrun & Hcu & Hcart & Hown); [reflexivity..|].
    exists w'. split; [exact Hrun|]. split; [exact Hcu|].
    split; [exact Hcart|].
    transitivity (localStorage MoreExamples.carts_world !! "cart_1000");
      [exact Hown | reflexivity].
Defined.

(** X16: [addUserAddress] on a known identifier succeeds with the address
    stamped with the time as identifier and creation time; the identity
    then has one address more, the stamped address last, nobody's
    identifier has changed, and the directory is persisted. When the
    address carries no identifier yet and every address of the directory
    carries one, so that the address is none of them, the earlier addresses
    are as they were and no other identity changes. For an unknown
    identifier [addUserAddress] fails and changes nothing, and
    [getUserAddresses] returns the empty list. *)
Theorem address_is_appended (userId : string) (address : Address.t) (now : Z)
  (w : World) :
  (forall i u,
     list_find (fun user => User.id user = userId) (users w) = Some (i, u) ->
     exists w' earlier,
       addUserAddress userId address now w
       = (Normal (ok "Address added successfully"
                     (Some (stamped address now))), w') /\
       getUserAddresses userId w
       = (Normal (default [] (Profile.addresses (User.profile u))), w) /\
       getUserAddresses userId w'
       = (Normal (earlier ++ [stamped address now]), w') /\
       length earlier
       = length (default [] (Profile.addresses (User.profile u))) /\
       User.id <$> users w' = User.id <$> users w /\
       localStorage w' !! "users" = Some (JUsers (users w')) /\
       (Address.id address = None ->
        Forall (fun user =>
                  Forall (fun a => Address.id a <> None)
                         (default [] (Profile.addresses (User.profile user))))
               (users w) ->
        earlier = default [] (Profile.addresses (User.profile u)) /\
        users w' = <[i := with_address (stamped address now) u]> (users w))) /\
  (list_find (fun user => User.id user = userId) (users w) = None ->
   addUserAddress userId address now w
   = (Normal (failure "User not found"), w) /\
   getUserAddresses userId w = (Normal [], w)).
Proof.
  split.
  - intros i u E. rewrite (addUserAddress_found _ _ _ _ _ _ E).
    pose proof E as (Hi & Hid & _)%list_find_Some.
    set (u' := with_address (stamped address now) u).
    pose proof (users_in_place userId i u u' w Hi) as Hus.
    eexists. exists (default [] (Profile.addresses (User.profile u))).
    split; [reflexivity|]. split_and!.
    + unfold getUserAddresses, getUserProfile. run. unfold find. rewrite E.
      cbn [fmap option_fmap option_map snd].
      by destruct (Profile.addresses (User.profile u)).
    + unfold getUserAddresses, getUserProfile. run. unfold find.
      rewrite Hus.
      rewrite (list_find_insert_same _ _ _ _ u' E) by exact Hid.
      cbn [fmap option_fmap option_map snd]. reflexivity.
    + done.
    + rewrite Hus, list_fmap_insert. apply list_insert_id.
      by rewrite list_lookup_fmap, Hi.
    + apply (mirrored_users_profile_updated userId).
    + intros _ _. split; [done | exact Hus].
  - intros E. split; [by apply addUserAddress_missing|].
    unfold getUserAddresses, getUserProfile. run. unfold find. by rewrite E.
Qed.

Lemma address_is_appended_witness :
  (exists w',
     addUserAddress "1000" Examples.home 3000 Examples.alice_world
     = (Normal (ok "Address added successfully"
                   (Some (stamped Examples.home 3000))), w') /\
     getUserAddresses "1000" w'
     = (Normal [Address.mk (Some "3000") (Some 3000) [("city", "Pune")]], w')
     /\ length (users w') = 1%nat)
  /\ addUserAddress "77" Examples.home 3000 Examples.alice_world
     = (Normal (failure "User not found"), Examples.alice_world).
Proof.
  destruct (address_is_appended "1000" Examples.home 3000 Examples.alice_world)
    as [Hfound _].
  destruct (address_is_appended "77" Examples.home 3000 Examples.alice_world)
    as [_ Hmissing].
  split.
  - destruct (Hfound 0%nat Examples.alice)
      as (w' & earlier & Hrun & _ & Hget & _ & _ & _ & Hfresh);
      [reflexivity|].
    destruct Hfresh as [-> Hus];
      [reflexivity | repeat constructor |].
    exists w'. split; [exact Hrun|]. split; [exact Hget|].
    rewrite Hus. reflexivity.
  - apply Hmissing. reflexivity.
Defined.

(** X17: an order added to an identity is the last of the orders that
    [getUserOrders] then returns for it, and the directory is persisted; for
    an unknown identifier [addUserOrder] reports nothing and changes
    nothing, and [getUserOrders] returns the empty list. *)
Theorem order_is_appended (userId : string) (order : Order) (w : World) :
  (forall i u,
     list_find (fun user => User.id user = userId) (users w) = Some (i, u) ->
     exists w',
       addUserOrder userId order w = (Normal tt, w') /\
       getUserOrders userId w'
       = (Normal (default [] (Profile.orders (User.profile u)) ++ [order]), w')
       /\ users w' = <[i := with_order order u]> (users w)
       /\ localStorage w' !! "users" = Some (JUsers (users w'))) /\
  (list_find (fun user => User.id user = userId) (users w) = None ->
   addUserOrder userId order w = (Normal tt, w) /\
   getUserOrders userId w = (Normal [], w)).
Proof.
  split.
  - intros i u E. rewrite (addUserOrder_found _ _ _ _ _ E).
    pose proof E as (Hi & Hid & _)%list_find_Some.
    set (u' := with_order order u).
    pose proof (users_in_place userId i u u' w Hi) as Hus.
    eexists. split; [reflexivity|]. split_and!.
    + unfold getUserOrders, getUserProfile. run. unfold find.
      rewrite Hus.
      rewrite (list_find_insert_same _ _ _ _ u' E) by exact Hid.
      cbn [fmap option_fmap option_map snd]. unfold u'. cbn.
      by destruct (Profile.orders (User.profile u)).
    + exact Hus.
    + apply (mirrored_users_profile_updated userId).
  - intros E. split; [by apply addUserOrder_missing|].
    unfold getUserOrders, getUserProfile. run. unfold find. by rewrite E.
Qed.

Lemma order_is_appended_witness :
  (exists w',
     addUserOrder "1000" MoreExamples.order17 Examples.alice_world
     = (Normal tt, w') /\
     getUserOrders "1000" w' = (Normal [MoreExamples.order17], w'))
  /\ addUserOrder "77" MoreExamples.order17 Examples.alice_world
     = (Normal tt, Examples.alice_world).
Proof.
  destruct (order_is_appended "1000" MoreExamples.order17 Examples.alice_world)
    as [Hfound _].
  destruct (order_is_appended "77" MoreExamples.order17 Examples.alice_world)
    as [_ Hmissing].
  split.
  - destruct (Hfound 0%nat Examples.alice) as (w' & Hrun & Hget & _);
      [reflexivity|].
    exists w'. split; [exact Hrun | exact Hget].
  - apply Hmissing. reflexivity.
Defined.

(** X18: when another tab has logged out, which removes the session key,
    the [storage] event makes this tab drop its session too, and the store
    mirrors the memory again; the handler returns when the page's
    [updateCartBadge], which [logout] calls, does. A [storage] event for
    another key, or one that brings a value, changes nothing. *)
Theorem storage_event_logs_out (key newValue : option string) (now : Z)
  (w : World) :
  (key = Some "currentUser" -> newValue = None ->
   stored_users w = Some (users w) ->
   exists o w',
     onStorage key newValue now w = (o, w') /\
     (refresh_returns w -> o = Normal tt) /\
     currentUser w' = None /\ users w' = users w /\ mirrored w' /\
     isLoggedIn now w' = (Normal false, w')) /\
  (key <> Some "currentUser" -> onStorage key newValue now w = (Normal tt, w)) /\
  (forall v, newValue = Some v -> v <> "" ->
             onStorage key newValue now w = (Normal tt, w)).
Proof.
  unfold onStorage. split_and!.
  - intros -> -> Hu. rewrite bool_decide_eq_true_2 by done. cbn [falsy andb].
    rewrite logout_run.
    destruct (logged_out_frame w) as (Hcu & Hus & Hls & _).
    do 2 eexists. split; [reflexivity|].
    split; [apply logout_outcome_returns|].
    split; [done|]. split; [done|]. split.
    + split.
      * unfold stored_users in *. rewrite Hus, Hls.
        by rewrite !lookup_delete_ne.
      * rewrite Hcu, Hls. rewrite lookup_delete_ne by done.
        apply lookup_delete_eq.
    + by apply isLoggedIn_none.
  - intros Hk. by rewrite bool_decide_eq_false_2.
  - intros v -> Hv. cbn [falsy]. rewrite (bool_decide_eq_false_2 _ Hv).
    by rewrite andb_false_r.
Qed.

Lemma storage_event_logs_out_witness :
  currentUser MoreExamples.stale_world
  = Some (session_of Examples.alice 1000) /\
  exists w',
    onStorage (Some "currentUser") None 2000 MoreExamples.stale_world
    = (Normal tt, w') /\
    currentUser w' = None /\ mirrored w'.
Proof.
  split; [reflexivity|].
  destruct (storage_event_logs_out (Some "currentUser") None 2000
              MoreExamples.stale_world) as [H _].
  destruct H as (o & w' & Hrun & Ho & Hcu & _ & Hm & _); [reflexivity..|].
  rewrite Ho in Hrun by exact I.
  exists w'. split; [exact Hrun|]. split; [exact Hcu | exact Hm].
Defined.

(** X19: [updateUserProfile] changes the first identity with the given
    identifier and no other, and persists the directory; it touches the
    session, in memory and in the store, only when the session has that
    identifier. For an unknown identifier it fails and changes nothing. *)
Theorem updateUserProfile_changes_one_identity (userId : string)
  (updates : Updates.t) (w : World) :
  (forall i u,
     list_find (fun user => User.id user = userId) (users w) = Some (i, u) ->
     exists w',
       updateUserProfile userId updates w
       = (Normal (ok "Profile updated successfully" None), w') /\
       users w' = <[i := spread_user u updates]> (users w) /\
       (forall j, j <> i -> users w' !! j = users w !! j) /\
       localStorage w' !! "users" = Some (JUsers (users w')) /\
       (forall s, currentUser w = Some s -> Session.id s <> userId ->
                  currentUser w' = Some s /\
                  localStorage w' !! "currentUser"
                  = localStorage w !! "currentUser") /\
       (currentUser w = None ->
        currentUser w' = None /\
        localStorage w' !! "currentUser" = localStorage w !! "currentUser") /\
       (forall s, currentUser w = Some s -> Session.id s = userId ->
                  currentUser w' = Some (spread_session s updates) /\
                  localStorage w' !! "currentUser"
                  = Some (JSession (spread_session s updates)))) /\
  (list_find (fun user => User.id user = userId) (users w) = None ->
   updateUserProfile userId updates w
   = (Normal (failure "User not found"), w)).
Proof.
  split; [|apply updateUserProfile_missing].
  intros i u E. rewrite (updateUserProfile_found _ updates _ _ _ E).
  apply list_find_Some in E as (Hi & _).
  eexists. split; [reflexivity|].
  assert (users (profile_updated userId updates i w)
          = <[i := spread_user u updates]> (users w)) as Hus.
  { by rewrite users_profile_updated, (alter_at_lookup _ _ _ _ Hi). }
  split_and!.
  - exact Hus.
  - intros j Hj. by rewrite Hus, list_lookup_insert_ne.
  - apply mirrored_users_profile_updated.
  - intros s Hcu Hne. unfold profile_updated. rewrite Hcu.
    rewrite bool_decide_eq_false_2 by done. cbn. by rewrite lookup_insert_ne.
  - intros Hcu. unfold profile_updated. rewrite Hcu. cbn.
    by rewrite lookup_insert_ne.
  - intros s Hcu Heq. unfold profile_updated. rewrite Hcu.
    rewrite bool_decide_eq_true_2 by done. cbn. by rewrite lookup_insert_eq.
Qed.

Lemma updateUserProfile_changes_one_identity_witness :
  (exists w',
     updateUserProfile "1000" (Updates.of_password "changed1")
       Examples.twins_world
     = (Normal (ok "Profile updated successfully" None), w') /\
     users w' = [with_password "changed1" Examples.alice; Examples.bob])
  /\ updateUserProfile "77" (Updates.of_password "changed1")
       Examples.twins_world
     = (Normal (failure "User not found"), Examples.twins_world).
Proof.
  destruct (updateUserProfile_changes_one_identity "1000"
              (Updates.of_password "changed1") Examples.twins_world)
    as [Hfound _].
  destruct (updateUserProfile_changes_one_identity "77"
              (Updates.of_password "changed1") Examples.twins_world)
    as [_ Hmissing].
  split.
  - destruct (Hfound 0%nat Examples.alice) as (w' & Hrun & Hus & _);
      [reflexivity|].
    exists w'. split; [exact Hrun|]. rewrite Hus. reflexivity.
  - apply Hmissing. reflexivity.
Defined.

(** X20: a successful [login] writes the remembered-email key only when the
    remember-me flag is stored as the text [true], and then it writes the
    email as it was typed; without the flag the key keeps what it held. The
    directory, its stored copy and the token record are not touched. *)
Theorem login_remembers_only_when_flagged (email password : string) (now : Z)
  (w : World) (u : User.t) :
  find (fun u => Js.toLowerCase (User.email u) = Js.toLowerCase email
                 /\ User.password u = password) (users w) = Some u ->
  exists w',
    login email password now w
    = (Normal (ok "Login successful" (Some (session_of u now))), w') /\
    (localStorage w !! "rememberMe" = Some (Raw "true") ->
     localStorage w' !! "rememberedUser" = Some (Raw email)) /\
    (localStorage w !! "rememberMe" <> Some (Raw "true") ->
     localStorage w' !! "rememberedUser" = localStorage w !! "rememberedUser") /\
    users w' = users w /\
    (forall k, k <> "currentUser" -> k <> "rememberedUser" ->
               localStorage w' !! k = localStorage w !! k).
Proof.
  intros E. rewrite (login_match _ _ _ _ _ E). eexists. split; [reflexivity|].
  unfold logged_in. cbn [localStorage set_localStorage users set_currentUser].
  split_and!.
  - intros ->. cbn. apply lookup_insert_eq.
  - intros Hflag.
    assert (is_text "true" (localStorage w !! "rememberMe") = false) as ->.
    { destruct (localStorage w !! "rememberMe") as [[t| | | |]|]; try done.
      cbn. apply bool_decide_eq_false_2. congruence. }
    by rewrite lookup_insert_ne.
  - done.
  - intros k H1 H2. destruct (is_text _ _); by rewrite !lookup_insert_ne.
Qed.

Lemma login_remembers_only_when_flagged_witness :
  (exists w',
     login "Alice@Example.com" "secret1" 8000 MoreExamples.stale_world
     = (Normal (ok "Login successful"
                   (Some (session_of Examples.alice 8000))), w') /\
     localStorage w' !! "rememberedUser" = None) /\
  (exists w',
     login "Alice@Example.com" "secret1" 8000 Examples.flagged_world
     = (Normal (ok "Login successful"
                   (Some (session_of Examples.alice 8000))), w') /\
     localStorage w' !! "rememberedUser" = Some (Raw "Alice@Example.com")).
Proof.
  split.
  - destruct (login_remembers_only_when_flagged "Alice@Example.com" "secret1"
                8000 MoreExamples.stale_world Examples.alice)
      as (w' & Hrun & _ & Hno & _); [reflexivity|].
    exists w'. split; [exact Hrun|]. rewrite Hno; [reflexivity | discriminate].
  - destruct (login_remembers_only_when_flagged "Alice@Example.com" "secret1"
                8000 Examples.flagged_world Examples.alice)
      as (w' & Hrun & Hyes & _); [reflexivity|].
    exists w'. split; [exact Hrun|]. apply Hyes. reflexivity.
Defined.

(** X21: [logout] refreshes the page as for a visitor: the login link is
    shown, the logout link and the user menu are hidden, an element that
    the page lacks is not created, and no other element changes but the
    cart badge. The badge is left to the page's [updateCartBadge]: a page
    without cart script keeps it, the quantity-aware scripts show the total
    of the anonymous cart in it, and the third script writes the number of
    lines of that cart. When that call returns, [logout] returns and its
    last effect is the [authStateChanged] event, with [isLoggedIn] false
    and no user; when it throws, [logout] throws and the event is not sent,
    as with the per-identity script while [auth] is not initialised. *)
Theorem logout_refreshes_page (now : Z) (w : World) :
  exists o w',
    logout now w = (o, w') /\
    (refresh_returns w -> o = Normal tt) /\
    (cart_script w = Some UserCartScript -> auth w = Uninitialized ->
     o = Thrown "ReferenceError") /\
    dom w' !! ".auth-login"
    = Element.set_display "flex" <$> dom w !! ".auth-login" /\
    dom w' !! ".auth-logout"
    = Element.set_display "none" <$> dom w !! ".auth-logout" /\
    dom w' !! ".user-menu"
    = Element.set_display "none" <$> dom w !! ".user-menu" /\
    (forall sel, sel <> ".auth-login" -> sel <> ".auth-logout" ->
                 sel <> ".user-menu" -> sel <> "#cart-count" ->
                 dom w' !! sel = dom w !! sel) /\
    (cart_script w = None ->
     dom w' !! "#cart-count" = dom w !! "#cart-count") /\
    (forall cart,
       cart_script w = Some CartJsScript \/
       (cart_script w = Some UserCartScript /\ auth w <> Uninitialized) ->
       cart_at "cart" w = Some cart ->
       dom w' !! "#cart-count"
       = badge (totalItems cart) <$> dom w !! "#cart-count") /\
    (forall cart,
       cart_script w = Some SimpleCartScript ->
       cart_at "cart" w = Some cart ->
       dom w' !! "#cart-count"
       = Element.set_innerText (Js.toString (Z.of_nat (length cart)))
           <$> dom w !! "#cart-count") /\
    trace w'
    = trace w ++ match o with
                 | Normal _ => [DispatchAuthStateChanged false None]
                 | Thrown _ => []
                 end.
Proof.
  rewrite logout_run. do 2 eexists. split; [reflexivity|].
  destruct (dom_logged_out w) as [f Hd].
  assert (forall k, k <> "currentUser" -> k <> "rememberMe" ->
                    cart_at k (signed_out w) = cart_at k w) as Hcart
    by (intros k; apply cart_at_signed_out).
  assert (dom (signed_out w) !! "#cart-count" = dom w !! "#cart-count")
    as Hsame by (cbn [signed_out dom]; by rewrite !lookup_alter_ne).
  split; [apply logout_outcome_returns|].
  split; [apply logout_outcome_uninitialized|].
  split_and!.
  - rewrite Hd. rewrite !lookup_alter_ne by done. apply lookup_alter_eq.
  - rewrite Hd. rewrite !lookup_alter_ne by done. rewrite lookup_alter_eq.
    by rewrite lookup_alter_ne.
  - rewrite Hd. rewrite lookup_alter_ne by done. rewrite lookup_alter_eq.
    by rewrite !lookup_alter_ne.
  - intros sel H1 H2 H3 H4. rewrite Hd. by rewrite !lookup_alter_ne.
  - intros Hs. rewrite <- Hsame. unfold logged_out, refresh_badge.
    cbn [signed_out cart_script]. by rewrite Hs.
  - intros cart Hs Hc. rewrite <- Hsame.
    assert (refresh_badge (signed_out w)
            = CartJs.updateCartBadge (signed_out w)) as E.
    { unfold refresh_badge. cbn [signed_out cart_script auth].
      destruct Hs as [-> | [-> Ha]]; [done|]. by destruct (auth w). }
    unfold logged_out. rewrite E, CartJs_updateCartBadge_run.
    rewrite Hcart, Hc by done. cbn [dom set_dom set_trace].
    apply lookup_alter_eq.
  - intros cart Hs Hc. rewrite <- Hsame.
    assert (refresh_badge (signed_out w)
            = SimpleCart.updateCartBadge (signed_out w)) as E.
    { unfold refresh_badge. cbn [signed_out cart_script]. by rewrite Hs. }
    unfold logged_out. rewrite E, SimpleCart_updateCartBadge_run.
    rewrite Hcart, Hc by done. cbn [dom set_dom set_trace].
    apply lookup_alter_eq.
  - apply trace_logged_out.
Qed.

Lemma logout_refreshes_page_witness :
  (exists w',
     logout 2000 MoreExamples.badge_world = (Normal tt, w') /\
     dom w' !! "#cart-count" = Some (Element.mk "5" "flex") /\
     trace w' = [DispatchAuthStateChanged false None]) /\
  (exists w',
     logout 2000 Examples.loading_world = (Thrown "ReferenceError", w') /\
     trace w' = trace Examples.loading_world).
Proof.
  split.
  - destruct (logout_refreshes_page 2000 MoreExamples.badge_world)
      as (o & w' & Hrun & Ho & _ & _ & _ & _ & _ & _ & Hbadge & _ & Htrace).
    rewrite Ho in Hrun, Htrace.
    2,3: split; [by eexists | discriminate].
    exists w'. split; [exact Hrun|]. split; [|exact Htrace].
    rewrite (Hbadge [CartLine.mk "Tea" 10 "tea.png" 2;
                     CartLine.mk "Mug" 25 "mug.png" 3]);
      [reflexivity | by left | reflexivity].
  - destruct (logout_refreshes_page 2000 Examples.loading_world)
      as (o & w' & Hrun & _ & Ho & _ & _ & _ & _ & _ & _ & _ & Htrace).
    rewrite Ho in Hrun, Htrace by reflexivity.
    exists w'. split; [exact Hrun|]. rewrite Htrace. apply app_nil_r.
Defined.

(** X22: for an identity that is the first of the directory with its
    email, letter case apart, and the first with its identifier,
    [requestPasswordReset] with its email and then [resetPassword] with the
    returned token and a new secret of at least 6 characters, not later
    than 15 minutes after the request, replaces that identity's secret,
    leaves the other identities as they were, persists the directory and
    deletes the token record; from then on [resetPassword] with that token
    fails with a token error and changes nothing. *)
Theorem reset_then_token_is_spent (w : World) (u : User.t) (i : nat)
  (now later : Z) (suffix newSecret : string) :
  find (fun v => Js.toLowerCase (User.email v)
                = Js.toLowerCase (User.email u)) (users w) = Some u ->
  list_find (fun v => User.id v = User.id u) (users w) = Some (i, u) ->
  (6 <= Js.length newSecret)%nat ->
  later <= now + 15 * 60 * 1000 ->
  exists token w1 w2,
    requestPasswordReset (User.email u) now suffix w
    = (Normal (ok "Password reset instructions have been sent to your email"
                  (Some token)), w1) /\
    resetPassword token newSecret later w1
    = (Normal (ok "Password reset successfully" None), w2) /\
    users w2 = <[i := with_password newSecret u]> (users w) /\
    localStorage w2 !! "users" = Some (JUsers (users w2)) /\
    localStorage w2 !! "passwordResetToken" = None /\
    forall secret t,
      exists res,
        resetPassword token secret t w2 = (Normal res, w2) /\
        fails_with TokenError res.
Proof.
  intros Hemail Hid Hlen Hlater.
  rewrite (requestPasswordReset_found _ _ _ _ _ Hemail).
  set (r := ResetData.mk (User.email u) (Js.toString now +:+ suffix)
                         (now + 15 * 60 * 1000) (User.id u)).
  set (w1 := set_localStorage _ w).
  assert (localStorage w1 !! "passwordResetToken" = Some (JReset r)) as E
    by apply lookup_insert_eq.
  exists (ResetData.token r), w1. eexists. split; [reflexivity|].
  rewrite (resetPassword_done newSecret later w1 r i u E Hlater Hlen Hid).
  split; [reflexivity|].
  assert (localStorage
            (token_deleted
               (profile_updated (ResetData.userId r)
                  (Updates.of_password newSecret) i w1))
            !! "passwordResetToken" = None) as Hgone
    by apply lookup_delete_eq.
  split_and!.
  - unfold token_deleted, profile_updated.
    apply list_find_Some in Hid as (Hi & _).
    destruct (currentUser w1) as [s|]; [destruct (bool_decide _)|]; cbn;
      by rewrite (alter_at_lookup _ _ _ _ Hi); destruct u.
  - unfold token_deleted. cbn [localStorage set_localStorage users].
    rewrite lookup_delete_ne by done.
    apply mirrored_users_profile_updated.
  - exact Hgone.
  - intros secret t. rewrite (resetPassword_no_record _ _ _ _ Hgone).
    eexists. split; [reflexivity|]. by split.
Qed.

Lemma reset_then_token_is_spent_witness :
  exists w1 w2,
    requestPasswordReset "alice@example.com" 2000 "k3j9x0q1z"
      Examples.alice_world
    = (Normal (ok "Password reset instructions have been sent to your email"
                  (Some "2000k3j9x0q1z")), w1) /\
    resetPassword "2000k3j9x0q1z" "newsecret" 902000 w1
    = (Normal (ok "Password reset successfully" None), w2) /\
    users w2 = [with_password "newsecret" Examples.alice] /\
    localStorage w2 !! "users"
    = Some (JUsers [with_password "newsecret" Examples.alice]) /\
    localStorage w2 !! "passwordResetToken" = None /\
    exists res,
      resetPassword "2000k3j9x0q1z" "another1" 902000 w2 = (Normal res, w2) /\
      fails_with TokenError res.
Proof.
  destruct (reset_then_token_is_spent Examples.alice_world Examples.alice 0%nat
              2000 902000 "k3j9x0q1z" "newsecret")
    as (token & w1 & w2 & Hreq & Hreset & Husers & Hstored & Hgone & Hspent).
  - reflexivity.
  - reflexivity.
  - simpl. lia.
  - lia.
  - assert (token = "2000k3j9x0q1z") as ->.
    { assert (fst (requestPasswordReset "alice@example.com" 2000 "k3j9x0q1z"
                     Examples.alice_world)
              = Normal (ok "Password reset instructions have been sent to your email"
                           (Some "2000k3j9x0q1z"))) as Hc by reflexivity.
      change (User.email Examples.alice) with "alice@example.com" in Hreq.
      rewrite Hreq in Hc. cbn [fst] in Hc. by injection Hc as ->. }
    exists w1, w2. split; [exact Hreq|]. split; [exact Hreset|].
    split; [exact Husers|]. split; [by rewrite Hstored, Husers|].
    split; [exact Hgone|]. apply Hspent.
Defined.

(** X23: [validateSession] answers false when there is no session, and
    answers true and changes nothing when the session is at most 24 hours
    old. On an older session it clears the session in memory and removes
    the session key, whatever follows: it then answers false when the
    page's [updateCartBadge], which [logout] calls, returns, and throws
    otherwise, as with the per-identity script while [auth] is not
    initialised. [isLoggedIn] does the same; after either, [isLoggedIn]
    answers false at any time. So once more than 24 hours have passed since
    a login, [isLoggedIn] ends the session. *)
Theorem validateSession_expiry (now : Z) (w : World) :
  (currentUser w = None ->
   validateSession now w = (Normal false, w) /\
   isLoggedIn now w = (Normal false, w)) /\
  (forall s, currentUser w = Some s ->
     now - Session.loginTime s <= 24 * 60 * 60 * 1000 ->
     validateSession now w = (Normal true, w) /\
     isLoggedIn now w = (Normal true, w)) /\
  (forall s, currentUser w = Some s ->
     now - Session.loginTime s > 24 * 60 * 60 * 1000 ->
     exists o w',
       validateSession now w = (o, w') /\
       isLoggedIn now w = (o, w') /\
       currentUser w' = None /\
       localStorage w' !! "currentUser" = None /\
       users w' = users w /\
       (refresh_returns w -> o = Normal false) /\
       (cart_script w = Some UserCartScript -> auth w = Uninitialized ->
        o = Thrown "ReferenceError") /\
       forall later, isLoggedIn later w' = (Normal false, w')) /\
  (forall email password t r w1,
     login email password t w = (Normal r, w1) -> success r = true ->
     now - t > 24 * 60 * 60 * 1000 ->
     exists o w2,
       isLoggedIn now w1 = (o, w2) /\
       currentUser w2 = None /\
       localStorage w2 !! "currentUser" = None /\
       (refresh_returns w1 -> o = Normal false)).
Proof.
  assert (forall w0 : World,
            localStorage (logged_out w0) !! "currentUser" = None) as Hgone.
  { intros w0. rewrite localStorage_logged_out.
    rewrite lookup_delete_ne by done. apply lookup_delete_eq. }
  assert (forall w0, refresh_returns w0 -> expiry_outcome w0 = Normal false)
    as Hret.
  { intros w0 Hr. unfold expiry_outcome. by rewrite logout_outcome_returns. }
  rewrite validateSession_run, isLoggedIn_run.
  unfold session_live, maxSessionAge. split_and!.
  - by intros ->.
  - intros s -> Hage.
    rewrite Z.gtb_ltb, (proj2 (Z.ltb_ge _ _)) by lia. done.
  - intros s -> Hage.
    rewrite (proj2 (Z.gtb_gt _ _)) by lia. cbn [negb].
    exists (expiry_outcome w), (logged_out w).
    split; [done|]. split; [done|].
    split; [apply currentUser_logged_out|]. split; [apply Hgone|].
    split; [apply users_logged_out|]. split; [apply Hret|]. split.
    + intros Hs Ha. unfold expiry_outcome.
      by rewrite logout_outcome_uninitialized.
    + intros later. apply isLoggedIn_none, currentUser_logged_out.
  - intros email password t r w1 Hlogin Hok Hage.
    destruct (find (fun u => Js.toLowerCase (User.email u)
                             = Js.toLowerCase email
                             /\ User.password u = password) (users w))
      as [u|] eqn:E.
    + rewrite (login_match _ _ _ _ _ E) in Hlogin.
      injection Hlogin as <- <-.
      rewrite isLoggedIn_run. unfold session_live, maxSessionAge.
      cbn [logged_in currentUser set_currentUser set_localStorage session_of
           Session.loginTime].
      rewrite (proj2 (Z.gtb_gt _ _)) by lia. cbn [negb].
      do 2 eexists. split; [reflexivity|].
      split; [apply currentUser_logged_out|]. split; [apply Hgone|].
      apply Hret.
    + rewrite (login_no_match _ _ _ _ E) in Hlogin.
      injection Hlogin as <- <-. discriminate.
Qed.

Lemma validateSession_expiry_witness :
  (validateSession 5000 Examples.empty_world
   = (Normal false, Examples.empty_world) /\
   isLoggedIn 5000 Examples.empty_world
   = (Normal false, Examples.empty_world)) /\
  (validateSession 86401000 Examples.alice_world
   = (Normal true, Examples.alice_world) /\
   isLoggedIn 86401000 Examples.alice_world
   = (Normal true, Examples.alice_world)) /\
  (exists w',
     validateSession 86401001 Examples.alice_world = (Normal false, w') /\
     currentUser w' = None /\
     localStorage w' !! "currentUser" = None) /\
  (exists w',
     isLoggedIn 86401001 Examples.loading_world
     = (Thrown "ReferenceError", w') /\
     currentUser w' = None /\
     localStorage w' !! "currentUser" = None).
Proof.
  destruct (validateSession_expiry 5000 Examples.empty_world) as (H1 & _).
  destruct (validateSession_expiry 86401000 Examples.alice_world)
    as (_ & H2 & _).
  destruct (validateSession_expiry 86401001 Examples.alice_world)
    as (_ & _ & H3 & _).
  destruct (validateSession_expiry 86401001 Examples.loading_world)
    as (_ & _ & H4 & _).
  split; [apply H1; reflexivity|].
  split; [apply (H2 (session_of Examples.alice 1000));
          [reflexivity | simpl; lia]|].
  split.
  - destruct (H3 (session_of Examples.alice 1000))
      as (o & w' & Hv & _ & Hcu & Hkey & _ & Ho & _);
      [reflexivity | simpl; lia |].
    rewrite Ho in Hv by exact I.
    exists w'. split; [exact Hv|]. split; [exact Hcu | exact Hkey].
  - destruct (H4 (session_of Examples.alice 1000))
      as (o & w' & _ & Hl & Hcu & Hkey & _ & _ & Ho & _);
      [reflexivity | simpl; lia |].
    rewrite Ho in Hl by reflexivity.
    exists w'. split; [exact Hl|]. split; [exact Hcu | exact Hkey].
Defined.
